(** * CloudflareTurnstile: a shallow embedding of the solver, the host and
      the legacy server

    Sources embedded here:
    - [src/utils/turnstile.py]  (class [TurnstileSolver])      -> [Module Solver]
    - [src/backup.py]           (class [TurnstileAPIServer])   -> [Module Legacy]
    - [src/app.py]              (configuration and endpoints)  -> [Module App]
    and, for the functions around them, [Module SolverInit] (the solver's
    constructor and its choice of a user agent), [Module Launcher] (the
    main block of the legacy server) and [Module Host] (the solve
    endpoints and the dispatch of the primary host).

    Python values are modelled by [pyval]; a [dict] with string keys is a
    [gmap string pyval], so that dictionary equality is extensional as in
    Python.  A [str] is a sequence of code points, of which the model
    holds those below 256; a [float] is a binary double, named by a
    rational.  Coroutines are run to completion one at a time: an [await] is
    a call in the monad [M], which threads the mutable part of the process
    (the browser pool, the number of clock readings, the trace of effects),
    propagates exceptions and records that a coroutine waits forever on an
    empty queue.  The browser automation driver, the files and the wall
    clock are not part of the repository: they are an explicit [world],
    whose answers may depend on everything that happened before.

    [Module Spec] holds the notions the statements are phrased in,
    [Module Scenario] concrete worlds and processes; the properties follow
    after them. *)

From Stdlib Require Import Ascii String QArith ZArith Lia.
From stdpp Require Import gmap strings list fin_maps.

Local Open Scope string_scope.
Local Open Scope Z_scope.

(** ** Python values *)

Module Py.

Unset Elimination Schemes.
#[warnings="-register-all"]
Inductive pyval : Type :=
| PNone
| PBool (b : bool)
| PInt (n : Z)
| PFloat (q : Q)
| PStr (s : string)
| PList (l : list pyval)
| PDict (d : gmap string pyval).
Set Elimination Schemes.

Abbreviation pydict := (gmap string pyval).

(** [v == "text"] for a value [v]. *)
Definition eq_str (v : pyval) (s : string) : bool :=
  match v with
  | PStr s' => String.eqb s' s
  | _ => false
  end.

(** Truth value of a string, and of an optional string ([None] or [str]). *)
Definition truthy_str (s : string) : bool :=
  negb (String.eqb s "").

Definition truthy (o : option string) : bool :=
  match o with
  | Some s => truthy_str s
  | None => false
  end.

(** The constructor [bool] applied to a string. *)
Definition bool_of_str (s : string) : bool := truthy_str s.

(** *** Strings *)

(** A [str] is a sequence of code points; the model holds those below 256,
    one per character.  White space as [str.strip] and [str.isspace] see
    it among them: tab to carriage return, the four separators 28..31, the
    blank, next line (133) and the no-break space (160). *)
Definition py_isspace (c : ascii) : bool :=
  let n := nat_of_ascii c in
  ((9 <=? n)%nat && (n <=? 13)%nat) || ((28 <=? n)%nat && (n <=? 31)%nat)
  || (n =? 32)%nat || (n =? 133)%nat || (n =? 160)%nat.

Fixpoint lstrip (s : string) : string :=
  match s with
  | EmptyString => EmptyString
  | String c r => if py_isspace c then lstrip r else s
  end.

Fixpoint rstrip (s : string) : string :=
  match s with
  | EmptyString => EmptyString
  | String c r =>
      match rstrip r with
      | EmptyString => if py_isspace c then EmptyString else String c EmptyString
      | r' => String c r'
      end
  end.

Definition strip (s : string) : string := rstrip (lstrip s).

(** [s.split(sep)] for a one-character separator: one more field than
    there are separators. *)
Fixpoint split (sep : ascii) (s : string) : list string :=
  match s with
  | EmptyString => [EmptyString]
  | String c r =>
      if Ascii.eqb c sep then EmptyString :: split sep r
      else match split sep r with
           | h :: t => String c h :: t
           | [] => [String c EmptyString]
           end
  end.

Fixpoint endswith (s : string) (c : ascii) : bool :=
  match s with
  | EmptyString => false
  | String a EmptyString => Ascii.eqb a c
  | String _ r => endswith r c
  end.

(** [s.replace(old, new)] for a non-empty [old]: occurrences are replaced
    from left to right and do not overlap; [skip] counts the characters of
    a match still to be dropped. *)
Fixpoint replace_from (old new : string) (skip : nat) (s : string) : string :=
  match s with
  | EmptyString => EmptyString
  | String c r =>
      match skip with
      | S k => replace_from old new k r
      | O =>
          if String.prefix old s
          then new +:+ replace_from old new (String.length old - 1) r
          else String c (replace_from old new O r)
      end
  end.

Definition replace (s old new : string) : string := replace_from old new O s.

(** [s[:n]] *)
Definition take_str (n : nat) (s : string) : string := String.substring 0 n s.

(** [s[n:]] *)
Fixpoint drop_str (n : nat) (s : string) : string :=
  match n, s with
  | S k, String _ r => drop_str k r
  | _, _ => s
  end.

(** [c in s] for a character. *)
Fixpoint char_in (c : ascii) (s : string) : bool :=
  match s with
  | EmptyString => false
  | String a r => Ascii.eqb a c || char_in c r
  end.

(** [s.split(sep, 1)]: the text before the first separator, and the text
    after it when there is one. *)
Fixpoint split_once (sep : ascii) (s : string) : string * option string :=
  match s with
  | EmptyString => (EmptyString, None)
  | String c r =>
      if Ascii.eqb c sep then (EmptyString, Some r)
      else let '(before, after) := split_once sep r in (String c before, after)
  end.

(** The double quote, which the f-strings of the source contain. *)
Definition dq : string := String (ascii_of_nat 34) EmptyString.

(** *** Numbers *)

(** A finite [float] is a binary double; the model names it by a rational:
    a clock reading or a difference by its exact value, a rounded result
    [k/1000] by the decimal it is the nearest double to. *)

(** The quotient [n/d] rounded to the nearest integer, ties to the even
    one. *)
Definition round_half_even (n d : Z) : Z :=
  let q := n / d in
  let r := n mod d in
  if 2 * r <? d then q
  else if d <? 2 * r then q + 1
  else if Z.even q then q else q + 1.

(** [round(x, 3)]: the multiple of 1/1000 nearest to the exact value of
    [x], ties to the even one. *)
Definition round3 (x : Q) : Q :=
  Qmake (round_half_even (Qnum x * 1000) (Zpos (Qden x))) 1000.

(** The integer part of the binary logarithm of [n/d]. *)
Definition ilog2 (n d : positive) : Z :=
  let l := Z.log2 (Zpos n) - Z.log2 (Zpos d) in
  if Zpos d * 2 ^ Z.max 0 l <=? Zpos n * 2 ^ Z.max 0 (- l) then l else l - 1.

(** The double nearest to [n/d], ties to the even significand: 53
    significant bits, and steps of [2^-1074] near zero. *)
Definition nearest (n d : positive) : Q :=
  let e := Z.max (ilog2 n d - 52) (-1074) in
  let m := round_half_even (Zpos n * 2 ^ Z.max 0 (- e)) (Zpos d * 2 ^ Z.max 0 e) in
  Qmake (m * 2 ^ Z.max 0 e) (Z.to_pos (2 ^ Z.max 0 (- e))).

(** The double nearest to [q], by its exact value.  Clock readings and
    their differences stay far below the largest double. *)
Definition double (q : Q) : Q :=
  match Qnum q with
  | 0 => Qmake 0 1
  | Zpos n => nearest n (Qden q)
  | Zneg n => Qopp (nearest n (Qden q))
  end.

(** [x - y] on floats: the exact difference, rounded to a double. *)
Definition fsub (x y : Q) : Q := double (x - y).

(** *** Exceptions: the classes the sources raise or catch.  All of them
    derive from [Exception]; [DriverError] stands for whatever the
    automation driver raises. *)
Inductive exn : Type :=
| Exception (msg : string)
| ValueError (msg : string)
| TypeError (msg : string)
| KeyError (msg : string)
| FileNotFoundError (msg : string)
| OSError (msg : string)
| JSONDecodeError (msg : string)
| UnboundLocalError (msg : string)
| DriverError (msg : string).

(** [str(e)] *)
Definition str_exn (e : exn) : string :=
  match e with
  | Exception m | ValueError m | TypeError m | KeyError m
  | FileNotFoundError m | OSError m | JSONDecodeError m
  | UnboundLocalError m | DriverError m => m
  end.

End Py.
Export Py.

(** ** Running coroutines against a world *)

Module Run.

(** A pool slot: the pair [(index, browser)] the sources put in the queue. *)
Definition slot : Type := nat * nat.

(** The scripts handed to [page.evaluate]. *)
Inductive script : Type :=
| ClickWidget   (* document.querySelector('.cf-turnstile').click() *)
| ReadToken.    (* the value of [name=cf-turnstile-response], or null *)

(** What a coroutine does to the pool and asks of the driver, in order. *)
Inductive event : Type :=
| PoolGet (sl : slot)
| PoolPut (sl : slot)
| PlaywrightStart
| Launch (channel : option string) (headless : bool) (args : list string)
| CamoufoxStart
| NewContext (browser : nat) (proxy : option pydict)
| NewPage (context : nat)
| ContextClose (context : nat)
| PageRoute (url body : string)
| PageGoto (url : string)
| WaitForSelector (selector : string) (timeout : Z)
| LocatorCount (selector : string)
| LocatorClick (selector : string) (timeout : Z)
| PageClick (selector : string) (timeout : Z)
| Evaluate (js : script)
| EvalOnSelector (selector js : string)
| InputValue (selector : string) (timeout : Z)
| Sleep (ms : Z).

(** A text file as [os.path.exists] and [open] find it; [Lines] are the
    lines as iteration over the file yields them. *)
Inductive file : Type :=
| Missing
| Unreadable (e : exn)
| Lines (ls : list string).

(** Everything outside the repository.  Each answer may depend on the
    trace so far. *)
Record world : Type := {
  (** the exception a driver call raises, if it raises *)
  raises : list event -> event -> option exn;
  (** the handle of a launched browser *)
  launched : list event -> nat;
  (** [await locator.count()] *)
  iframe_count : list event -> Z;
  (** the hidden response field as the [ReadToken] script reads it *)
  token_field : list event -> option string;
  (** [await page.input_value(...)] *)
  input_value : list event -> string;
  (** the n-th reading of [time.time()], a double, by its exact value *)
  clock : nat -> Q;
  (** the index drawn by [random.choice] *)
  draw : list event -> nat;
  (** [os.getcwd()] *)
  getcwd : string;
  (** the proxy list at the path the component reads *)
  proxies_txt : file;
  (** [os.environ.get('DISPLAY')] *)
  DISPLAY : option string
}.

(** The mutable part of a process. *)
Record state : Type := {
  browser_pool : list slot;
  ticks : nat;
  trace : list event
}.

Definition log (ev : event) (s : state) : state :=
  {| browser_pool := browser_pool s; ticks := ticks s; trace := trace s ++ [ev] |}.

(** How a coroutine run to completion ends: it returns, an exception
    escapes, or it waits forever. *)
Inductive res (A : Type) : Type :=
| Ret (a : A)
| Raise (e : exn)
| Block.
Arguments Ret {A} a.
Arguments Raise {A} e.
Arguments Block {A}.

Definition M (A : Type) : Type := state -> res A * state.

#[export] Instance M_ret : MRet M := fun A a s => (Ret a, s).

#[export] Instance M_bind : MBind M := fun A B f m s =>
  match m s with
  | (Ret a, s') => f a s'
  | (Raise e, s') => (Raise e, s')
  | (Block, s') => (Block, s')
  end.

Definition raise {A : Type} (e : exn) : M A := fun s => (Raise e, s).

(** [try: body except Exception as e: handler e] *)
Definition try_except {A : Type} (body : M A) (handler : exn -> M A) : M A :=
  fun s =>
    match body s with
    | (Raise e, s') => handler e s'
    | r => r
    end.

(** [for x in xs: body], where [body] answers [Some r] for [return r]. *)
Fixpoint for_each {A : Type} (xs : list nat) (body : nat -> M (option A)) : M (option A) :=
  match xs with
  | [] => mret None
  | x :: rest =>
      r ← body x;
      match r with
      | Some a => mret (Some a)
      | None => for_each rest body
      end
  end.

(** [range(n)] *)
Definition range (n : nat) : list nat := seq 0 n.

(** [await queue.get()] on an [asyncio.Queue()]: first in, first out; an
    empty queue never answers a lone coroutine. *)
Definition pool_get : M slot := fun s =>
  match browser_pool s with
  | [] => (Block, s)
  | sl :: rest =>
      (Ret sl, log (PoolGet sl)
                 {| browser_pool := rest; ticks := ticks s; trace := trace s |})
  end.

(** [await queue.put(sl)]: the queue is unbounded. *)
Definition pool_put (sl : slot) : M unit := fun s =>
  (Ret tt, log (PoolPut sl)
             {| browser_pool := browser_pool s ++ [sl]; ticks := ticks s; trace := trace s |}).

(** A driver call without a result. *)
Definition call (w : world) (ev : event) : M unit := fun s =>
  match raises w (trace s) ev with
  | Some e => (Raise e, log ev s)
  | None => (Ret tt, log ev s)
  end.

(** A driver call whose result the world reads off the trace before it. *)
Definition ask {A : Type} (w : world) (ev : event) (answer : list event -> A) : M A := fun s =>
  match raises w (trace s) ev with
  | Some e => (Raise e, log ev s)
  | None => (Ret (answer (trace s)), log ev s)
  end.

(** [await asyncio.sleep(ms / 1000)] *)
Definition sleep (ms : Z) : M unit := fun s => (Ret tt, log (Sleep ms) s).

(** [time.time()] *)
Definition time_time (w : world) : M Q := fun s =>
  (Ret (clock w (ticks s)),
   {| browser_pool := browser_pool s; ticks := S (ticks s); trace := trace s |}).

(** [random.choice(xs) if xs else None] *)
Definition random_choice (w : world) (xs : list string) : M (option string) := fun s =>
  (Ret (match xs with
        | [] => None
        | x :: _ => Some (nth (draw w (trace s) mod length xs)%nat xs x)
        end), s).

(** [open(path)] followed by reading the lines. *)
Definition read_lines (w : world) (path : string) : M (list string) :=
  match proxies_txt w with
  | Missing =>
      raise (FileNotFoundError ("[Errno 2] No such file or directory: '" +:+ path +:+ "'"))
  | Unreadable e => raise e
  | Lines ls => mret ls
  end.

(** [os.path.join(os.getcwd(), name)] *)
Definition in_cwd (w : world) (name : string) : string := getcwd w +:+ "/" +:+ name.

(** [[line.strip() for line in f if line.strip()]] *)
Definition stripped_lines (ls : list string) : list string :=
  List.map strip (List.filter (fun line => truthy_str (strip line)) ls).

(** [await browser.new_context(proxy=...)]; the context is named by the
    position of its creation in the trace. *)
Definition new_context (w : world) (browser : nat) (proxy : option pydict) : M nat := fun s =>
  ask w (NewContext browser proxy) (fun h => length h) s.

Definition new_page (w : world) (context : nat) : M nat :=
  call w (NewPage context) ;; mret context.

Definition context_close (w : world) (context : nat) : M unit :=
  call w (ContextClose context).

End Run.
Export Run.

(** ** [src/utils/turnstile.py]: the solver core

    Calls of [self._logger] have no effect on the pool, the driver or the
    result and are left out. *)

Module Solver.

(** The fields [__init__] sets; [useragent] is the agent it settled on.
    The class constant [HTML_TEMPLATE] is carried as a field. *)
Record TurnstileSolver : Type := {
  HTML_TEMPLATE : string;
  headless : bool;
  thread_count : nat;
  browser_type : string;
  proxy_support : bool;
  useragent : string
}.

(** [self.browser_args] as [__init__] builds it. *)
Definition browser_args (self : TurnstileSolver) : list string :=
  (if truthy_str (useragent self) then ["--user-agent=" +:+ useragent self] else [])
  ++ ["--no-sandbox"; "--disable-dev-shm-usage"; "--disable-gpu";
      "--disable-blink-features=AutomationControlled"; "--disable-web-security";
      "--disable-features=IsolateOrigins,site-per-process"]
  ++ (if headless self then ["--headless=new"] else []).

(** [browser_type in ['chromium', 'chrome', 'msedge']] *)
Definition chromium_family (bt : string) : bool :=
  String.eqb bt "chromium" || String.eqb bt "chrome" || String.eqb bt "msedge".

Definition _create_browser (self : TurnstileSolver) (w : world) (index : nat) : M nat :=
  try_except
    (if chromium_family (browser_type self) then
       ask w (Launch (if String.eqb (browser_type self) "chromium" then None
                      else Some (browser_type self))
                     (headless self) (browser_args self)) (launched w)
     else if String.eqb (browser_type self) "camoufox" then
       ask w CamoufoxStart (launched w)
     else raise (UnboundLocalError
             "cannot access local variable 'browser' where it is not associated with a value"))
    (fun e =>
       if chromium_family (browser_type self) then
         ask w (Launch None true ["--no-sandbox"; "--disable-dev-shm-usage"]) (launched w)
       else raise e).

Definition initialize (self : TurnstileSolver) (w : world) : M bool :=
  (if chromium_family (browser_type self) then call w PlaywrightStart
   else if String.eqb (browser_type self) "camoufox" then mret tt
   else raise (ValueError ("Unsupported browser type: " +:+ browser_type self))) ;;
  for_each (range (thread_count self)) (fun i =>
    browser ← _create_browser self w (i + 1)%nat;
    pool_put ((i + 1)%nat, browser) ;;
    mret (None : option unit)) ;;
  mret true.

Definition _setup_context (self : TurnstileSolver) (w : world) (browser : nat) : M nat :=
  if negb (proxy_support self) then new_context w browser None
  else
    let proxy_file_path := in_cwd w "data/proxies.txt" in
    match proxies_txt w with
    | Missing => new_context w browser None
    | _ =>
        lines ← read_lines w proxy_file_path;
        let proxies := stripped_lines lines in
        proxy ← random_choice w proxies;
        if truthy proxy then
          let proxy := default "" proxy in
          let parts := split ":" proxy in
          if (length parts =? 3)%nat then
            new_context w browser (Some {[ "server" := PStr proxy ]})
          else if (length parts =? 5)%nat then
            let proxy_scheme := nth 0 parts "" in
            let proxy_ip := nth 1 parts "" in
            let proxy_port := nth 2 parts "" in
            let proxy_user := nth 3 parts "" in
            let proxy_pass := nth 4 parts "" in
            new_context w browser
              (Some {[ "server" := PStr (proxy_scheme +:+ "://" +:+ proxy_ip +:+ ":" +:+ proxy_port);
                       "username" := PStr proxy_user;
                       "password" := PStr proxy_pass ]})
          else new_context w browser None
        else new_context w browser None
    end.

(** One round of the polling loop of [_solve_on_page]. *)
Definition poll_once (w : world) (start_time : Q) (attempt : nat) : M (option pydict) :=
  try_except
    (token ← ask w (Evaluate ReadToken) (token_field w);
     if truthy token && truthy_str (strip (default "" token)) then
       now ← time_time w;
       let elapsed_time := round3 (fsub now start_time) in
       mret (Some ({[ "status" := PStr "success";
                      "token" := PStr (default "" token);
                      "time" := PFloat elapsed_time ]} : pydict))
     else
       sleep 1000 ;;
       (if (attempt mod 5 =? 0)%nat then
          try_except (call w (PageClick ".cf-turnstile" 1000)) (fun _ => mret tt)
        else mret tt) ;;
       mret None)
    (fun e =>
       if (attempt <? 29)%nat then sleep 1000 ;; mret None
       else mret None).

Definition _solve_on_page (self : TurnstileSolver) (w : world) (page : nat)
    (url sitekey : string) (action cdata : option string) (start_time : Q) : M pydict :=
  let turnstile_div :=
    "<div class=" +:+ dq +:+ "cf-turnstile" +:+ dq +:+ " data-sitekey=" +:+ dq +:+ sitekey +:+ dq in
  let turnstile_div :=
    if truthy action
    then turnstile_div +:+ " data-action=" +:+ dq +:+ default "" action +:+ dq
    else turnstile_div in
  let turnstile_div :=
    if truthy cdata
    then turnstile_div +:+ " data-cdata=" +:+ dq +:+ default "" cdata +:+ dq
    else turnstile_div in
  let turnstile_div :=
    turnstile_div +:+ " style=" +:+ dq +:+ "transform: scale(1.2);" +:+ dq +:+ "></div>" in
  let page_data :=
    replace (HTML_TEMPLATE self) "<!-- Turnstile will be inserted here -->" turnstile_div in
  let url_with_slash := if negb (endswith url "/") then url +:+ "/" else url in
  call w (PageRoute url_with_slash page_data) ;;
  call w (PageGoto url_with_slash) ;;
  try_except (call w (WaitForSelector ".cf-turnstile" 10000))
    (fun _ => raise (Exception "Turnstile failed to load")) ;;
  sleep 2000 ;;
  try_except
    (n ← ask w (LocatorCount "iframe[title*='cloudflare']") (iframe_count w);
     if 0 <? n then call w (LocatorClick "iframe[title*='cloudflare']" 2000)
     else call w (PageClick ".cf-turnstile" 2000))
    (fun _ => call w (Evaluate ClickWidget)) ;;
  found ← for_each (range 30) (poll_once w start_time);
  match found with
  | Some result => mret result
  | None => raise (Exception "Failed to get Turnstile token after 30 attempts")
  end.

Definition solve (self : TurnstileSolver) (w : world)
    (url sitekey action cdata : option string) : M pydict :=
  if negb (truthy url) || negb (truthy sitekey) then
    mret ({[ "status" := PStr "error";
             "error" := PStr "Both 'url' and 'sitekey' are required" ]} : pydict)
  else
    start_time ← time_time w;
    '(index, browser) ← pool_get;
    try_except
      (context ← _setup_context self w browser;
       page ← new_page w context;
       result ← _solve_on_page self w page (default "" url) (default "" sitekey)
                  action cdata start_time;
       context_close w context ;;
       pool_put (index, browser) ;;
       mret result)
      (fun e =>
         now ← time_time w;
         let elapsed_time := round3 (fsub now start_time) in
         pool_put (index, browser) ;;
         mret ({[ "status" := PStr "error";
                  "error" := PStr (str_exn e);
                  "time" := PFloat elapsed_time ]} : pydict)).

(** [self._has_display()] *)
Definition _has_display (w : world) : bool := truthy (DISPLAY w).

Definition get_status (self : TurnstileSolver) (w : world) (s : state) : pydict :=
  {[ "initialized" := PBool (negb (bool_decide (browser_pool s = [])));
     "thread_count" := PInt (Z.of_nat (thread_count self));
     "browser_type" := PStr (browser_type self);
     "headless" := PBool (headless self);
     "has_display" := PBool (_has_display w);
     "user_agent" := PStr (if (50 <? String.length (useragent self))%nat
                           then take_str 50 (useragent self) +:+ "..."
                           else useragent self);
     "pool_size" := PInt (Z.of_nat (length (browser_pool s))) ]}.

End Solver.

(** ** [src/backup.py]: the legacy standalone server *)

Module Legacy.

Record TurnstileAPIServer : Type := {
  HTML_TEMPLATE : string;
  browser_type : string;
  headless : bool;
  useragent : option string;
  thread_count : Z;
  proxy_support : bool
}.

Definition browser_args (self : TurnstileAPIServer) : list string :=
  if truthy (useragent self) then ["--user-agent=" +:+ default "" (useragent self)] else [].

(** [range(self.thread_count)] is empty for a count below 1. *)
Definition _initialize_browser (self : TurnstileAPIServer) (w : world) : M unit :=
  (if Solver.chromium_family (browser_type self) then call w PlaywrightStart else mret tt) ;;
  for_each (range (Z.to_nat (thread_count self))) (fun i =>
    browser ←
      (if Solver.chromium_family (browser_type self) then
         ask w (Launch (Some (browser_type self)) (headless self) (browser_args self)) (launched w)
       else if String.eqb (browser_type self) "camoufox" then
         ask w CamoufoxStart (launched w)
       else raise (UnboundLocalError
             "cannot access local variable 'browser' where it is not associated with a value"));
    pool_put ((i + 1)%nat, browser) ;;
    mret (None : option unit)) ;;
  mret tt.

(** The statements of [_solve_turnstile] between taking the slot and
    [page = await context.new_page()]: they choose the proxy and create
    the context, outside the [try]. *)
Definition open_context (self : TurnstileAPIServer) (w : world) (browser : nat) : M nat :=
  if proxy_support self then
    let proxy_file_path := in_cwd w "proxies.txt" in
    lines ← read_lines w proxy_file_path;
    let proxies := stripped_lines lines in
    proxy ← random_choice w proxies;
    if truthy proxy then
      let proxy := default "" proxy in
      let parts := split ":" proxy in
      if (length parts =? 3)%nat then
        new_context w browser (Some {[ "server" := PStr proxy ]})
      else if (length parts =? 5)%nat then
        let proxy_scheme := nth 0 parts "" in
        let proxy_ip := nth 1 parts "" in
        let proxy_port := nth 2 parts "" in
        let proxy_user := nth 3 parts "" in
        let proxy_pass := nth 4 parts "" in
        new_context w browser
          (Some {[ "server" := PStr (proxy_scheme +:+ "://" +:+ proxy_ip +:+ ":" +:+ proxy_port);
                   "username" := PStr proxy_user;
                   "password" := PStr proxy_pass ]})
      else raise (ValueError "Invalid proxy format")
    else new_context w browser None
  else new_context w browser None.

(** One round of the polling loop. *)
Definition poll_once (w : world) (context : nat) (sl : slot) (start_time : Q)
    (attempt : nat) : M (option pydict) :=
  try_except
    (turnstile_check ← ask w (InputValue "[name=cf-turnstile-response]" 2000) (input_value w);
     if String.eqb turnstile_check "" then
       call w (LocatorClick "//div[@class='cf-turnstile']" 1000) ;;
       sleep 500 ;;
       mret None
     else
       now ← time_time w;
       let elapsed_time := round3 (fsub now start_time) in
       context_close w context ;;
       pool_put sl ;;
       mret (Some ({[ "status" := PStr "success";
                      "token" := PStr turnstile_check;
                      "time" := PFloat elapsed_time ]} : pydict)))
    (fun _ =>
       if (attempt <? 14)%nat then sleep 500 ;; mret None
       else raise (Exception "Failed to get Turnstile token after 15 attempts")).

(** The body of the [try] of [_solve_turnstile]. *)
Definition attempt_body (self : TurnstileAPIServer) (w : world) (context : nat) (sl : slot)
    (url sitekey : string) (action cdata : option string) (start_time : Q) : M pydict :=
  let url_with_slash := if negb (endswith url "/") then url +:+ "/" else url in
  let turnstile_div :=
    "<div class=" +:+ dq +:+ "cf-turnstile" +:+ dq +:+ " style=" +:+ dq +:+ "background: white;"
    +:+ dq +:+ " data-sitekey=" +:+ dq +:+ sitekey +:+ dq
    +:+ (if truthy action then " data-action=" +:+ dq +:+ default "" action +:+ dq else "")
    +:+ (if truthy cdata then " data-cdata=" +:+ dq +:+ default "" cdata +:+ dq else "")
    +:+ "></div>" in
  let page_data := replace (HTML_TEMPLATE self) "<!-- cf turnstile -->" turnstile_div in
  call w (PageRoute url_with_slash page_data) ;;
  call w (PageGoto url_with_slash) ;;
  call w (EvalOnSelector "//div[@class='cf-turnstile']" "el => el.style.width = '70px'") ;;
  found ← for_each (range 15) (poll_once w context sl start_time);
  match found with
  | Some result => mret result
  | None => raise (Exception "Failed to get Turnstile token after 15 attempts")
  end.

(** The outer [except Exception as e] clause of [_solve_turnstile]. *)
Definition outer_handler (w : world) (context : nat) (sl : slot) (start_time : Q)
    (e : exn) : M pydict :=
  now ← time_time w;
  let elapsed_time := round3 (fsub now start_time) in
  context_close w context ;;
  pool_put sl ;;
  mret ({[ "status" := PStr "error";
           "error" := PStr (str_exn e);
           "time" := PFloat elapsed_time ]} : pydict).

Definition _solve_turnstile (self : TurnstileAPIServer) (w : world)
    (url sitekey : string) (action cdata : option string) : M pydict :=
  '(index, browser) ← pool_get;
  context ← open_context self w browser;
  page ← new_page w context;
  start_time ← time_time w;
  try_except
    (attempt_body self w context (index, browser) url sitekey action cdata start_time)
    (outer_handler w context (index, browser) start_time).

(** A response of the server: the JSON body and the HTTP status. *)
Definition response : Type := pydict * Z.

(** [args] is [request.args]. *)
Definition process_turnstile (self : TurnstileAPIServer) (w : world)
    (args : gmap string string) : M response :=
  let url := args !! "url" in
  let sitekey := args !! "sitekey" in
  let action := args !! "action" in
  let cdata := args !! "cdata" in
  if negb (truthy url) || negb (truthy sitekey) then
    mret (({[ "status" := PStr "error";
              "error" := PStr "Both 'url' and 'sitekey' are required" ]} : pydict), 400)
  else
    try_except
      (result ← _solve_turnstile self w (default "" url) (default "" sitekey) action cdata;
       match result !! "status" with
       | Some status => mret (result, if eq_str status "success" then 200 else 422)
       | None => raise (KeyError "'status'")
       end)
      (fun e =>
         mret (({[ "status" := PStr "error"; "error" := PStr (str_exn e) ]} : pydict), 500)).

(** *** The launcher *)

(** [argparse.Namespace] of [parse_args]. *)
Record Namespace : Type := {
  ns_headless : bool;
  ns_useragent : option string;
  ns_browser_type : string;
  ns_thread : Z;
  ns_proxy : bool;
  ns_host : string;
  ns_port : string
}.

Definition is_digit (c : ascii) : bool :=
  let n := nat_of_ascii c in (48 <=? n)%nat && (n <=? 57)%nat.

(** The digits of an [int] literal: single underscores between digits. *)
Fixpoint digits_value (acc : Z) (after_digit : bool) (s : string) : option Z :=
  match s with
  | EmptyString => if after_digit then Some acc else None
  | String c r =>
      if is_digit c then digits_value (acc * 10 + Z.of_nat (nat_of_ascii c - 48)) true r
      else if Ascii.eqb c "_" && after_digit then
        match r with
        | EmptyString => None
        | _ => digits_value acc false r
        end
      else None
  end.

(** White space as [int] skips it around the literal: the [isspace] of C,
    and the two Unicode spaces below 256, which [int] turns into blanks
    first.  The separators 28..31 are not among them. *)
Definition int_isspace (c : ascii) : bool :=
  let n := nat_of_ascii c in
  ((9 <=? n)%nat && (n <=? 13)%nat) || (n =? 32)%nat || (n =? 133)%nat || (n =? 160)%nat.

Fixpoint int_lstrip (s : string) : string :=
  match s with
  | EmptyString => EmptyString
  | String c r => if int_isspace c then int_lstrip r else s
  end.

Fixpoint int_rstrip (s : string) : string :=
  match s with
  | EmptyString => EmptyString
  | String c r =>
      match int_rstrip r with
      | EmptyString => if int_isspace c then EmptyString else String c EmptyString
      | r' => String c r'
      end
  end.

Fixpoint count_digits (s : string) : nat :=
  match s with
  | EmptyString => O
  | String c r => ((if is_digit c then 1 else 0) + count_digits r)%nat
  end.

(** The interpreter's default limit on the digits of a decimal literal
    handed to [int]. *)
Definition int_max_str_digits : nat := 4300.

(** [int(s)]; [None] is [ValueError]. *)
Definition int_of_str (s : string) : option Z :=
  let literal (r : string) : option Z :=
    if (count_digits r <=? int_max_str_digits)%nat then digits_value 0 false r else None in
  match int_rstrip (int_lstrip s) with
  | String "-" r => Z.opp <$> literal r
  | String "+" r => literal r
  | r => literal r
  end.

(** The defaults of the seven [add_argument] calls. *)
Definition defaults : Namespace :=
  {| ns_headless := false; ns_useragent := None; ns_browser_type := "chromium";
     ns_thread := 1; ns_proxy := false; ns_host := "127.0.0.1"; ns_port := "5000" |}.

(** The [store] action for one occurrence of an option, named by its full
    option string: [argparse] hands the argument string to the option's
    [type] and stores the result; [None] is a usage error, on which it
    exits. *)
Definition store (ns : Namespace) (occ : string * string) : option Namespace :=
  let '(flag, arg) := occ in
  if String.eqb flag "--headless" then
    Some {| ns_headless := bool_of_str arg; ns_useragent := ns_useragent ns;
            ns_browser_type := ns_browser_type ns; ns_thread := ns_thread ns;
            ns_proxy := ns_proxy ns; ns_host := ns_host ns; ns_port := ns_port ns |}
  else if String.eqb flag "--useragent" then
    Some {| ns_headless := ns_headless ns; ns_useragent := Some arg;
            ns_browser_type := ns_browser_type ns; ns_thread := ns_thread ns;
            ns_proxy := ns_proxy ns; ns_host := ns_host ns; ns_port := ns_port ns |}
  else if String.eqb flag "--browser_type" then
    Some {| ns_headless := ns_headless ns; ns_useragent := ns_useragent ns;
            ns_browser_type := arg; ns_thread := ns_thread ns;
            ns_proxy := ns_proxy ns; ns_host := ns_host ns; ns_port := ns_port ns |}
  else if String.eqb flag "--thread" then
    n ← int_of_str arg;
    Some {| ns_headless := ns_headless ns; ns_useragent := ns_useragent ns;
            ns_browser_type := ns_browser_type ns; ns_thread := n;
            ns_proxy := ns_proxy ns; ns_host := ns_host ns; ns_port := ns_port ns |}
  else if String.eqb flag "--proxy" then
    Some {| ns_headless := ns_headless ns; ns_useragent := ns_useragent ns;
            ns_browser_type := ns_browser_type ns; ns_thread := ns_thread ns;
            ns_proxy := bool_of_str arg; ns_host := ns_host ns; ns_port := ns_port ns |}
  else if String.eqb flag "--host" then
    Some {| ns_headless := ns_headless ns; ns_useragent := ns_useragent ns;
            ns_browser_type := ns_browser_type ns; ns_thread := ns_thread ns;
            ns_proxy := ns_proxy ns; ns_host := arg; ns_port := ns_port ns |}
  else if String.eqb flag "--port" then
    Some {| ns_headless := ns_headless ns; ns_useragent := ns_useragent ns;
            ns_browser_type := ns_browser_type ns; ns_thread := ns_thread ns;
            ns_proxy := ns_proxy ns; ns_host := ns_host ns; ns_port := arg |}
  else None.

(** The option strings of the parser: [-h] and [--help], which
    [ArgumentParser] adds, and the seven declared ones. *)
Definition option_strings : list string :=
  ["-h"; "--help"; "--headless"; "--useragent"; "--browser_type"; "--thread"; "--proxy";
   "--host"; "--port"].

Definition is_help (option_string : string) : bool :=
  String.eqb option_string "-h" || String.eqb option_string "--help".

(** [_get_option_tuples]: the option strings a word may abbreviate, each
    with the explicit argument the word carries for it.  A word that
    begins with two dashes is cut at its first [=] and stands for every
    option string it is a prefix of. *)
Definition _get_option_tuples (option_string : string) : list (string * option string) :=
  if String.prefix "--" option_string then
    let '(option_prefix, explicit_arg) := split_once "=" option_string in
    List.map (fun o => (o, explicit_arg))
      (List.filter (String.prefix option_prefix) option_strings)
  else
    let option_prefix := option_string in
    let short_option_prefix := take_str 2 option_string in
    let short_explicit_arg := drop_str 2 option_string in
    omap (fun o =>
            if String.eqb o short_option_prefix then Some (o, Some short_explicit_arg)
            else if String.prefix option_prefix o then Some (o, None)
            else None)
         option_strings.

(** [_negative_number_matcher.match]: the pattern [^-\d+$|^-\d*\.\d+$],
    whose [$] also matches before a line feed that ends the word. *)
Definition negative_number (arg_string : string) : bool :=
  let digits (s : string) := forallb is_digit (list_ascii_of_string s) in
  let digits1 (s : string) := negb (String.eqb s "") && digits s in
  let nl := String (ascii_of_nat 10) EmptyString in
  match arg_string with
  | String "-" r =>
      let n := String.length r in
      let r := if String.eqb (drop_str (n - 1) r) nl then take_str (n - 1) r else r in
      digits1 r
      || match split_once "." r with
         | (whole, Some fraction) => digits whole && digits1 fraction
         | _ => false
         end
  | _ => false
  end.

(** How [_parse_optional] reads one word of the command line. *)
Inductive parsed : Type :=
| Argument                                  (* [None]: an argument *)
| Optional (option_string : string) (explicit_arg : option string)
| Unknown                                   (* an option the parser lacks *)
| Ambiguous.                                (* several options match: a usage error *)

Definition _parse_optional (arg_string : string) : parsed :=
  if String.eqb arg_string "" then Argument
  else if negb (String.prefix "-" arg_string) then Argument
  else if existsb (String.eqb arg_string) option_strings then Optional arg_string None
  else if (String.length arg_string =? 1)%nat then Argument
  else
    match
      (match split_once "=" arg_string with
       | (option_string, Some explicit_arg) =>
           if existsb (String.eqb option_string) option_strings
           then Some (option_string, explicit_arg) else None
       | _ => None
       end)
    with
    | Some (option_string, explicit_arg) => Optional option_string (Some explicit_arg)
    | None =>
        match _get_option_tuples arg_string with
        | _ :: _ :: _ => Ambiguous
        | [(option_string, explicit_arg)] => Optional option_string explicit_arg
        | [] =>
            if negative_number arg_string then Argument
            else if char_in " " arg_string then Argument
            else Unknown
        end
    end.

(** A word that may serve as the argument of the option before it. *)
Definition is_argument (arg_string : string) : bool :=
  negb (String.eqb arg_string "--")
  && match _parse_optional arg_string with
     | Argument => true
     | _ => false
     end.

(** [_parse_known_args] for this parser, as of CPython 3.11: the options
    of the command line in order, each under its full option string and
    with its argument string.  Every option takes exactly one argument,
    given after [=] in the same word or as the next word, which then has
    to read as an argument.  There are no positional arguments, so a word
    that is left over ([--] included) ends in "unrecognized arguments";
    [-h] and [--help] print the help and exit.  [None] is any of these
    exits. *)
Fixpoint occurrences (arg_strings : list string) : option (list (string * string)) :=
  match arg_strings with
  | [] => Some []
  | arg_string :: rest =>
      if String.eqb arg_string "--" then None
      else
        match _parse_optional arg_string with
        | Optional option_string (Some explicit_arg) =>
            if is_help option_string then None
            else occs ← occurrences rest; Some ((option_string, explicit_arg) :: occs)
        | Optional option_string None =>
            if is_help option_string then None
            else
              match rest with
              | arg :: rest' =>
                  if is_argument arg
                  then occs ← occurrences rest'; Some ((option_string, arg) :: occs)
                  else None
              | [] => None
              end
        | _ => None
        end
  end.

(** The actions taken for the options found, from left to right. *)
Definition take_actions (occs : list (string * string)) : option Namespace :=
  foldl (fun acc occ => ns ← acc; store ns occ) (Some defaults) occs.

(** [parse_args()] on the command line [argv], the words after the
    program name. *)
Definition parse_args (argv : list string) : option Namespace :=
  occs ← occurrences argv;
  take_actions occs.

End Legacy.

(** ** [src/app.py]: the primary host

    Calls of [print] are left out. *)

Module App.

(** What [open(CONFIG_PATH)] and [json.load] make of [data/config.json]. *)
Inductive config_file : Type :=
| Absent                    (* [open] raises [FileNotFoundError] *)
| OpenFails (e : exn)       (* [open] raises another exception *)
| LoadFails (e : exn)       (* [json.load] raises *)
| Loaded (config : pyval).  (* [json.load] returns [config] *)

Definition default_api : pydict :=
  {[ "enabled" := PBool false; "host" := PStr "0.0.0.0"; "port" := PInt 8000 ]}.

Definition default_config : pydict :=
  {[ "headless" := PBool true;
     "thread" := PInt 2;
     "browser_type" := PStr "chromium";
     "proxy_support" := PBool false;
     "api" := PDict default_api ]}.

Definition open_and_load (f : config_file) : M pyval :=
  match f with
  | Absent => raise (FileNotFoundError "[Errno 2] No such file or directory: 'data/config.json'")
  | OpenFails e => raise e
  | LoadFails e => raise e
  | Loaded config => mret config
  end.

(** [**v] inside a dictionary display: [v] has to be a mapping. *)
Definition unpack (v : pyval) : M pydict :=
  match v with
  | PDict d => mret d
  | _ => raise (TypeError "object is not a mapping")
  end.

(** [{**a, **b}]: the items of [b] win. *)
Definition spread (a b : pydict) : pydict := b ∪ a.

Definition load_config (f : config_file) : M pydict :=
  try_except
    (config ← open_and_load f;
     top ← unpack config;
     let merged := spread default_config top in
     match top !! "api" with
     | Some api =>
         sub ← unpack api;
         mret (<["api" := PDict (spread default_api sub)]> merged)
     | None => mret merged
     end)
    (fun e =>
       match e with
       | FileNotFoundError _ => mret default_config
       | _ => mret default_config
       end).

(** [solver] is the module-level variable: [None] until [lifespan] has
    constructed the solver; [s] holds its pool. *)
Definition health_check (solver : option Solver.TurnstileSolver) (w : world) (s : state) : pydict :=
  match solver with
  | None => {[ "status" := PStr "down"; "message" := PStr "Solver not initialized" ]}
  | Some self =>
      let status := Solver.get_status self w s in
      match status !! "initialized" with
      | Some (PBool true) =>
          {[ "status" := PStr "up"; "pool_size" := default PNone (status !! "pool_size") ]}
      | _ => {[ "status" := PStr "down"; "message" := PStr "Solver pool empty" ]}
      end
  end.

End App.

(** ** [src/utils/turnstile.py]: constructing the solver *)

Module SolverInit.

(** The three agents [_get_random_user_agent] falls back to. *)
Definition chrome_windows : string :=
  "Mozilla/5.0 (Windows NT 10.0; Win64; x64) AppleWebKit/537.36 (KHTML, like Gecko) Chrome/120.0.0.0 Safari/537.36".

Definition chrome_linux : string :=
  "Mozilla/5.0 (X11; Linux x86_64) AppleWebKit/537.36 (KHTML, like Gecko) Chrome/120.0.0.0 Safari/537.36".

Definition firefox_windows : string :=
  "Mozilla/5.0 (Windows NT 10.0; Win64; x64; rv:120.0) Gecko/20100101 Firefox/120.0".

Definition fallback_user_agents : list string :=
  [chrome_windows; chrome_linux; firefox_windows].

(** [line.startswith('#')] *)
Definition startswith (s : string) (c : ascii) : bool :=
  match s with
  | String a _ => Ascii.eqb a c
  | EmptyString => false
  end.

(** [[line.strip() for line in f if line.strip() and not line.startswith('#')]] *)
Definition agent_lines (ls : list string) : list string :=
  List.map strip
    (List.filter (fun line => truthy_str (strip line) && negb (startswith line "#")) ls).

(** [random.choice(xs)] on a list known to hold [x]. *)
Definition choice (w : world) (x : string) (xs : list string) : M string :=
  drawn ← random_choice w (x :: xs);
  mret (default x drawn).

(** [open(path)] and the lines of the file [f] found there. *)
Definition read_file (f : file) (path : string) : M (list string) :=
  match f with
  | Missing =>
      raise (FileNotFoundError ("[Errno 2] No such file or directory: '" +:+ path +:+ "'"))
  | Unreadable e => raise e
  | Lines ls => mret ls
  end.

(** [user_agents_txt] is [data/user-agents.txt] as the process finds it;
    the two fall-back draws are [random.choice(fallback_user_agents)]. *)
Definition _get_random_user_agent (w : world) (user_agents_txt : file) : M string :=
  let user_agents_path := "data/user-agents.txt" in
  try_except
    (selected ←
       match user_agents_txt with
       | Missing => mret None
       | _ =>
           lines ← read_file user_agents_txt user_agents_path;
           let user_agents := agent_lines lines in
           match user_agents with
           | x :: xs => selected_ua ← choice w x xs; mret (Some selected_ua)
           | [] => mret None
           end
       end;
     match selected with
     | Some selected_ua => mret selected_ua
     | None => choice w chrome_windows [chrome_linux; firefox_windows]
     end)
    (fun e => choice w chrome_windows [chrome_linux; firefox_windows]).

(** [self.browser_pool = asyncio.Queue()]: the instance starts with a
    queue of its own, which is empty. *)
Definition new_queue : M unit := fun s =>
  (Ret tt, {| browser_pool := []; ticks := ticks s; trace := trace s |}).

(** [TurnstileSolver(headless, thread, browser_type, proxy_support,
    useragent)]: the fields, with the agent given or drawn. *)
Definition __init__ (template : string) (w : world) (user_agents_txt : file)
    (headless : bool) (thread : nat) (browser_type : string) (proxy_support : bool)
    (useragent : option string) : M Solver.TurnstileSolver :=
  ua ← (if truthy useragent then mret (default "" useragent)
        else _get_random_user_agent w user_agents_txt);
  new_queue ;;
  mret {| Solver.HTML_TEMPLATE := template;
          Solver.headless := headless;
          Solver.thread_count := thread;
          Solver.browser_type := browser_type;
          Solver.proxy_support := proxy_support;
          Solver.useragent := ua |}.

End SolverInit.

(** ** [src/backup.py]: the launcher's main block *)

Module Launcher.

(** [sub in s] for strings. *)
Fixpoint contains (sub s : string) : bool :=
  String.prefix sub s
  || match s with
     | EmptyString => false
     | String _ r => contains sub r
     end.

(** What the main block does with the parsed arguments: it logs an error
    and ends, or it runs the application. *)
Inductive launch : Type :=
| LogError (message : string)
| AppRun (server : Legacy.TurnstileAPIServer) (host : string) (port : Z).

Definition browser_types : list string := ["chromium"; "chrome"; "msedge"; "camoufox"].

(** The fields [TurnstileAPIServer.__init__] sets. *)
Definition server_fields (template : string) (headless : bool) (useragent : option string)
    (browser_type : string) (thread : Z) (proxy_support : bool) : Legacy.TurnstileAPIServer :=
  {| Legacy.HTML_TEMPLATE := template;
     Legacy.browser_type := browser_type;
     Legacy.headless := headless;
     Legacy.useragent := useragent;
     Legacy.thread_count := thread;
     Legacy.proxy_support := proxy_support |}.

(** [TurnstileAPIServer(headless, useragent, browser_type, thread,
    proxy_support)], with its own empty queue. *)
Definition __init__ (template : string) (headless : bool) (useragent : option string)
    (browser_type : string) (thread : Z) (proxy_support : bool)
    : M Legacy.TurnstileAPIServer :=
  SolverInit.new_queue ;;
  mret (server_fields template headless useragent browser_type thread proxy_support).

(** [create_app(...)]: the server behind the application it returns. *)
Definition create_app (template : string) (headless : bool) (useragent : option string)
    (browser_type : string) (thread : Z) (proxy_support : bool)
    : M Legacy.TurnstileAPIServer :=
  __init__ template headless useragent browser_type thread proxy_support.

(** The statements under [if __name__ == '__main__'], after [parse_args]. *)
Definition main (template : string) (args : Legacy.Namespace) : M launch :=
  if negb (existsb (String.eqb (Legacy.ns_browser_type args)) browser_types) then
    mret (LogError ("Unknown browser type: " +:+ Legacy.ns_browser_type args))
  else if Legacy.ns_headless args
          && negb (bool_decide (is_Some (Legacy.ns_useragent args)))
          && negb (contains "camoufox" (Legacy.ns_browser_type args)) then
    mret (LogError "You must specify a User-Agent for Turnstile Solver or use camoufox")
  else
    app ← create_app template (Legacy.ns_headless args) (Legacy.ns_useragent args)
            (Legacy.ns_browser_type args) (Legacy.ns_thread args) (Legacy.ns_proxy args);
    match Legacy.int_of_str (Legacy.ns_port args) with
    | Some port => mret (AppRun app (Legacy.ns_host args) port)
    | None =>
        raise (ValueError ("invalid literal for int() with base 10: '"
                           +:+ Legacy.ns_port args +:+ "'"))
    end.

End Launcher.

(** ** [src/app.py]: the endpoints and the dispatch *)

Module Host.

(** What an endpoint hands to the framework: a JSON body, answered with
    200, or an [HTTPException]. *)
Inductive http : Type :=
| Json (content : pydict)
| HTTPException (status_code : Z) (detail : string).

(** [TurnstileRequest] *)
Record TurnstileRequest : Type := {
  url : string;
  sitekey : string;
  action : option string;
  cdata : option string
}.

(** [GET /status] *)
Definition get_status (solver : option Solver.TurnstileSolver) (w : world) (s : state) : http :=
  match solver with
  | None => HTTPException 503 "Solver not initialized"
  | Some self => Json (Solver.get_status self w s)
  end.

(** [GET /api/solve] *)
Definition solve_get (solver : option Solver.TurnstileSolver) (w : world)
    (url sitekey : string) (action cdata : option string) : M http :=
  match solver with
  | None => mret (HTTPException 503 "Solver not initialized")
  | Some self =>
      try_except
        (result ← Solver.solve self w (Some url) (Some sitekey) action cdata;
         mret (Json result))
        (fun e => mret (HTTPException 500 (str_exn e)))
  end.

(** [POST /api/solve] *)
Definition solve_post (solver : option Solver.TurnstileSolver) (w : world)
    (request : TurnstileRequest) : M http :=
  match solver with
  | None => mret (HTTPException 503 "Solver not initialized")
  | Some self =>
      try_except
        (result ← Solver.solve self w (Some (url request)) (Some (sitekey request))
                    (action request) (cdata request);
         mret (Json result))
        (fun e => mret (HTTPException 500 (str_exn e)))
  end.

(** Truth value of a Python value. *)
Definition truthy_val (v : pyval) : bool :=
  match v with
  | PNone => false
  | PBool b => b
  | PInt n => negb (n =? 0)
  | PFloat q => negb (Qnum q =? 0)
  | PStr s => truthy_str s
  | PList l => negb (bool_decide (l = []))
  | PDict d => negb (bool_decide (d = ∅))
  end.

(** [v[key]] for a string key. *)
Definition getitem (v : pyval) (key : string) : M pyval :=
  match v with
  | PDict d =>
      match d !! key with
      | Some x => mret x
      | None => raise (KeyError ("'" +:+ key +:+ "'"))
      end
  | PStr _ => raise (TypeError "string indices must be integers")
  | PList _ => raise (TypeError "list indices must be integers or slices, not str")
  | _ => raise (TypeError "object is not subscriptable")
  end.

(** What [main] starts. *)
Inductive mode : Type :=
| ApiServer (host port : pyval)
| CliMode.

Definition main (config : pydict) : M mode :=
  api ← getitem (PDict config) "api";
  enabled ← getitem api "enabled";
  if truthy_val enabled then
    host ← getitem api "host";
    port ← getitem api "port";
    mret (ApiServer host port)
  else mret CliMode.

End Host.

(** ** Notions the statements use *)

Module Spec.



(** A decimal number with at most three places. *)
Definition three_decimals (t : Q) : Prop := exists k : Z, t = Qmake k 1000.

(** The wall clock never runs backwards. *)
Definition monotone (w : world) : Prop :=
  forall i j : nat, (i <= j)%nat -> (clock w i <= clock w j)%Q.


(** A result that carries an elapsed time. *)
Definition has_time (d : pydict) : Prop := exists t : Q, d !! "time" = Some (PFloat t).

(** The two shapes of a solve result with its elapsed time. *)
Definition timed_success (d : pydict) : Prop :=
  d !! "status" = Some (PStr "success") /\ has_time d.

Definition timed_error (d : pydict) : Prop :=
  d !! "status" = Some (PStr "error") /\ has_time d.

(** The driver calls that wait on the page and may time out: counting,
    clicking and reading. *)
Definition may_time_out (ev : event) : bool :=
  match ev with
  | LocatorCount _ | LocatorClick _ _ | PageClick _ _
  | Evaluate ReadToken | InputValue _ _ => true
  | _ => false
  end.

(** From [s] on, no other driver call raises. *)
Definition served_from (w : world) (s : state) : Prop :=
  forall (k : list event) (ev : event),
    may_time_out ev = false -> raises w (trace s ++ k)%list ev = None.


(** From [s] on, the legacy server reads an empty response field. *)
Definition no_input_from (w : world) (s : state) : Prop :=
  forall k : list event, input_value w (trace s ++ k)%list = "".

(** [steady s s']: between [s] and [s'] the pool was not touched; clock
    readings and trace only grew. *)
Definition steady (s s' : state) : Prop :=
  browser_pool s' = browser_pool s /\ (ticks s <= ticks s')%nat /\
  exists k : list event, trace s' = (trace s ++ k)%list.

(** [ensures m P]: however [m] ends, it ends (it does not wait on the
    pool), it leaves the pool alone, and what it returns satisfies [P]. *)
Definition ensures {A : Type} (m : M A) (P : A -> Prop) : Prop :=
  forall s r s', m s = (r, s') ->
    steady s s' /\ r <> Block /\ forall a, r = Ret a -> P a.

(** [s'] is [s] with the slot [sl] put back at the end of the queue. *)
Definition put_back (sl : slot) (s s' : state) : Prop :=
  browser_pool s' = (browser_pool s ++ [sl])%list /\ (ticks s <= ticks s')%nat /\
  exists k : list event, trace s' = (trace s ++ k)%list.

(** A success result whose token is a value the response field held, not
    blank, and handed on as it was read. *)
Definition carries_token (w : world) (d : pydict) : Prop :=
  exists (token : string) (t : Q) (h : list event),
    d = {[ "status" := PStr "success"; "token" := PStr token; "time" := PFloat t ]}
    /\ token_field w h = Some token
    /\ strip token <> "".




(** [sep.join(fields)] for a one-character separator. *)
Fixpoint join (sep : ascii) (fields : list string) : string :=
  match fields with
  | [] => EmptyString
  | [x] => x
  | x :: rest => x +:+ String sep (join sep rest)
  end.

(** [c in s] for a character. *)
Fixpoint has_char (c : ascii) (s : string) : bool :=
  match s with
  | EmptyString => false
  | String a r => Ascii.eqb a c || has_char c r
  end.

(** The four arguments of a call of [solve]. *)
Definition request : Type := option string * option string * option string * option string.

(** Calls of [solve] one after the other, each run to completion. *)
Fixpoint solve_each (self : Solver.TurnstileSolver) (w : world) (reqs : list request)
    : M (list pydict) :=
  match reqs with
  | [] => mret []
  | (url, sitekey, action, cdata) :: rest =>
      d ← Solver.solve self w url sitekey action cdata;
      ds ← solve_each self w rest;
      mret (d :: ds)
  end.

(** The exceptions with which the two polling loops give up. *)
Definition timeout_15 : exn := Exception "Failed to get Turnstile token after 15 attempts".

Definition timeout_30 : exn := Exception "Failed to get Turnstile token after 30 attempts".

End Spec.
Export Spec.

(** ** Concrete worlds and processes *)

Module Scenario.

(** A driver that never raises and a page on which the widget never
    deposits a token; the clock advances by 1.0625 s per reading; no proxy
    list. *)
Definition idle : world :=
  {| raises := fun _ _ => None;
     launched := fun h => length h;
     iframe_count := fun _ => 0;
     token_field := fun _ => None;
     input_value := fun _ => "";
     clock := fun n => Qmake (17 * Z.of_nat n) 16;
     draw := fun _ => 0%nat;
     getcwd := "/srv";
     proxies_txt := Missing;
     DISPLAY := None |}.

(** The same driver, on a page whose widget deposits [token] once the
    field has been read [n] times. *)
Definition solved_after (n : nat) (token : string) : world :=
  let reads (h : list event) :=
    length (List.filter (fun ev => match ev with
                                   | Evaluate ReadToken | InputValue _ _ => true
                                   | _ => false
                                   end) h) in
  {| raises := fun _ _ => None;
     launched := fun h => length h;
     iframe_count := fun _ => 0;
     token_field := fun h => if (n <=? reads h)%nat then Some token else None;
     input_value := fun h => if (n <=? reads h)%nat then token else "";
     clock := fun n => Qmake (17 * Z.of_nat n) 16;
     draw := fun _ => 0%nat;
     getcwd := "/srv";
     proxies_txt := Missing;
     DISPLAY := None |}.

Definition with_proxies (f : file) (w : world) : world :=
  {| raises := raises w; launched := launched w; iframe_count := iframe_count w;
     token_field := token_field w; input_value := input_value w; clock := clock w;
     draw := draw w; getcwd := getcwd w; proxies_txt := f; DISPLAY := DISPLAY w |}.

Definition solver (proxy : bool) : Solver.TurnstileSolver :=
  {| Solver.HTML_TEMPLATE := "<body><!-- Turnstile will be inserted here --></body>";
     Solver.headless := true; Solver.thread_count := 2;
     Solver.browser_type := "chromium"; Solver.proxy_support := proxy;
     Solver.useragent := "Mozilla/5.0" |}.

Definition server (proxy : bool) : Legacy.TurnstileAPIServer :=
  {| Legacy.HTML_TEMPLATE := "<body><!-- cf turnstile --></body>";
     Legacy.browser_type := "chromium"; Legacy.headless := false;
     Legacy.useragent := None; Legacy.thread_count := 1;
     Legacy.proxy_support := proxy |}.

(** A process before any browser is launched. *)
Definition fresh : state := {| browser_pool := []; ticks := 0; trace := [] |}.

(** A process whose pool holds the given slots. *)
Definition ready (slots : list slot) : state :=
  {| browser_pool := slots; ticks := 0; trace := [] |}.

(** The file [{"thread": 4, "api": {"port": 9000}}] as [json.load] returns it. *)
Definition partial_file : pydict :=
  {[ "thread" := PInt 4; "api" := PDict {[ "port" := PInt 9000 ]} ]}.

(** A driver whose launches fail once the trace holds three events, that
    is from the second browser on. *)
Definition flaky : world :=
  {| raises := fun h ev =>
       match ev with
       | Launch _ _ _ =>
           if (3 <=? length h)%nat then Some (DriverError "launch failed") else None
       | _ => None
       end;
     launched := fun h => length h;
     iframe_count := fun _ => 0;
     token_field := fun _ => None;
     input_value := fun _ => "";
     clock := fun n => Qmake (17 * Z.of_nat n) 16;
     draw := fun _ => 0%nat;
     getcwd := "/srv";
     proxies_txt := Missing;
     DISPLAY := None |}.

(** A driver on a machine without Chrome and Edge: launching a channel
    fails, launching the bundled Chromium works. *)
Definition no_channel : world :=
  {| raises := fun h ev =>
       match ev with
       | Launch (Some _) _ _ => Some (DriverError "executable not found")
       | _ => None
       end;
     launched := fun h => length h;
     iframe_count := fun _ => 0;
     token_field := fun _ => None;
     input_value := fun _ => "";
     clock := fun n => Qmake (17 * Z.of_nat n) 16;
     draw := fun _ => 0%nat;
     getcwd := "/srv";
     proxies_txt := Missing;
     DISPLAY := None |}.

(** A driver whose browser dies during the navigation: [page.goto] raises,
    and so does closing the context from then on. *)
Definition crashed : world :=
  {| raises := fun h ev =>
       match ev with
       | PageGoto _ | ContextClose _ =>
           Some (DriverError "Target page, context or browser has been closed")
       | _ => None
       end;
     launched := fun h => length h;
     iframe_count := fun _ => 0;
     token_field := fun _ => None;
     input_value := fun _ => "";
     clock := fun n => Qmake (17 * Z.of_nat n) 16;
     draw := fun _ => 0%nat;
     getcwd := "/srv";
     proxies_txt := Missing;
     DISPLAY := None |}.

(** A page on which the widget never deposits a token, in a context that
    cannot be closed. *)
Definition unclosable : world :=
  {| raises := fun h ev =>
       match ev with
       | ContextClose _ => Some (DriverError "Connection closed")
       | _ => None
       end;
     launched := fun h => length h;
     iframe_count := fun _ => 0;
     token_field := fun _ => None;
     input_value := fun _ => "";
     clock := fun n => Qmake (17 * Z.of_nat n) 16;
     draw := fun _ => 0%nat;
     getcwd := "/srv";
     proxies_txt := Missing;
     DISPLAY := None |}.

(** A solver configured for a visible Chrome. *)
Definition visible_chrome : Solver.TurnstileSolver :=
  {| Solver.HTML_TEMPLATE := ""; Solver.headless := false; Solver.thread_count := 1;
     Solver.browser_type := "chrome"; Solver.proxy_support := false;
     Solver.useragent := "Mozilla/5.0" |}.

(** A line feed, which ends each line read from a file. *)
Definition nl : string := String (ascii_of_nat 10) EmptyString.

(** Proxy lists of one entry. *)
Definition plain_proxy : file := Lines ["socks5:1.2.3.4:1080" +:+ nl].
Definition auth_proxy : file := Lines ["http:1.2.3.4:8080:user:pass" +:+ nl].
Definition bad_proxy : file := Lines [nl; "bad:format" +:+ nl].


End Scenario.

(** * Properties *)

(** ** Small runs of the models *)

Example strip_line : strip " socks5:1.2.3.4:1080 " = "socks5:1.2.3.4:1080".
Proof. reflexivity. Qed.

Example split_three :
  split ":" "socks5:1.2.3.4:1080" = ["socks5"; "1.2.3.4"; "1080"].
Proof. reflexivity. Qed.

Example split_empty_fields : split ":" "a::" = ["a"; ""; ""].
Proof. reflexivity. Qed.

Example replace_marker :
  replace "<p><!-- x --></p>" "<!-- x -->" "<div/>" = "<p><div/></p>".
Proof. reflexivity. Qed.

Example round3_on_doubles :
  round3 (double (Qmake 5 10000)) = Qmake 1 1000
  /\ round3 (fsub (double (Qmake 37035 10000)) (double (Qmake 2469 1000))) = Qmake 1235 1000
  /\ round3 (Qmake 1 16) = Qmake 62 1000
  /\ fsub (Qmake 17 16) (Qmake 0 1) = Qmake 4785074604081152 4503599627370496.
Proof. vm_compute. repeat split. Qed.

Example round3_half_even : round3 (Qmake 12345 10000) = Qmake 1234 1000.
Proof. reflexivity. Qed.

Example int_of_str_forms :
  Legacy.int_of_str " -1_000 " = Some (-1000) /\ Legacy.int_of_str "4_" = None.
Proof. split; reflexivity. Qed.

Example initialize_fills_pool :
  Solver.initialize (Scenario.solver false) Scenario.idle Scenario.fresh
  = (Ret true,
     {| browser_pool := [(1, 1); (2, 3)]%nat; ticks := 0;
        trace := [PlaywrightStart;
                  Launch None true (Solver.browser_args (Scenario.solver false));
                  PoolPut (1, 1)%nat;
                  Launch None true (Solver.browser_args (Scenario.solver false));
                  PoolPut (2, 3)%nat] |}).
Proof. reflexivity. Qed.

(** ** The health endpoint *)

(** C9.  [GET /health] has three answers: "down, Solver not initialized"
    while no solver is constructed; "up" with the current number of free
    slots when the solver's live status says initialized, which is the
    case exactly when the pool holds a slot; "down, Solver pool empty"
    when the solver exists and its pool is empty. *)
Theorem health_check_three_states (self : Solver.TurnstileSolver) (w : world) (s : state) :
  App.health_check None w s
    = {[ "status" := PStr "down"; "message" := PStr "Solver not initialized" ]}
  /\ (browser_pool s <> [] ->
      Solver.get_status self w s !! "initialized" = Some (PBool true)
      /\ App.health_check (Some self) w s
         = {[ "status" := PStr "up";
              "pool_size" := PInt (Z.of_nat (length (browser_pool s))) ]}
      /\ (0 < length (browser_pool s))%nat)
  /\ (browser_pool s = [] ->
      Solver.get_status self w s !! "initialized" = Some (PBool false)
      /\ App.health_check (Some self) w s
         = {[ "status" := PStr "down"; "message" := PStr "Solver pool empty" ]}).
Proof.
  split; [reflexivity|].
  destruct s as [pool n tr]; simpl.
  split; intros Hpool.
  - destruct pool as [|sl rest]; [congruence|].
    repeat split; simpl; lia.
  - subst pool. split; reflexivity.
Qed.

Lemma health_check_three_states_witness :
  App.health_check (Some (Scenario.solver false)) Scenario.idle
    (Scenario.ready [(1, 10); (2, 20)]%nat)
  = {[ "status" := PStr "up"; "pool_size" := PInt 2 ]}
  /\ App.health_check (Some (Scenario.solver false)) Scenario.idle Scenario.fresh
  = {[ "status" := PStr "down"; "message" := PStr "Solver pool empty" ]}.
Proof.
  split.
  - apply (health_check_three_states (Scenario.solver false) Scenario.idle
             (Scenario.ready [(1, 10); (2, 20)]%nat)).
    simpl. discriminate.
  - apply (health_check_three_states (Scenario.solver false) Scenario.idle Scenario.fresh).
    reflexivity.
Defined.

(** ** The launcher of the legacy server *)






(** An option written in full with its argument after [=] is read as that
    option with that argument, whatever the argument is. *)
Lemma parse_optional_headless (a : string) :
  Legacy._parse_optional ("--headless=" +:+ a) = Legacy.Optional "--headless" (Some a).
Proof. reflexivity. Qed.

Lemma parse_optional_proxy (a : string) :
  Legacy._parse_optional ("--proxy=" +:+ a) = Legacy.Optional "--proxy" (Some a).
Proof. reflexivity. Qed.





(** ** Configuration loading *)

Lemma load_config_merged (top : pydict) (s : state) :
  App.load_config (App.Loaded (PDict top)) s
  = match top !! "api" with
    | None => (Ret (top ∪ App.default_config), s)
    | Some (PDict sub) =>
        (Ret (<["api" := PDict (sub ∪ App.default_api)]> (top ∪ App.default_config)), s)
    | Some _ => (Ret App.default_config, s)
    end.
Proof.
  unfold App.load_config, try_except, App.open_and_load, App.unpack, App.spread.
  simpl. unfold mbind, M_bind, mret, M_ret. simpl.
  destruct (top !! "api") as [[| | | | | |sub]|]; reflexivity.
Qed.

(** C2.  [load_config()] returns exactly the defaults when there is no
    file; for a file holding a JSON object whose [api], if present, is an
    object, every top-level key of the file overrides the default, every
    other default is kept, and [api] is the file's [api] merged one level
    deep over the default [api]; on any failure to open, read or parse,
    and when the content cannot be merged, it returns the full defaults;
    it never raises and touches no state. *)
Theorem load_config_spec (f : App.config_file) (s : state) :
  (f = App.Absent -> App.load_config f s = (Ret App.default_config, s))
  /\ App.default_config
     = {[ "headless" := PBool true; "thread" := PInt 2;
          "browser_type" := PStr "chromium"; "proxy_support" := PBool false;
          "api" := PDict {[ "enabled" := PBool false; "host" := PStr "0.0.0.0";
                            "port" := PInt 8000 ]} ]}
  /\ (forall top sub,
        f = App.Loaded (PDict top) ->
        top !! "api" = None /\ sub = ∅ \/ top !! "api" = Some (PDict sub) ->
        exists merged api,
          App.load_config f s = (Ret merged, s)
          /\ (forall k v, k <> "api" -> top !! k = Some v -> merged !! k = Some v)
          /\ (forall k, top !! k = None -> k <> "api" -> merged !! k = App.default_config !! k)
          /\ merged !! "api" = Some (PDict api)
          /\ (forall k v, sub !! k = Some v -> api !! k = Some v)
          /\ (forall k, sub !! k = None -> api !! k = App.default_api !! k))
  /\ (f = App.Loaded (PDict Scenario.partial_file) ->
      App.load_config f s
      = (Ret {[ "headless" := PBool true; "thread" := PInt 4;
                "browser_type" := PStr "chromium"; "proxy_support" := PBool false;
                "api" := PDict {[ "enabled" := PBool false; "host" := PStr "0.0.0.0";
                                  "port" := PInt 9000 ]} ]}, s))
  /\ (forall e, f = App.OpenFails e \/ f = App.LoadFails e ->
        App.load_config f s = (Ret App.default_config, s))
  /\ (forall config, f = App.Loaded config ->
        (forall top, config = PDict top ->
           exists v, top !! "api" = Some v /\ forall sub, v <> PDict sub) \/
        (forall top, config <> PDict top) ->
        App.load_config f s = (Ret App.default_config, s))
  /\ exists config, App.load_config f s = (Ret config, s).
Proof.
  split; [intros ->; reflexivity|].
  split; [reflexivity|].
  split.
  { intros top sub -> Hapi. rewrite load_config_merged.
    destruct Hapi as [[Hapi ->]|Hapi]; rewrite Hapi.
    - exists (top ∪ App.default_config), App.default_api.
      split; [reflexivity|]. split; [|split; [|split; [|split]]].
      + intros k v _ Hk. apply lookup_union_Some_l, Hk.
      + intros k Hk _. apply lookup_union_r, Hk.
      + rewrite lookup_union_r by exact Hapi. reflexivity.
      + intros k v Hk. rewrite lookup_empty in Hk. discriminate.
      + reflexivity.
    - exists (<["api" := PDict (sub ∪ App.default_api)]> (top ∪ App.default_config)),
             (sub ∪ App.default_api).
      split; [reflexivity|]. split; [|split; [|split; [|split]]].
      + intros k v Hne Hk. rewrite lookup_insert_ne by congruence.
        apply lookup_union_Some_l, Hk.
      + intros k Hk Hne. rewrite lookup_insert_ne by congruence.
        apply lookup_union_r, Hk.
      + apply lookup_insert_eq.
      + intros k v Hk. apply lookup_union_Some_l, Hk.
      + intros k Hk. apply lookup_union_r, Hk. }
  split; [intros ->; reflexivity|].
  split; [intros e [->| ->]; destruct e; reflexivity|].
  split.
  { intros config -> Hbad. destruct config as [| | | | | |top]; try reflexivity.
    rewrite load_config_merged.
    destruct Hbad as [Hbad|Hbad]; [|exfalso; apply (Hbad top); reflexivity].
    destruct (Hbad top eq_refl) as (v & -> & Hv).
    destruct v as [| | | | | |sub]; try reflexivity.
    exfalso. apply (Hv sub). reflexivity. }
  destruct f as [|e|e|config]; try (destruct e; eexists; reflexivity);
    try (eexists; reflexivity).
  destruct config as [| | | | | |top]; try (eexists; reflexivity).
  rewrite load_config_merged.
  destruct (top !! "api") as [[| | | | | |sub]|]; eexists; reflexivity.
Qed.

Lemma load_config_spec_witness :
  App.load_config (App.Loaded (PDict Scenario.partial_file)) Scenario.fresh
  = (Ret {[ "headless" := PBool true; "thread" := PInt 4;
            "browser_type" := PStr "chromium"; "proxy_support" := PBool false;
            "api" := PDict {[ "enabled" := PBool false; "host" := PStr "0.0.0.0";
                              "port" := PInt 9000 ]} ]}, Scenario.fresh)
  /\ App.load_config App.Absent Scenario.fresh = (Ret App.default_config, Scenario.fresh)
  /\ App.load_config (App.Loaded (PDict {[ "thread" := PInt 4; "api" := PInt 5 ]})) Scenario.fresh
     = (Ret App.default_config, Scenario.fresh).
Proof.
  split; [|split].
  - apply (load_config_spec (App.Loaded (PDict Scenario.partial_file)) Scenario.fresh).
    reflexivity.
  - apply (load_config_spec App.Absent Scenario.fresh). reflexivity.
  - apply (load_config_spec _ Scenario.fresh) with
      (config := PDict {[ "thread" := PInt 4; "api" := PInt 5 ]}); [reflexivity|].
    left. intros top [= <-]. exists (PInt 5). split; [reflexivity | discriminate].
Defined.

(** Counterexample for C2 as it is worded, for every parseable file: the
    file [{"thread": 4, "api": 5}] parses, yet nothing of it is merged:
    its [thread] is lost and the configuration is the default one.  The
    same holds for the parseable file [[1, 2]], which is no object at
    all.  So it is not the case that every top-level key of a parsed
    object reaches the configuration. *)
Lemma load_config_parseable_not_merged :
  (exists (top merged : pydict),
      top !! "thread" = Some (PInt 4)
      /\ App.load_config (App.Loaded (PDict top)) Scenario.fresh = (Ret merged, Scenario.fresh)
      /\ merged !! "thread" = Some (PInt 2)
      /\ merged = App.default_config)
  /\ App.load_config (App.Loaded (PList [PInt 1; PInt 2])) Scenario.fresh
     = (Ret App.default_config, Scenario.fresh)
  /\ ~ (forall (top : pydict) (s : state),
          exists merged,
            App.load_config (App.Loaded (PDict top)) s = (Ret merged, s)
            /\ forall k v, k <> "api" -> top !! k = Some v -> merged !! k = Some v).
Proof.
  split; [|split].
  - exists {[ "thread" := PInt 4; "api" := PInt 5 ]}, App.default_config.
    repeat split; reflexivity.
  - reflexivity.
  - intros Hmerge.
    destruct (Hmerge {[ "thread" := PInt 4; "api" := PInt 5 ]} Scenario.fresh)
      as (merged & Hrun & Hkeys).
    rewrite load_config_merged in Hrun. simpl in Hrun.
    assert (Hthread : merged !! "thread" = Some (PInt 4)).
    { apply Hkeys; [discriminate | reflexivity]. }
    injection Hrun as <-. discriminate Hthread.
Qed.

(** ** Reasoning about runs *)

Section Runs.

Context {A B : Type}.

Lemma run_bind (m : M A) (f : A -> M B) (s : state) :
  (m ≫= f) s
  = match m s with
    | (Ret a, s') => f a s'
    | (Raise e, s') => (Raise e, s')
    | (Block, s') => (Block, s')
    end.
Proof. reflexivity. Qed.

Lemma run_ret (a : A) (s : state) : (mret a : M A) s = (Ret a, s).
Proof. reflexivity. Qed.

Lemma run_try (body : M A) (handler : exn -> M A) (s : state) :
  try_except body handler s
  = match body s with
    | (Raise e, s') => handler e s'
    | r => r
    end.
Proof. reflexivity. Qed.

Lemma run_call (w : world) (ev : event) (s : state) :
  call w ev s
  = (match raises w (trace s) ev with Some e => Raise e | None => Ret tt end, log ev s).
Proof. unfold call. destruct (raises w (trace s) ev); reflexivity. Qed.

Lemma run_ask (w : world) (ev : event) (answer : list event -> A) (s : state) :
  ask w ev answer s
  = (match raises w (trace s) ev with
     | Some e => Raise e
     | None => Ret (answer (trace s))
     end, log ev s).
Proof. unfold ask. destruct (raises w (trace s) ev); reflexivity. Qed.

End Runs.

Lemma run_time (w : world) (s : state) :
  time_time w s
  = (Ret (clock w (ticks s)),
     {| browser_pool := browser_pool s; ticks := S (ticks s); trace := trace s |}).
Proof. reflexivity. Qed.

Lemma run_pool_get_empty (s : state) : browser_pool s = [] -> pool_get s = (Block, s).
Proof. intros H. unfold pool_get. rewrite H. reflexivity. Qed.

Lemma run_pool_get_cons (s : state) (sl : slot) (rest : list slot) :
  browser_pool s = sl :: rest ->
  pool_get s
  = (Ret sl, {| browser_pool := rest; ticks := ticks s; trace := (trace s ++ [PoolGet sl])%list |}).
Proof. intros H. unfold pool_get. rewrite H. reflexivity. Qed.

Lemma run_pool_put (sl : slot) (s : state) :
  pool_put sl s
  = (Ret tt, {| browser_pool := (browser_pool s ++ [sl])%list; ticks := ticks s;
                trace := (trace s ++ [PoolPut sl])%list |}).
Proof. reflexivity. Qed.


Lemma steady_refl (s : state) : steady s s.
Proof.
  split; [reflexivity|]. split; [lia|]. exists []. symmetry. apply app_nil_r.
Qed.

Lemma steady_trans (s1 s2 s3 : state) : steady s1 s2 -> steady s2 s3 -> steady s1 s3.
Proof.
  intros (Hp1 & Ht1 & k1 & Hk1) (Hp2 & Ht2 & k2 & Hk2).
  split; [congruence|]. split; [lia|].
  exists (k1 ++ k2)%list. rewrite Hk2, Hk1. symmetry. apply app_assoc.
Qed.

Lemma steady_log (ev : event) (s : state) : steady s (log ev s).
Proof. split; [reflexivity|]. split; [simpl; lia|]. exists [ev]. reflexivity. Qed.


Lemma ensures_ret {A : Type} (a : A) (P : A -> Prop) : P a -> ensures (mret a) P.
Proof.
  intros Ha s r s' [= <- <-]. split; [apply steady_refl|].
  split; [discriminate|]. intros a' [= <-]. exact Ha.
Qed.

Lemma ensures_raise {A : Type} (e : exn) (P : A -> Prop) : ensures (raise e) P.
Proof.
  intros s r s' [= <- <-]. split; [apply steady_refl|].
  split; discriminate.
Qed.

Lemma ensures_weaken {A : Type} (m : M A) (P Q : A -> Prop) :
  ensures m P -> (forall a, P a -> Q a) -> ensures m Q.
Proof.
  intros Hm HPQ s r s' Hrun. destruct (Hm s r s' Hrun) as (Hs & Hb & Hr).
  split; [exact Hs|]. split; [exact Hb|]. intros a Ha. apply HPQ, Hr, Ha.
Qed.

Lemma ensures_bind {A B : Type} (m : M A) (f : A -> M B) (P : A -> Prop) (Q : B -> Prop) :
  ensures m P -> (forall a, P a -> ensures (f a) Q) -> ensures (m ≫= f) Q.
Proof.
  intros Hm Hf s r s' Hrun. rewrite run_bind in Hrun.
  destruct (m s) as [r1 s1] eqn:E1.
  destruct (Hm s r1 s1 E1) as (Hs1 & Hb1 & Hr1).
  destruct r1 as [a|e|].
  - destruct (Hf a (Hr1 a eq_refl) s1 r s' Hrun) as (Hs2 & Hb2 & Hr2).
    split; [eapply steady_trans; eassumption|]. split; assumption.
  - injection Hrun as <- <-. split; [exact Hs1|]. split; discriminate.
  - congruence.
Qed.

Lemma ensures_try {A : Type} (body : M A) (handler : exn -> M A) (P : A -> Prop) :
  ensures body P -> (forall e, ensures (handler e) P) -> ensures (try_except body handler) P.
Proof.
  intros Hm Hh s r s' Hrun. rewrite run_try in Hrun.
  destruct (body s) as [r1 s1] eqn:E1.
  destruct (Hm s r1 s1 E1) as (Hs1 & Hb1 & Hr1).
  destruct r1 as [a|e|].
  - injection Hrun as <- <-. split; [exact Hs1|]. split; assumption.
  - destruct (Hh e s1 r s' Hrun) as (Hs2 & Hb2 & Hr2).
    split; [eapply steady_trans; eassumption|]. split; assumption.
  - congruence.
Qed.

Lemma ensures_for_each {A : Type} (xs : list nat) (body : nat -> M (option A)) (P : A -> Prop) :
  (forall x, ensures (body x) (fun r => forall a, r = Some a -> P a)) ->
  ensures (for_each xs body) (fun r => forall a, r = Some a -> P a).
Proof.
  intros Hbody. induction xs as [|x xs IH]; simpl.
  - apply ensures_ret. discriminate.
  - eapply ensures_bind; [apply Hbody|].
    intros [a|] Ha.
    + apply ensures_ret. exact Ha.
    + exact IH.
Qed.

Lemma ensures_call (w : world) (ev : event) : ensures (call w ev) (fun _ => True).
Proof.
  intros s r s' Hrun. rewrite run_call in Hrun. injection Hrun as <- <-.
  split; [apply steady_log|]. split; [destruct (raises w (trace s) ev); discriminate|].
  intros; exact I.
Qed.

Lemma ensures_ask {A : Type} (w : world) (ev : event) (answer : list event -> A) :
  ensures (ask w ev answer) (fun _ => True).
Proof.
  intros s r s' Hrun. rewrite run_ask in Hrun. injection Hrun as <- <-.
  split; [apply steady_log|]. split; [destruct (raises w (trace s) ev); discriminate|].
  intros; exact I.
Qed.


Lemma ensures_sleep (ms : Z) : ensures (sleep ms) (fun _ => True).
Proof.
  intros s r s' [= <- <-]. split; [apply steady_log|].
  split; [discriminate|]. intros; exact I.
Qed.

Lemma ensures_time (w : world) : ensures (time_time w) (fun _ => True).
Proof.
  intros s r s' [= <- <-]. split.
  - split; [reflexivity|]. split; [simpl; lia|]. exists []. simpl. symmetry. apply app_nil_r.
  - split; [discriminate|]. intros; exact I.
Qed.

Lemma ensures_choice (w : world) (xs : list string) :
  ensures (random_choice w xs) (fun _ => True).
Proof.
  intros s r s' [= <- <-]. split; [apply steady_refl|].
  split; [discriminate|]. intros; exact I.
Qed.

Lemma ensures_read_lines (w : world) (path : string) :
  ensures (read_lines w path) (fun _ => True).
Proof.
  unfold read_lines. destruct (proxies_txt w).
  - apply ensures_raise.
  - apply ensures_raise.
  - apply ensures_ret. exact I.
Qed.

Lemma ensures_new_context (w : world) (browser : nat) (proxy : option pydict) :
  ensures (new_context w browser proxy) (fun _ => True).
Proof. apply (ensures_ask w (NewContext browser proxy)). Qed.

Lemma ensures_new_page (w : world) (context : nat) :
  ensures (new_page w context) (fun _ => True).
Proof.
  unfold new_page. eapply ensures_bind; [apply ensures_call|].
  intros _ _. apply ensures_ret. exact I.
Qed.

Lemma ensures_context_close (w : world) (context : nat) :
  ensures (context_close w context) (fun _ => True).
Proof. apply ensures_call. Qed.

Create HintDb runs.

#[local] Hint Resolve ensures_call ensures_ask ensures_sleep ensures_time ensures_choice
  ensures_read_lines ensures_new_context ensures_new_page ensures_context_close
  ensures_raise : runs.

Ltac ensure :=
  repeat first
    [ apply ensures_ret
    | solve [eauto with runs]
    | apply ensures_try; [|intros ?]
    | eapply ensures_bind with (P := fun _ => True); [|intros ? _]
    | match goal with |- ensures (if ?b then _ else _) _ => destruct b end
    | exact I ].

(** ** The solver core between taking and returning a slot *)

Lemma setup_context_ensures (self : Solver.TurnstileSolver) (w : world) (browser : nat) :
  ensures (Solver._setup_context self w browser) (fun _ => True).
Proof.
  unfold Solver._setup_context.
  destruct (negb (Solver.proxy_support self)); [ensure|].
  destruct (proxies_txt w) eqn:Efile; ensure.
Qed.

Lemma solver_poll_once_ensures (w : world) (start_time : Q) (attempt : nat) :
  ensures (Solver.poll_once w start_time attempt)
          (fun r => forall d, r = Some d -> Spec.timed_success d).
Proof.
  unfold Solver.poll_once.
  apply ensures_try; [|intros e; ensure; discriminate].
  eapply ensures_bind with (P := fun _ => True); [ensure|]. intros token _.
  destruct (truthy token && truthy_str (strip (default "" token))).
  - eapply ensures_bind with (P := fun _ => True); [ensure|]. intros now _.
    apply ensures_ret. intros d [= <-]. split; [reflexivity|].
    eexists. reflexivity.
  - ensure; discriminate.
Qed.

Lemma solve_on_page_ensures (self : Solver.TurnstileSolver) (w : world) (page : nat)
    (url sitekey : string) (action cdata : option string) (start_time : Q) :
  ensures (Solver._solve_on_page self w page url sitekey action cdata start_time)
          Spec.timed_success.
Proof.
  unfold Solver._solve_on_page. cbv zeta.
  eapply ensures_bind with (P := fun _ => True); [ensure|]. intros _ _.
  eapply ensures_bind with (P := fun _ => True); [ensure|]. intros _ _.
  eapply ensures_bind with (P := fun _ => True); [ensure|]. intros _ _.
  eapply ensures_bind with (P := fun _ => True); [ensure|]. intros _ _.
  eapply ensures_bind with (P := fun _ => True).
  { apply ensures_try; [|intros e; ensure].
    eapply ensures_bind with (P := fun _ => True); [ensure|]. intros n _.
    destruct (0 <? n); ensure. }
  intros _ _.
  eapply ensures_bind; [apply ensures_for_each; intros x; apply solver_poll_once_ensures|].
  intros [d|] Hd; [|ensure].
  apply ensures_ret. apply Hd. reflexivity.
Qed.

(** What [solve] does once a slot is taken: the [try] statement. *)
Lemma solve_guarded_returns_slot (self : Solver.TurnstileSolver) (w : world)
    (url sitekey : string) (action cdata : option string) (start_time : Q)
    (sl : slot) (s : state) :
  exists d s',
    try_except
      (context ← Solver._setup_context self w (snd sl);
       page ← new_page w context;
       result ← Solver._solve_on_page self w page url sitekey action cdata start_time;
       context_close w context ;;
       pool_put (fst sl, snd sl) ;;
       mret result)
      (fun e =>
         now ← time_time w;
         let elapsed_time := round3 (fsub now start_time) in
         pool_put (fst sl, snd sl) ;;
         mret ({[ "status" := PStr "error";
                  "error" := PStr (str_exn e);
                  "time" := PFloat elapsed_time ]} : pydict)) s
    = (Ret d, s')
    /\ (Spec.timed_success d \/ Spec.timed_error d)
    /\ browser_pool s' = (browser_pool s ++ [sl])%list.
Proof.
  destruct sl as [index browser]. simpl fst; simpl snd.
  assert (Hhandler : forall e s1, steady s s1 ->
    exists d s',
      (now ← time_time w;
       let elapsed_time := round3 (fsub now start_time) in
       pool_put (index, browser) ;;
       mret ({[ "status" := PStr "error";
                "error" := PStr (str_exn e);
                "time" := PFloat elapsed_time ]} : pydict)) s1 = (Ret d, s')
      /\ (Spec.timed_success d \/ Spec.timed_error d)
      /\ browser_pool s' = (browser_pool s ++ [(index, browser)])%list).
  { intros e s1 (Hp & _).
    cbv beta iota zeta delta [mbind M_bind mret M_ret time_time pool_put].
    eexists. eexists. split; [reflexivity|]. split.
    - right. split; [reflexivity|]. eexists. reflexivity.
    - simpl. rewrite Hp. reflexivity. }
  rewrite run_try, run_bind.
  destruct (Solver._setup_context self w browser s) as [r1 s1] eqn:E1.
  destruct (setup_context_ensures self w browser s r1 s1 E1) as (H1 & Hb1 & _).
  destruct r1 as [context|e|]; [|apply Hhandler, H1|congruence].
  rewrite run_bind.
  destruct (new_page w context s1) as [r2 s2] eqn:E2.
  destruct (ensures_new_page w context s1 r2 s2 E2) as (H2 & Hb2 & _).
  assert (H12 := steady_trans _ _ _ H1 H2).
  destruct r2 as [page|e|]; [|apply Hhandler, H12|congruence].
  rewrite run_bind.
  destruct (Solver._solve_on_page self w page url sitekey action cdata start_time s2)
    as [r3 s3] eqn:E3.
  destruct (solve_on_page_ensures self w page url sitekey action cdata start_time
              s2 r3 s3 E3) as (H3 & Hb3 & Hr3).
  assert (H13 := steady_trans _ _ _ H12 H3).
  destruct r3 as [result|e|]; [|apply Hhandler, H13|congruence].
  rewrite run_bind.
  destruct (context_close w context s3) as [r4 s4] eqn:E4.
  destruct (ensures_context_close w context s3 r4 s4 E4) as (H4 & Hb4 & _).
  assert (H14 := steady_trans _ _ _ H13 H4).
  destruct r4 as [[]|e|]; [|apply Hhandler, H14|congruence].
  eexists. eexists. split; [reflexivity|]. split.
  - left. apply Hr3. reflexivity.
  - simpl. destruct H14 as (-> & _). reflexivity.
Qed.

(** A call of [solve] with both required fields: it waits when the pool is
    empty; otherwise it returns a result with an elapsed time, and the slot
    it took is back at the end of the queue. *)
Lemma solve_valid_outcome (self : Solver.TurnstileSolver) (w : world)
    (url sitekey action cdata : option string) (s : state) :
  truthy url = true -> truthy sitekey = true ->
  match browser_pool s with
  | [] => exists s', Solver.solve self w url sitekey action cdata s = (Block, s')
  | sl :: rest =>
      exists d s',
        Solver.solve self w url sitekey action cdata s = (Ret d, s')
        /\ (Spec.timed_success d \/ Spec.timed_error d)
        /\ browser_pool s' = (rest ++ [sl])%list
  end.
Proof.
  intros Hu Hk. unfold Solver.solve. rewrite Hu, Hk.
  change (negb true || negb true) with false. cbv iota.
  rewrite run_bind, run_time. cbv iota beta. rewrite run_bind.
  destruct (browser_pool s) as [|[index browser] rest] eqn:Epool.
  - rewrite run_pool_get_empty by reflexivity. eexists. reflexivity.
  - erewrite run_pool_get_cons by reflexivity. cbv iota beta.
    match goal with
    | |- context [try_except _ _ ?s1] =>
        destruct (solve_guarded_returns_slot self w (default "" url) (default "" sitekey)
                    action cdata (clock w (ticks s)) (index, browser) s1)
          as (d & s' & Hrun & Hd & Hpool)
    end.
    exists d, s'. split; [exact Hrun|]. split; [exact Hd|]. exact Hpool.
Qed.

(** [solve] without one of the required fields. *)
Lemma solve_rejects (self : Solver.TurnstileSolver) (w : world)
    (url sitekey action cdata : option string) (s : state) :
  truthy url = false \/ truthy sitekey = false ->
  Solver.solve self w url sitekey action cdata s
  = (Ret {[ "status" := PStr "error";
            "error" := PStr "Both 'url' and 'sitekey' are required" ]}, s).
Proof.
  intros H. unfold Solver.solve.
  replace (negb (truthy url) || negb (truthy sitekey)) with true; [reflexivity|].
  destruct H as [-> | ->]; [reflexivity|]. symmetry. apply orb_true_r.
Qed.

(** C5.  When [url] or [sitekey] is missing or empty, [solve] returns the
    structured error at once and leaves the whole state as it was: no slot
    is taken or returned, no clock reading, no driver call.  That result
    has no [time] field, and among all results of [solve] the field is
    absent exactly in this case. *)
Theorem solve_validation_atomic (self : Solver.TurnstileSolver) (w : world)
    (url sitekey action cdata : option string) (s : state) :
  (truthy url = false \/ truthy sitekey = false ->
     Solver.solve self w url sitekey action cdata s
     = (Ret {[ "status" := PStr "error";
               "error" := PStr "Both 'url' and 'sitekey' are required" ]}, s))
  /\ (forall d s',
        Solver.solve self w url sitekey action cdata s = (Ret d, s') ->
        (d !! "time" = None <-> truthy url = false \/ truthy sitekey = false)).
Proof.
  pose proof (solve_rejects self w url sitekey action cdata s) as Hinvalid.
  split; [exact Hinvalid|].
  intros d s' Hrun.
  destruct (truthy url) eqn:Hu; [destruct (truthy sitekey) eqn:Hk|].
  - pose proof (solve_valid_outcome self w url sitekey action cdata s Hu Hk) as Hout.
    destruct (browser_pool s) as [|sl rest].
    + destruct Hout as (s1 & Hblock). congruence.
    + destruct Hout as (d1 & s1 & Hret & Hd & _).
      rewrite Hret in Hrun. injection Hrun as <- <-.
      assert (Ht : Spec.has_time d1) by (destruct Hd as [[_ H]|[_ H]]; exact H).
      destruct Ht as (t & Ht). rewrite Ht.
      split; [discriminate|]. intros [H|H]; discriminate.
  - rewrite Hinvalid in Hrun by (right; reflexivity). injection Hrun as <- <-.
    split; [intros _; right; reflexivity | reflexivity].
  - rewrite Hinvalid in Hrun by (left; reflexivity). injection Hrun as <- <-.
    split; [intros _; left; reflexivity | reflexivity].
Qed.

Lemma solve_validation_atomic_witness :
  Solver.solve (Scenario.solver false) Scenario.idle (Some "https://example.com") None
    None None (Scenario.ready [(1, 10); (2, 20)]%nat)
  = (Ret {[ "status" := PStr "error";
            "error" := PStr "Both 'url' and 'sitekey' are required" ]},
     Scenario.ready [(1, 10); (2, 20)]%nat).
Proof.
  apply (solve_validation_atomic (Scenario.solver false) Scenario.idle
           (Some "https://example.com") None None None
           (Scenario.ready [(1, 10); (2, 20)]%nat)).
  right. reflexivity.
Defined.

(** ** Choosing and parsing a proxy entry *)

Lemma stripped_lines_truthy (ls : list string) (p : string) :
  In p (stripped_lines ls) -> truthy_str p = true.
Proof.
  unfold stripped_lines. rewrite in_map_iff. intros (line & <- & Hin).
  apply List.filter_In in Hin. apply Hin.
Qed.

Lemma random_choice_in (w : world) (xs : list string) (s s' : state) (p : string) :
  random_choice w xs s = (Ret (Some p), s') -> In p xs /\ s' = s.
Proof.
  unfold random_choice. generalize (draw w (trace s)). intros n H.
  destruct xs as [|x xs]; [discriminate|]. injection H as <- <-.
  split; [|reflexivity].
  assert (Hlen : length (x :: xs) <> 0%nat) by discriminate.
  exact (nth_In (x :: xs) x (Nat.mod_upper_bound n (length (x :: xs)) Hlen)).
Qed.

(** With proxy support on and a readable list, both components come to
    the same point: a proxy line is drawn and split. *)
Lemma setup_context_drawn (self : Solver.TurnstileSolver) (w : world) (browser : nat)
    (s : state) (lines : list string) (proxy : string) :
  Solver.proxy_support self = true ->
  proxies_txt w = Lines lines ->
  random_choice w (stripped_lines lines) s = (Ret (Some proxy), s) ->
  Solver._setup_context self w browser s
  = (if (length (split ":" proxy) =? 3)%nat then
       new_context w browser (Some {[ "server" := PStr proxy ]})
     else if (length (split ":" proxy) =? 5)%nat then
       new_context w browser
         (Some {[ "server" := PStr (nth 0 (split ":" proxy) "" +:+ "://"
                                     +:+ nth 1 (split ":" proxy) "" +:+ ":"
                                     +:+ nth 2 (split ":" proxy) "");
                  "username" := PStr (nth 3 (split ":" proxy) "");
                  "password" := PStr (nth 4 (split ":" proxy) "") ]})
     else new_context w browser None) s.
Proof.
  intros Hon Hfile Hdraw.
  assert (Htruthy : truthy_str proxy = true).
  { apply random_choice_in in Hdraw. eapply stripped_lines_truthy, Hdraw. }
  unfold Solver._setup_context, read_lines. rewrite Hon, Hfile. cbn [negb].
  rewrite run_bind, run_ret, run_bind, Hdraw. cbn [truthy default from_option id].
  rewrite Htruthy. reflexivity.
Qed.

Lemma open_context_drawn (self : Legacy.TurnstileAPIServer) (w : world) (browser : nat)
    (s : state) (lines : list string) (proxy : string) :
  Legacy.proxy_support self = true ->
  proxies_txt w = Lines lines ->
  random_choice w (stripped_lines lines) s = (Ret (Some proxy), s) ->
  Legacy.open_context self w browser s
  = (if (length (split ":" proxy) =? 3)%nat then
       new_context w browser (Some {[ "server" := PStr proxy ]})
     else if (length (split ":" proxy) =? 5)%nat then
       new_context w browser
         (Some {[ "server" := PStr (nth 0 (split ":" proxy) "" +:+ "://"
                                     +:+ nth 1 (split ":" proxy) "" +:+ ":"
                                     +:+ nth 2 (split ":" proxy) "");
                  "username" := PStr (nth 3 (split ":" proxy) "");
                  "password" := PStr (nth 4 (split ":" proxy) "") ]})
     else raise (ValueError "Invalid proxy format")) s.
Proof.
  intros Hon Hfile Hdraw.
  assert (Htruthy : truthy_str proxy = true).
  { apply random_choice_in in Hdraw. eapply stripped_lines_truthy, Hdraw. }
  unfold Legacy.open_context, read_lines. rewrite Hon, Hfile.
  rewrite run_bind, run_ret, run_bind, Hdraw. cbn [truthy default from_option id].
  rewrite Htruthy. reflexivity.
Qed.

(** An exception of [open_context] leaves [_solve_turnstile] as it is. *)
Lemma solve_turnstile_setup_raises (self : Legacy.TurnstileAPIServer) (w : world)
    (url sitekey : string) (action cdata : option string)
    (s0 s s' : state) (index browser : nat) (e : exn) :
  pool_get s0 = (Ret (index, browser), s) ->
  Legacy.open_context self w browser s = (Raise e, s') ->
  Legacy._solve_turnstile self w url sitekey action cdata s0 = (Raise e, s').
Proof.
  intros Hget Hopen. unfold Legacy._solve_turnstile.
  rewrite run_bind, Hget. cbv iota beta. rewrite run_bind, Hopen. reflexivity.
Qed.

(** C3.  For every proxy line drawn from the list: with exactly 3 fields
    both components create the context with an unauthenticated proxy
    whose server is the raw line; with exactly 5 fields with server
    [scheme://host:port], the 4th field as user name and the 5th as
    password; with any other number of fields the legacy server raises
    [ValueError("Invalid proxy format")], which ends [_solve_turnstile],
    while the solver core raises nothing of its own and creates the
    context without a proxy. *)
Theorem proxy_entry_parsing (core : Solver.TurnstileSolver)
    (legacy : Legacy.TurnstileAPIServer) (w : world) (browser : nat) (s : state)
    (lines : list string) (proxy : string) :
  Solver.proxy_support core = true ->
  Legacy.proxy_support legacy = true ->
  proxies_txt w = Lines lines ->
  random_choice w (stripped_lines lines) s = (Ret (Some proxy), s) ->
  (length (split ":" proxy) = 3%nat ->
     Solver._setup_context core w browser s
     = new_context w browser (Some {[ "server" := PStr proxy ]}) s
     /\ Legacy.open_context legacy w browser s
        = new_context w browser (Some {[ "server" := PStr proxy ]}) s)
  /\ (forall scheme host port user pass,
        split ":" proxy = [scheme; host; port; user; pass] ->
        Solver._setup_context core w browser s
        = new_context w browser
            (Some {[ "server" := PStr (scheme +:+ "://" +:+ host +:+ ":" +:+ port);
                     "username" := PStr user; "password" := PStr pass ]}) s
        /\ Legacy.open_context legacy w browser s
           = new_context w browser
               (Some {[ "server" := PStr (scheme +:+ "://" +:+ host +:+ ":" +:+ port);
                        "username" := PStr user; "password" := PStr pass ]}) s)
  /\ (length (split ":" proxy) <> 3%nat -> length (split ":" proxy) <> 5%nat ->
      Legacy.open_context legacy w browser s
      = (Raise (ValueError "Invalid proxy format"), s)
      /\ (forall s0 index url sitekey action cdata,
            pool_get s0 = (Ret (index, browser), s) ->
            Legacy._solve_turnstile legacy w url sitekey action cdata s0
            = (Raise (ValueError "Invalid proxy format"), s))
      /\ Solver._setup_context core w browser s = new_context w browser None s
      /\ (raises w (trace s) (NewContext browser None) = None ->
          Solver._setup_context core w browser s
          = (Ret (length (trace s)), log (NewContext browser None) s))).
Proof.
  intros Hcore Hlegacy Hfile Hdraw.
  rewrite (setup_context_drawn core w browser s lines proxy Hcore Hfile Hdraw).
  rewrite (open_context_drawn legacy w browser s lines proxy Hlegacy Hfile Hdraw).
  split; [|split].
  - intros ->. split; reflexivity.
  - intros scheme host port user pass ->. split; reflexivity.
  - intros H3 H5.
    apply Nat.eqb_neq in H3. apply Nat.eqb_neq in H5.
    assert (Hopen : Legacy.open_context legacy w browser s
                    = (Raise (ValueError "Invalid proxy format"), s)).
    { rewrite (open_context_drawn legacy w browser s lines proxy Hlegacy Hfile Hdraw).
      rewrite H3, H5. reflexivity. }
    rewrite H3, H5. split; [reflexivity|]. split; [|split].
    + intros s0 index url sitekey action cdata Hget.
      eapply solve_turnstile_setup_raises; eassumption.
    + reflexivity.
    + intros Hok. unfold new_context. rewrite run_ask, Hok. reflexivity.
Qed.

Lemma proxy_entry_parsing_witness :
  Solver._setup_context (Scenario.solver true)
    (Scenario.with_proxies Scenario.plain_proxy Scenario.idle) 10
    (Scenario.ready [(2, 20)]%nat)
  = (Ret 0%nat,
     log (NewContext 10 (Some {[ "server" := PStr "socks5:1.2.3.4:1080" ]}))
       (Scenario.ready [(2, 20)]%nat))
  /\ Legacy.open_context (Scenario.server true)
       (Scenario.with_proxies Scenario.auth_proxy Scenario.idle) 10
       (Scenario.ready [(2, 20)]%nat)
     = (Ret 0%nat,
        log (NewContext 10 (Some {[ "server" := PStr "http://1.2.3.4:8080";
                                    "username" := PStr "user";
                                    "password" := PStr "pass" ]}))
          (Scenario.ready [(2, 20)]%nat))
  /\ Legacy.open_context (Scenario.server true)
       (Scenario.with_proxies Scenario.bad_proxy Scenario.idle) 10
       (Scenario.ready [(2, 20)]%nat)
     = (Raise (ValueError "Invalid proxy format"), Scenario.ready [(2, 20)]%nat)
  /\ Solver._setup_context (Scenario.solver true)
       (Scenario.with_proxies Scenario.bad_proxy Scenario.idle) 10
       (Scenario.ready [(2, 20)]%nat)
     = (Ret 0%nat, log (NewContext 10 None) (Scenario.ready [(2, 20)]%nat)).
Proof.
  split; [|split; [|split]].
  - destruct (proxy_entry_parsing (Scenario.solver true) (Scenario.server true)
      (Scenario.with_proxies Scenario.plain_proxy Scenario.idle) 10%nat
      (Scenario.ready [(2, 20)]%nat) _ "socks5:1.2.3.4:1080"
      eq_refl eq_refl eq_refl eq_refl) as (Hplain & _ & _).
    destruct (Hplain eq_refl) as (-> & _). reflexivity.
  - destruct (proxy_entry_parsing (Scenario.solver true) (Scenario.server true)
      (Scenario.with_proxies Scenario.auth_proxy Scenario.idle) 10%nat
      (Scenario.ready [(2, 20)]%nat) _ "http:1.2.3.4:8080:user:pass"
      eq_refl eq_refl eq_refl eq_refl) as (_ & Hauth & _).
    destruct (Hauth "http" "1.2.3.4" "8080" "user" "pass" eq_refl) as (_ & ->).
    reflexivity.
  - destruct (proxy_entry_parsing (Scenario.solver true) (Scenario.server true)
      (Scenario.with_proxies Scenario.bad_proxy Scenario.idle) 10%nat
      (Scenario.ready [(2, 20)]%nat) _ "bad:format"
      eq_refl eq_refl eq_refl eq_refl) as (_ & _ & Hother).
    apply Hother; simpl; lia.
  - destruct (proxy_entry_parsing (Scenario.solver true) (Scenario.server true)
      (Scenario.with_proxies Scenario.bad_proxy Scenario.idle) 10%nat
      (Scenario.ready [(2, 20)]%nat) _ "bad:format"
      eq_refl eq_refl eq_refl eq_refl) as (_ & _ & Hother).
    apply Hother; [simpl; lia | simpl; lia | reflexivity].
Defined.

(** ** Contexts without a proxy *)

(** Where both components agree: with proxy support off, or with a list
    that holds no non-blank line, the context is created without a proxy;
    so does the solver core when the list is missing. *)
Lemma context_without_proxy (core : Solver.TurnstileSolver)
    (legacy : Legacy.TurnstileAPIServer) (w : world) (browser : nat) (s : state) :
  (Solver.proxy_support core = false \/ proxies_txt w = Missing
   \/ (exists ls, proxies_txt w = Lines ls /\ stripped_lines ls = []) ->
   Solver._setup_context core w browser s = new_context w browser None s)
  /\ (Legacy.proxy_support legacy = false
      \/ (exists ls, proxies_txt w = Lines ls /\ stripped_lines ls = []) ->
      Legacy.open_context legacy w browser s = new_context w browser None s).
Proof.
  split.
  - unfold Solver._setup_context.
    destruct (Solver.proxy_support core); [|reflexivity]. cbn [negb].
    intros [H|[H|(ls & H & Hnone)]]; [discriminate| |]; rewrite H; [reflexivity|].
    unfold read_lines. rewrite H, run_bind, run_ret, Hnone. reflexivity.
  - unfold Legacy.open_context.
    destruct (Legacy.proxy_support legacy); [|reflexivity].
    intros [H|(ls & H & Hnone)]; [discriminate|].
    unfold read_lines. rewrite H, run_bind, run_ret, Hnone. reflexivity.
Qed.

(** The legacy server opens the list without asking whether it exists. *)
Lemma open_context_missing_list (legacy : Legacy.TurnstileAPIServer) (w : world)
    (browser : nat) (s : state) :
  Legacy.proxy_support legacy = true -> proxies_txt w = Missing ->
  Legacy.open_context legacy w browser s
  = (Raise (FileNotFoundError ("[Errno 2] No such file or directory: '"
                               +:+ in_cwd w "proxies.txt" +:+ "'")), s).
Proof.
  intros Hon Hfile. unfold Legacy.open_context, read_lines. rewrite Hon, Hfile.
  reflexivity.
Qed.

(** C4, where the code departs from it.  Proxy support on and no
    [proxies.txt] in the working directory: the legacy server's
    [_solve_turnstile] creates no context at all; [FileNotFoundError]
    escapes, and the slot it took is not in the pool afterwards.  The
    solver core, in the same world, creates a context without a proxy. *)
Theorem legacy_missing_proxy_list_raises :
  Legacy._solve_turnstile (Scenario.server true) Scenario.idle
    "https://example.com" "0x4AAAAAAAB" None None (Scenario.ready [(1, 10)]%nat)
  = (Raise (FileNotFoundError "[Errno 2] No such file or directory: '/srv/proxies.txt'"),
     {| browser_pool := []; ticks := 0; trace := [PoolGet (1, 10)%nat] |})
  /\ Solver._setup_context (Scenario.solver true) Scenario.idle 10
       {| browser_pool := []; ticks := 0; trace := [PoolGet (1, 10)%nat] |}
     = (Ret 1%nat,
        {| browser_pool := []; ticks := 0;
           trace := [PoolGet (1, 10)%nat; NewContext 10 None] |}).
Proof. split; reflexivity. Qed.

(** ** Pool slots *)

(** C1, where the code departs from it.  The legacy server with proxy
    support on and a proxy line of two fields: [_solve_turnstile] takes
    the only slot, [ValueError] escapes before the [try], and the slot is
    never put back; the pool stays empty and the next call waits forever. *)
Theorem legacy_invalid_proxy_leaks_slot :
  let w := Scenario.with_proxies Scenario.bad_proxy Scenario.idle in
  let started :=
    {| browser_pool := [(1, 1)%nat]; ticks := 0;
       trace := [PlaywrightStart; Launch (Some "chromium") false []; PoolPut (1, 1)%nat] |} in
  let leaked := log (PoolGet (1, 1)%nat)
                  {| browser_pool := []; ticks := 0; trace := trace started |} in
  Legacy._initialize_browser (Scenario.server true) w Scenario.fresh = (Ret tt, started)
  /\ Legacy._solve_turnstile (Scenario.server true) w
       "https://example.com" "0x4AAAAAAAB" None None started
     = (Raise (ValueError "Invalid proxy format"), leaked)
  /\ browser_pool leaked = []
  /\ ~ In (PoolPut (1, 1)%nat) (skipn 3 (trace leaked))
  /\ Legacy._solve_turnstile (Scenario.server true) w
       "https://example.com" "0x4AAAAAAAB" None None leaked
     = (Block, leaked).
Proof.
  repeat split. simpl. intros [H|[]]. discriminate.
Qed.

(** The solver core does put the slot back: a call of [solve] on a pool
    that holds a slot returns, and the pool has as many slots as before. *)
Lemma solve_keeps_pool_size (self : Solver.TurnstileSolver) (w : world)
    (url sitekey action cdata : option string) (s : state) :
  browser_pool s <> [] ->
  exists d s',
    Solver.solve self w url sitekey action cdata s = (Ret d, s')
    /\ length (browser_pool s') = length (browser_pool s).
Proof.
  intros Hpool.
  destruct (truthy url) eqn:Hu; [destruct (truthy sitekey) eqn:Hk|].
  - pose proof (solve_valid_outcome self w url sitekey action cdata s Hu Hk) as Hout.
    destruct (browser_pool s) as [|sl rest]; [congruence|].
    destruct Hout as (d & s' & Hrun & _ & Hp).
    exists d, s'. split; [exact Hrun|]. rewrite Hp, length_app. simpl. lia.
  - eexists. exists s. split; [|reflexivity].
    apply solve_rejects. right. exact Hk.
  - eexists. exists s. split; [|reflexivity].
    apply solve_rejects. left. exact Hu.
Qed.

(** Any number of calls of [solve] in a row on a pool that holds a slot:
    each returns, and the pool has as many slots as at the start. *)
Lemma solve_each_keeps_pool_size (self : Solver.TurnstileSolver) (w : world)
    (reqs : list request) :
  forall s, browser_pool s <> [] ->
  exists ds s',
    solve_each self w reqs s = (Ret ds, s')
    /\ length ds = length reqs
    /\ length (browser_pool s') = length (browser_pool s).
Proof.
  induction reqs as [|[[[url sitekey] action] cdata] reqs IH]; intros s Hpool.
  - exists [], s. repeat split.
  - destruct (solve_keeps_pool_size self w url sitekey action cdata s Hpool)
      as (d & s1 & Hrun & Hlen).
    assert (Hpool1 : browser_pool s1 <> []).
    { intros Hnil. rewrite Hnil in Hlen. destruct (browser_pool s); [congruence|discriminate]. }
    destruct (IH s1 Hpool1) as (ds & s' & Hrest & Hds & Hlen').
    exists (d :: ds), s'. simpl. rewrite run_bind, Hrun. cbv iota beta.
    rewrite run_bind, Hrest. split; [reflexivity|].
    split; [simpl; congruence | congruence].
Qed.

Lemma create_browser_ensures (self : Solver.TurnstileSolver) (w : world) (index : nat) :
  ensures (Solver._create_browser self w index) (fun _ => True).
Proof.
  unfold Solver._create_browser.
  apply ensures_try.
  - destruct (Solver.chromium_family (Solver.browser_type self)); [ensure|].
    destruct (String.eqb (Solver.browser_type self) "camoufox"); ensure.
  - intros e. destruct (Solver.chromium_family (Solver.browser_type self)); ensure.
Qed.

(** [initialize], when it returns, has added [thread_count] slots. *)
Lemma initialize_pool_size (self : Solver.TurnstileSolver) (w : world) (s s' : state) (b : bool) :
  Solver.initialize self w s = (Ret b, s') ->
  length (browser_pool s') = (length (browser_pool s) + Solver.thread_count self)%nat.
Proof.
  unfold Solver.initialize. rewrite run_bind.
  match goal with |- context [?m s] =>
    assert (Hstart : ensures m (fun _ => True))
  end.
  { destruct (Solver.chromium_family (Solver.browser_type self)); [ensure|].
    destruct (String.eqb (Solver.browser_type self) "camoufox"); ensure. }
  match type of Hstart with ensures ?m _ => destruct (m s) as [r1 s1] eqn:E1 end.
  destruct (Hstart _ _ _ E1) as ((Hp1 & _) & _ & _).
  destruct r1 as [[]|e|]; [|discriminate|discriminate].
  rewrite run_bind. rewrite <- Hp1. clear E1 Hp1 Hstart s.
  assert (Hloop : forall xs s r s2,
    for_each xs (fun i =>
      browser ← Solver._create_browser self w (i + 1)%nat;
      pool_put ((i + 1)%nat, browser) ;;
      mret (None : option unit)) s = (Ret r, s2) ->
    length (browser_pool s2) = (length (browser_pool s) + length xs)%nat).
  { induction xs as [|x xs IH]; intros s r s2; simpl.
    - intros [= <- <-]. lia.
    - rewrite run_bind, run_bind.
      destruct (Solver._create_browser self w (x + 1)%nat s) as [rb sb] eqn:Eb.
      destruct (create_browser_ensures _ _ _ _ _ _ Eb) as ((Hpb & _) & _ & _).
      destruct rb as [browser|e|]; [|discriminate|discriminate].
      rewrite run_bind, run_pool_put. cbv iota beta. rewrite run_ret.
      intros Hrest. rewrite (IH _ _ _ Hrest). simpl. rewrite length_app, Hpb. simpl. lia. }
  match goal with |- context [for_each ?xs ?body s1] =>
    destruct (for_each xs body s1) as [r2 s2] eqn:E2
  end.
  destruct r2 as [o|e|]; [|discriminate|discriminate].
  intros [= <- <-]. rewrite (Hloop _ _ _ _ E2). unfold range. rewrite length_seq. reflexivity.
Qed.

(** ** The legacy server's attempt *)


Lemma steady_put_back (sl : slot) (s1 s2 s3 : state) :
  steady s1 s2 -> put_back sl s2 s3 -> put_back sl s1 s3.
Proof.
  intros (Hp1 & Ht1 & k1 & Hk1) (Hp2 & Ht2 & k2 & Hk2).
  split; [congruence|]. split; [lia|].
  exists (k1 ++ k2)%list. rewrite Hk2, Hk1. symmetry. apply app_assoc.
Qed.

Ltac steady_steps :=
  repeat first
    [ apply steady_refl
    | apply steady_log
    | eapply steady_trans; [|apply steady_log] ].


(** A round of the legacy polling loop ends in one of three ways: nothing
    yet; the final [raise] of round 14; or success, after the context is
    closed and the slot put back. *)
Lemma legacy_poll_once_outcome (w : world) (context : nat) (sl : slot) (start_time : Q)
    (attempt : nat) (s s' : state) (r : res (option pydict)) :
  Legacy.poll_once w context sl start_time attempt s = (r, s') ->
  (r = Ret None /\ steady s s')
  \/ (r = Raise timeout_15 /\ steady s s')
  \/ (exists d, r = Ret (Some d) /\ Spec.timed_success d /\ put_back sl s s'
                /\ input_value w (trace s) <> "").
Proof.
  unfold Legacy.poll_once. rewrite run_try, run_bind, run_ask.
  assert (Hhandler : forall s1, steady s s1 ->
    (if (attempt <? 14)%nat then sleep 500 ;; mret None
     else raise (Exception "Failed to get Turnstile token after 15 attempts")) s1 = (r, s') ->
    (r = Ret None /\ steady s s') \/ (r = Raise timeout_15 /\ steady s s')
    \/ (exists d, r = Ret (Some d) /\ Spec.timed_success d /\ put_back sl s s'
                  /\ input_value w (trace s) <> "")).
  { intros s1 Hs1. destruct (attempt <? 14)%nat; intros [= <- <-].
    - left. split; [reflexivity|]. eapply steady_trans; [exact Hs1|apply steady_log].
    - right. left. split; [reflexivity | exact Hs1]. }
  destruct (raises w (trace s) (InputValue "[name=cf-turnstile-response]" 2000)) as [e|].
  { apply Hhandler. apply steady_log. }
  destruct (String.eqb_spec (input_value w (trace s)) "") as [Eempty|Etoken].
  - rewrite run_bind, run_call.
    destruct (raises w _ (LocatorClick "//div[@class='cf-turnstile']" 1000)) as [e|].
    + apply Hhandler. steady_steps.
    + intros [= <- <-]. left. split; [reflexivity|]. steady_steps.
  - rewrite run_bind, run_time. cbv iota beta zeta. rewrite run_bind.
    unfold context_close. rewrite run_call.
    match goal with
    | |- context [raises w ?h (ContextClose context)] =>
        destruct (raises w h (ContextClose context)) as [e|]
    end.
    + apply Hhandler.
      eapply steady_trans; [|apply steady_log].
      eapply steady_trans; [apply steady_log|].
      split; [reflexivity|]. split; [simpl; lia|]. exists []. simpl. symmetry. apply app_nil_r.
    + intros [= <- <-]. right. right. eexists. split; [reflexivity|].
      split; [split; [reflexivity | eexists; reflexivity]|].
      split; [|exact Etoken].
      split; [reflexivity|]. split; [simpl; lia|].
      simpl. eexists. rewrite <- !app_assoc. reflexivity.
Qed.

Lemma legacy_poll_loop_outcome (w : world) (context : nat) (sl : slot) (start_time : Q)
    (xs : list nat) :
  forall (s s' : state) (r : res (option pydict)),
  for_each xs (Legacy.poll_once w context sl start_time) s = (r, s') ->
  (r = Ret None /\ steady s s')
  \/ (r = Raise timeout_15 /\ steady s s')
  \/ (exists d k, r = Ret (Some d) /\ Spec.timed_success d /\ put_back sl s s'
                  /\ input_value w (trace s ++ k)%list <> "").
Proof.
  induction xs as [|x xs IH]; intros s s' r; simpl.
  - intros [= <- <-]. left. split; [reflexivity | apply steady_refl].
  - rewrite run_bind.
    destruct (Legacy.poll_once w context sl start_time x s) as [r1 s1] eqn:E1.
    destruct (legacy_poll_once_outcome _ _ _ _ _ _ _ _ E1)
      as [[-> H1]|[[-> H1]|(d & -> & Hd & H1 & Htok)]].
    + intros Hrest.
      destruct (IH _ _ _ Hrest) as [[-> H2]|[[-> H2]|(d & k & -> & Hd & H2 & Htok)]].
      * left. split; [reflexivity|]. eapply steady_trans; eassumption.
      * right. left. split; [reflexivity|]. eapply steady_trans; eassumption.
      * right. right. destruct H1 as (Hp1 & Ht1 & k1 & Hk1).
        exists d, (k1 ++ k)%list. split; [reflexivity|]. split; [exact Hd|].
        split.
        -- eapply steady_put_back; [|exact H2].
           split; [exact Hp1|]. split; [exact Ht1|]. exists k1. exact Hk1.
        -- rewrite app_assoc, <- Hk1. exact Htok.
    + intros [= <- <-]. right. left. split; [reflexivity | exact H1].
    + intros [= <- <-]. right. right. exists d, []. split; [reflexivity|].
      split; [exact Hd|]. split; [exact H1|]. rewrite app_nil_r. exact Htok.
Qed.

(** The body of the [try] either raises with the pool untouched, or
    returns a success after putting the slot back. *)
Lemma attempt_body_outcome (self : Legacy.TurnstileAPIServer) (w : world) (context : nat)
    (sl : slot) (url sitekey : string) (action cdata : option string) (start_time : Q)
    (s s' : state) (r : res pydict) :
  Legacy.attempt_body self w context sl url sitekey action cdata start_time s = (r, s') ->
  (exists e, r = Raise e /\ steady s s')
  \/ (exists d k, r = Ret d /\ Spec.timed_success d /\ put_back sl s s'
                  /\ input_value w (trace s ++ k)%list <> "").
Proof.
  unfold Legacy.attempt_body. cbv zeta.
  rewrite run_bind.
  match goal with |- context [call w ?ev s] => destruct (call w ev s) as [r1 s1] eqn:E1 end.
  destruct (ensures_call _ _ _ _ _ E1) as (H1 & Hb1 & _).
  destruct r1 as [[]|e|]; [|intros [= <- <-]; left; eexists; split; [reflexivity|exact H1]
                           |congruence].
  rewrite run_bind.
  match goal with |- context [call w ?ev s1] => destruct (call w ev s1) as [r2 s2] eqn:E2 end.
  destruct (ensures_call _ _ _ _ _ E2) as (H2 & Hb2 & _).
  assert (H12 := steady_trans _ _ _ H1 H2).
  destruct r2 as [[]|e|]; [|intros [= <- <-]; left; eexists; split; [reflexivity|exact H12]
                           |congruence].
  rewrite run_bind.
  match goal with |- context [call w ?ev s2] => destruct (call w ev s2) as [r3 s3] eqn:E3 end.
  destruct (ensures_call _ _ _ _ _ E3) as (H3 & Hb3 & _).
  assert (H13 := steady_trans _ _ _ H12 H3).
  destruct r3 as [[]|e|]; [|intros [= <- <-]; left; eexists; split; [reflexivity|exact H13]
                           |congruence].
  rewrite run_bind.
  destruct (for_each (range 15) (Legacy.poll_once w context sl start_time) s3)
    as [r4 s4] eqn:E4.
  destruct (legacy_poll_loop_outcome _ _ _ _ _ _ _ _ E4)
    as [[-> H4]|[[-> H4]|(d & k & -> & Hd & H4 & Htok)]].
  - intros [= <- <-]. left. eexists. split; [reflexivity|].
    eapply steady_trans; eassumption.
  - intros [= <- <-]. left. eexists. split; [reflexivity|].
    eapply steady_trans; eassumption.
  - intros [= <- <-]. right. destruct H13 as (Hp & Ht & k3 & Hk3).
    exists d, (k3 ++ k)%list. split; [reflexivity|]. split; [exact Hd|]. split.
    + eapply steady_put_back; [|exact H4].
      split; [exact Hp|]. split; [exact Ht|]. exists k3. exact Hk3.
    + rewrite app_assoc, <- Hk3. exact Htok.
Qed.

Lemma served_here (w : world) (s : state) (ev : event) :
  Spec.served_from w s -> Spec.may_time_out ev = false -> raises w (trace s) ev = None.
Proof. intros H Hev. rewrite <- (app_nil_r (trace s)). apply H, Hev. Qed.

Lemma served_steady (w : world) (s s' : state) :
  Spec.served_from w s -> steady s s' -> Spec.served_from w s'.
Proof.
  intros H (_ & _ & k & Hk) k' ev Hev. rewrite Hk, <- app_assoc. apply H, Hev.
Qed.

Lemma no_input_steady (w : world) (s s' : state) :
  Spec.no_input_from w s -> steady s s' -> Spec.no_input_from w s'.
Proof. intros H (_ & _ & k & Hk) k'. rewrite Hk, <- app_assoc. apply H. Qed.


(** A served call returns. *)
Lemma run_call_served (w : world) (ev : event) (s : state) :
  Spec.served_from w s -> Spec.may_time_out ev = false ->
  call w ev s = (Ret tt, log ev s).
Proof. intros H Hev. rewrite run_call, (served_here w s ev H Hev). reflexivity. Qed.

(** While the field reads empty, the legacy polling loop finds nothing,
    or gives up in round 14. *)
Lemma legacy_poll_loop_times_out (w : world) (context : nat) (sl : slot) (start_time : Q)
    (xs : list nat) (s s' : state) (r : res (option pydict)) :
  Spec.no_input_from w s ->
  for_each xs (Legacy.poll_once w context sl start_time) s = (r, s') ->
  (r = Ret None \/ r = Raise timeout_15) /\ steady s s'.
Proof.
  intros Hempty Hrun.
  destruct (legacy_poll_loop_outcome _ _ _ _ _ _ _ _ Hrun)
    as [[-> H]|[[-> H]|(d & k & _ & _ & _ & Htok)]].
  - split; [left; reflexivity | exact H].
  - split; [right; reflexivity | exact H].
  - exfalso. apply Htok, Hempty.
Qed.

Lemma attempt_body_times_out (self : Legacy.TurnstileAPIServer) (w : world) (context : nat)
    (sl : slot) (url sitekey : string) (action cdata : option string) (start_time : Q)
    (s : state) :
  Spec.served_from w s -> Spec.no_input_from w s ->
  exists s',
    Legacy.attempt_body self w context sl url sitekey action cdata start_time s
    = (Raise timeout_15, s')
    /\ steady s s'.
Proof.
  intros Hserved Hempty. unfold Legacy.attempt_body. cbv zeta.
  rewrite run_bind, run_call_served; [cbv iota beta | exact Hserved | reflexivity].
  match goal with |- context [log ?ev s] => set (s1 := log ev s) end.
  assert (H1 : steady s s1) by apply steady_log.
  rewrite run_bind, run_call_served;
    [cbv iota beta | exact (served_steady _ _ _ Hserved H1) | reflexivity].
  match goal with |- context [log ?ev s1] => set (s2 := log ev s1) end.
  assert (H2 : steady s s2) by (eapply steady_trans; [exact H1 | apply steady_log]).
  rewrite run_bind, run_call_served;
    [cbv iota beta | exact (served_steady _ _ _ Hserved H2) | reflexivity].
  match goal with |- context [log ?ev s2] => set (s3 := log ev s2) end.
  assert (H3 : steady s s3) by (eapply steady_trans; [exact H2 | apply steady_log]).
  rewrite run_bind.
  destruct (for_each (range 15) (Legacy.poll_once w context sl start_time) s3)
    as [r4 s4] eqn:E4.
  destruct (legacy_poll_loop_times_out _ _ _ _ _ _ _ _ (no_input_steady _ _ _ Hempty H3) E4)
    as [[-> | ->] H4]; exists s4; (split; [reflexivity|]);
    eapply steady_trans; eassumption.
Qed.

(** ** Elapsed time *)

Lemma round_half_even_nonneg (n d : Z) : 0 <= n -> 0 < d -> 0 <= round_half_even n d.
Proof.
  intros Hn Hd. unfold round_half_even.
  assert (Hq : 0 <= n / d) by (apply Z.div_pos; lia).
  destruct (2 * (n mod d) <? d); [exact Hq|].
  destruct (d <? 2 * (n mod d)); [lia|].
  destruct (Z.even (n / d)); lia.
Qed.

Lemma round3_nonneg (x : Q) : (0 <= x)%Q -> (0 <= round3 x)%Q.
Proof.
  intros Hx. unfold round3, Qle in *. simpl in *.
  rewrite Z.mul_1_r in *.
  assert (0 <= round_half_even (Qnum x * 1000) (Z.pos (Qden x))); [|lia].
  apply round_half_even_nonneg; lia.
Qed.

Lemma round3_three_decimals (x : Q) : Spec.three_decimals (round3 x).
Proof. eexists. reflexivity. Qed.

(** The time between two readings of a clock that does not run backwards,
    as the results report it. *)
Lemma double_nonneg (q : Q) : (0 <= q)%Q -> (0 <= double q)%Q.
Proof.
  intros Hq. unfold double. destruct q as [[|n|n] d]; simpl.
  - apply Qle_refl.
  - unfold nearest, Qle. simpl. rewrite Z.mul_1_r.
    apply Z.mul_nonneg_nonneg; [|apply Z.pow_nonneg; lia].
    apply round_half_even_nonneg.
    + apply Z.mul_nonneg_nonneg; [lia | apply Z.pow_nonneg; lia].
    + apply Z.mul_pos_pos; [lia | apply Z.pow_pos_nonneg; lia].
  - exfalso. unfold Qle in Hq. simpl in Hq. lia.
Qed.

Lemma elapsed_nonneg (w : world) (i j : nat) :
  Spec.monotone w -> (i <= j)%nat -> (0 <= round3 (fsub (clock w j) (clock w i)))%Q.
Proof.
  intros Hmono Hij. apply round3_nonneg, double_nonneg.
  apply (proj1 (Qle_minus_iff (clock w i) (clock w j))). apply Hmono, Hij.
Qed.

(** ** The legacy server: time-out and clean-up *)

Lemma open_context_ensures (self : Legacy.TurnstileAPIServer) (w : world) (browser : nat) :
  ensures (Legacy.open_context self w browser) (fun _ => True).
Proof.
  unfold Legacy.open_context.
  destruct (Legacy.proxy_support self); ensure.
Qed.

(** [_solve_turnstile] from the [try] on, once the slot is taken and the
    context and page exist. *)
Lemma solve_turnstile_from_try (self : Legacy.TurnstileAPIServer) (w : world)
    (url sitekey : string) (action cdata : option string)
    (s0 s1 s1' s2 : state) (index browser context page : nat) :
  pool_get s0 = (Ret (index, browser), s1) ->
  Legacy.open_context self w browser s1 = (Ret context, s1') ->
  new_page w context s1' = (Ret page, s2) ->
  Legacy._solve_turnstile self w url sitekey action cdata s0
  = try_except
      (Legacy.attempt_body self w context (index, browser) url sitekey action cdata
         (clock w (ticks s2)))
      (Legacy.outer_handler w context (index, browser) (clock w (ticks s2)))
      {| browser_pool := browser_pool s2; ticks := S (ticks s2); trace := trace s2 |}
  /\ steady s1 s2.
Proof.
  intros Hget Hopen Hpage. unfold Legacy._solve_turnstile.
  rewrite run_bind, Hget. cbv iota beta.
  rewrite run_bind, Hopen. cbv iota beta.
  rewrite run_bind, Hpage. cbv iota beta.
  rewrite run_bind, run_time. split; [reflexivity|].
  destruct (open_context_ensures _ _ _ _ _ _ Hopen) as (H1 & _ & _).
  destruct (ensures_new_page _ _ _ _ _ Hpage) as (H2 & _ & _).
  eapply steady_trans; eassumption.
Qed.

(** The outer handler, when closing the context succeeds. *)
Lemma run_outer_handler (w : world) (context : nat) (sl : slot) (start_time : Q)
    (e : exn) (s : state) :
  raises w (trace s) (ContextClose context) = None ->
  Legacy.outer_handler w context sl start_time e s
  = (Ret {[ "status" := PStr "error"; "error" := PStr (str_exn e);
            "time" := PFloat (round3 (fsub (clock w (ticks s)) start_time)) ]},
     {| browser_pool := (browser_pool s ++ [sl])%list; ticks := S (ticks s);
        trace := (trace s ++ [ContextClose context; PoolPut sl])%list |}).
Proof.
  intros Hclose. unfold Legacy.outer_handler, context_close.
  rewrite run_bind, run_time. cbv iota beta zeta.
  rewrite run_bind, run_call. simpl trace. rewrite Hclose. cbv iota beta.
  rewrite run_bind, run_pool_put. cbv iota beta. rewrite run_ret.
  unfold log. simpl. rewrite <- app_assoc. reflexivity.
Qed.

(** The handler when closing the context succeeds.  Once the legacy
    server holds a slot, a context and a page:
    (1) every exception that escapes the [try] body is handled by closing
    the context, then putting the slot back, then returning the error
    result with [str(e)] and the elapsed time, provided that closing
    returns;
    (2) when no driver call but the polling ones raises and the response
    field never holds a token during the 15 rounds, the result is the
    error "Failed to get Turnstile token after 15 attempts" with an
    elapsed time, after the same clean-up. *)
Theorem legacy_timeout_and_cleanup (self : Legacy.TurnstileAPIServer) (w : world)
    (url sitekey : string) (action cdata : option string)
    (s0 s1 s1' s2 : state) (index browser context page : nat) :
  pool_get s0 = (Ret (index, browser), s1) ->
  Legacy.open_context self w browser s1 = (Ret context, s1') ->
  new_page w context s1' = (Ret page, s2) ->
  let start_time := clock w (ticks s2) in
  let s3 := {| browser_pool := browser_pool s2; ticks := S (ticks s2); trace := trace s2 |} in
  (forall e s4,
      Legacy.attempt_body self w context (index, browser) url sitekey action cdata
        start_time s3 = (Raise e, s4) ->
      raises w (trace s4) (ContextClose context) = None ->
      Legacy._solve_turnstile self w url sitekey action cdata s0
      = (Ret {[ "status" := PStr "error"; "error" := PStr (str_exn e);
                "time" := PFloat (round3 (fsub (clock w (ticks s4)) start_time)) ]},
         {| browser_pool := (browser_pool s1 ++ [(index, browser)])%list;
            ticks := S (ticks s4);
            trace := (trace s4 ++ [ContextClose context; PoolPut (index, browser)])%list |}))
  /\ (Spec.served_from w s3 -> Spec.no_input_from w s3 -> Spec.monotone w ->
      exists t s5,
        Legacy._solve_turnstile self w url sitekey action cdata s0
        = (Ret {[ "status" := PStr "error";
                  "error" := PStr "Failed to get Turnstile token after 15 attempts";
                  "time" := PFloat t ]}, s5)
        /\ (0 <= t)%Q /\ Spec.three_decimals t
        /\ browser_pool s5 = (browser_pool s1 ++ [(index, browser)])%list
        /\ exists k : list event,
             trace s5 = (trace s3 ++ k ++ [ContextClose context; PoolPut (index, browser)])%list).
Proof.
  intros Hget Hopen Hpage start_time s3.
  destruct (solve_turnstile_from_try self w url sitekey action cdata _ _ _ _ _ _ _ _
              Hget Hopen Hpage) as (Hrun & H12).
  fold start_time in Hrun. fold s3 in Hrun.
  assert (Hraise : forall e s4,
      Legacy.attempt_body self w context (index, browser) url sitekey action cdata
        start_time s3 = (Raise e, s4) ->
      raises w (trace s4) (ContextClose context) = None ->
      Legacy._solve_turnstile self w url sitekey action cdata s0
      = (Ret {[ "status" := PStr "error"; "error" := PStr (str_exn e);
                "time" := PFloat (round3 (fsub (clock w (ticks s4)) start_time)) ]},
         {| browser_pool := (browser_pool s1 ++ [(index, browser)])%list;
            ticks := S (ticks s4);
            trace := (trace s4 ++ [ContextClose context; PoolPut (index, browser)])%list |})).
  { intros e s4 Hbody Hclose. rewrite Hrun, run_try, Hbody.
    rewrite (run_outer_handler w context (index, browser) start_time e s4 Hclose).
    destruct (attempt_body_outcome _ _ _ _ _ _ _ _ _ _ _ _ Hbody)
      as [(e' & _ & (Hp & _))|(d & k & Hd & _)]; [|discriminate].
    rewrite Hp. simpl. destruct H12 as (-> & _). reflexivity. }
  split; [exact Hraise|].
  intros Hserved Hempty Hmono.
  destruct (attempt_body_times_out self w context (index, browser) url sitekey action cdata
              start_time s3 Hserved Hempty) as (s4 & Hbody & H34).
  assert (Hclose : raises w (trace s4) (ContextClose context) = None).
  { apply served_here; [|reflexivity]. eapply served_steady; eassumption. }
  eexists. eexists. split; [apply (Hraise _ _ Hbody Hclose)|].
  split; [|split; [apply round3_three_decimals|split; [reflexivity|]]].
  - apply elapsed_nonneg; [exact Hmono|]. destruct H34 as (_ & Ht & _). simpl in Ht. lia.
  - destruct H34 as (_ & _ & k & Hk). exists k. simpl. rewrite Hk, <- app_assoc. reflexivity.
Qed.

Lemma idle_monotone : Spec.monotone Scenario.idle.
Proof.
  intros i j Hij. unfold Qle. simpl. nia.
Qed.

Lemma legacy_timeout_and_cleanup_witness :
  exists t s5,
    Legacy._solve_turnstile (Scenario.server false) Scenario.idle
      "https://example.com" "0x4AAAAAAAB" None None (Scenario.ready [(1, 10)]%nat)
    = (Ret {[ "status" := PStr "error";
              "error" := PStr "Failed to get Turnstile token after 15 attempts";
              "time" := PFloat t ]}, s5)
    /\ (0 <= t)%Q
    /\ browser_pool s5 = [(1, 10)]%nat.
Proof.
  edestruct (legacy_timeout_and_cleanup (Scenario.server false) Scenario.idle
               "https://example.com" "0x4AAAAAAAB" None None
               (Scenario.ready [(1, 10)]%nat)) as (_ & Htimeout);
    [reflexivity | reflexivity | reflexivity |].
  destruct Htimeout as (t & s5 & Hrun & Ht & _ & Hpool & _).
  - intros k ev _. reflexivity.
  - intros k. reflexivity.
  - exact idle_monotone.
  - exists t, s5. split; [exact Hrun|]. split; [exact Ht | exact Hpool].
Defined.

Example legacy_timeout_run :
  fst (Legacy._solve_turnstile (Scenario.server false) Scenario.idle
         "https://example.com" "0x4AAAAAAAB" None None (Scenario.ready [(1, 10)]%nat))
  = Ret {[ "status" := PStr "error";
           "error" := PStr "Failed to get Turnstile token after 15 attempts";
           "time" := PFloat (Qmake 1062 1000) ]}.
Proof. vm_compute. reflexivity. Qed.

(** The outer handler, when closing the context raises: the exception of
    [context.close()] leaves the handler before the slot is put back. *)
Lemma run_outer_handler_close_raises (w : world) (context : nat) (sl : slot)
    (start_time : Q) (e e' : exn) (s : state) :
  raises w (trace s) (ContextClose context) = Some e' ->
  Legacy.outer_handler w context sl start_time e s
  = (Raise e',
     {| browser_pool := browser_pool s; ticks := S (ticks s);
        trace := (trace s ++ [ContextClose context])%list |}).
Proof.
  intros Hclose. unfold Legacy.outer_handler, context_close.
  rewrite run_bind, run_time. cbv iota beta zeta.
  rewrite run_bind, run_call. simpl trace. rewrite Hclose. reflexivity.
Qed.

(** C7.  The outer handler of the legacy [_solve_turnstile] closes the
    context before it puts the slot back, and nothing guards the closing.
    Once the server holds a slot, a context and a page: when an exception
    [e] escapes the [try] body (the 15-attempts one included) and
    [context.close()] raises [e'] in the handler, it is [e'] that escapes
    [_solve_turnstile]; no error result is returned, the last effect is
    the failed closing, and the pool is left as it was after the slot was
    taken, so the slot is lost.  On a pool that held this one slot, the
    next call waits forever. *)
Theorem legacy_close_failure_leaks_slot (self : Legacy.TurnstileAPIServer) (w : world)
    (url sitekey : string) (action cdata : option string)
    (s0 s1 s1' s2 s4 : state) (index browser context page : nat) (e e' : exn) :
  pool_get s0 = (Ret (index, browser), s1) ->
  Legacy.open_context self w browser s1 = (Ret context, s1') ->
  new_page w context s1' = (Ret page, s2) ->
  Legacy.attempt_body self w context (index, browser) url sitekey action cdata
    (clock w (ticks s2))
    {| browser_pool := browser_pool s2; ticks := S (ticks s2); trace := trace s2 |}
  = (Raise e, s4) ->
  raises w (trace s4) (ContextClose context) = Some e' ->
  let s5 := {| browser_pool := browser_pool s1; ticks := S (ticks s4);
               trace := (trace s4 ++ [ContextClose context])%list |} in
  Legacy._solve_turnstile self w url sitekey action cdata s0 = (Raise e', s5)
  /\ browser_pool s0 = ((index, browser) :: browser_pool s5)%list
  /\ (browser_pool s1 = [] ->
      forall url' sitekey' action' cdata',
        Legacy._solve_turnstile self w url' sitekey' action' cdata' s5 = (Block, s5)).
Proof.
  intros Hget Hopen Hpage Hbody Hclose s5.
  destruct (solve_turnstile_from_try self w url sitekey action cdata _ _ _ _ _ _ _ _
              Hget Hopen Hpage) as (Hrun & H12).
  split; [|split].
  - rewrite Hrun, run_try, Hbody.
    rewrite (run_outer_handler_close_raises w context (index, browser) _ e e' s4 Hclose).
    destruct (attempt_body_outcome _ _ _ _ _ _ _ _ _ _ _ _ Hbody)
      as [(e0 & _ & (Hp & _))|(d & k & Hd & _)]; [|discriminate].
    unfold s5. rewrite Hp. simpl. destruct H12 as (-> & _). reflexivity.
  - unfold pool_get in Hget. destruct (browser_pool s0) as [|sl rest]; [discriminate|].
    injection Hget as -> <-. reflexivity.
  - intros Hempty url' sitekey' action' cdata'.
    unfold Legacy._solve_turnstile. rewrite run_bind, run_pool_get_empty; [reflexivity|].
    exact Hempty.
Qed.

Lemma legacy_close_failure_leaks_slot_witness :
  Legacy._solve_turnstile (Scenario.server false) Scenario.crashed
    "https://example.com" "0x4AAAAAAAB" None None (Scenario.ready [(1, 10)]%nat)
  = (Raise (DriverError "Target page, context or browser has been closed"),
     {| browser_pool := []; ticks := 2;
        trace := [PoolGet (1, 10)%nat; NewContext 10 None; NewPage 1;
                  PageRoute "https://example.com/"
                    ("<body><div class=" +:+ dq +:+ "cf-turnstile" +:+ dq +:+ " style=" +:+ dq
                     +:+ "background: white;" +:+ dq +:+ " data-sitekey=" +:+ dq
                     +:+ "0x4AAAAAAAB" +:+ dq +:+ "></div></body>");
                  PageGoto "https://example.com/";
                  ContextClose 1] |}).
Proof.
  refine (eq_trans (proj1 (legacy_close_failure_leaks_slot (Scenario.server false)
            Scenario.crashed "https://example.com" "0x4AAAAAAAB" None None
            (Scenario.ready [(1, 10)]%nat) _ _ _ _ 1%nat 10%nat 1%nat 1%nat
            (DriverError "Target page, context or browser has been closed")
            (DriverError "Target page, context or browser has been closed")
            eq_refl eq_refl eq_refl eq_refl eq_refl)) _).
  reflexivity.
Defined.

(** With a context that cannot be closed, the time-out of the polling loop
    does not come back as an error result either. *)
Example legacy_timeout_unclosable :
  fst (Legacy._solve_turnstile (Scenario.server false) Scenario.unclosable
         "https://example.com" "0x4AAAAAAAB" None None (Scenario.ready [(1, 10)]%nat))
  = Raise (DriverError "Connection closed")
  /\ browser_pool
       (snd (Legacy._solve_turnstile (Scenario.server false) Scenario.unclosable
               "https://example.com" "0x4AAAAAAAB" None None (Scenario.ready [(1, 10)]%nat)))
     = [].
Proof. vm_compute. split; reflexivity. Qed.

(** ** The [/turnstile] endpoint *)

Lemma outer_handler_result (w : world) (context : nat) (sl : slot) (start_time : Q)
    (e : exn) (s s' : state) (d : pydict) :
  Legacy.outer_handler w context sl start_time e s = (Ret d, s') -> Spec.timed_error d.
Proof.
  unfold Legacy.outer_handler, context_close.
  rewrite run_bind, run_time. cbv iota beta zeta. rewrite run_bind, run_call.
  match goal with
  | |- context [raises w ?h (ContextClose context)] =>
      destruct (raises w h (ContextClose context))
  end; [discriminate|].
  intros [= <- <-]. split; [reflexivity|]. eexists. reflexivity.
Qed.

(** Whatever [_solve_turnstile] returns is a success or an error result. *)
Lemma solve_turnstile_result (self : Legacy.TurnstileAPIServer) (w : world)
    (url sitekey : string) (action cdata : option string) (s s' : state) (d : pydict) :
  Legacy._solve_turnstile self w url sitekey action cdata s = (Ret d, s') ->
  Spec.timed_success d \/ Spec.timed_error d.
Proof.
  unfold Legacy._solve_turnstile. rewrite run_bind.
  destruct (pool_get s) as [[[index browser]|e|] s1]; [|discriminate|discriminate].
  cbv iota beta. rewrite run_bind.
  destruct (Legacy.open_context self w browser s1) as [[context|e|] s2];
    [|discriminate|discriminate].
  rewrite run_bind.
  destruct (new_page w context s2) as [[page|e|] s3]; [|discriminate|discriminate].
  rewrite run_bind, run_time. cbv iota beta. rewrite run_try.
  match goal with
  | |- context [Legacy.attempt_body ?a ?b ?c ?d ?e ?f ?g ?h ?i ?j] =>
      destruct (Legacy.attempt_body a b c d e f g h i j) as [r4 s4] eqn:E4
  end.
  destruct (attempt_body_outcome _ _ _ _ _ _ _ _ _ _ _ _ E4)
    as [(e & -> & _)|(d' & k & -> & Hd & _)].
  - intros Hh. right. eapply outer_handler_result, Hh.
  - intros [= <- <-]. left. exact Hd.
Qed.

(** C8.  [GET /turnstile]: without [url] or [sitekey] (absent or empty)
    the answer is 400 with the fixed error body and nothing else happens;
    otherwise the result of the solve routine is the body, with 200 when
    its status is "success" and 422 when it is "error" (it is one of the
    two); an exception that escapes the solve routine is answered by 500
    with its message. *)
Theorem process_turnstile_status (self : Legacy.TurnstileAPIServer) (w : world)
    (args : gmap string string) (s : state) :
  (truthy (args !! "url") = false \/ truthy (args !! "sitekey") = false ->
     Legacy.process_turnstile self w args s
     = (Ret ({[ "status" := PStr "error";
                "error" := PStr "Both 'url' and 'sitekey' are required" ]}, 400), s))
  /\ (truthy (args !! "url") = true -> truthy (args !! "sitekey") = true ->
      forall r s',
        Legacy._solve_turnstile self w (default "" (args !! "url"))
          (default "" (args !! "sitekey")) (args !! "action") (args !! "cdata") s = (r, s') ->
        match r with
        | Ret result =>
            (result !! "status" = Some (PStr "success")
             /\ Legacy.process_turnstile self w args s = (Ret (result, 200), s'))
            \/ (result !! "status" = Some (PStr "error")
                /\ Legacy.process_turnstile self w args s = (Ret (result, 422), s'))
        | Raise e =>
            Legacy.process_turnstile self w args s
            = (Ret ({[ "status" := PStr "error"; "error" := PStr (str_exn e) ]}, 500), s')
        | Block => Legacy.process_turnstile self w args s = (Block, s')
        end).
Proof.
  split.
  - intros H. unfold Legacy.process_turnstile.
    replace (negb (truthy (args !! "url")) || negb (truthy (args !! "sitekey"))) with true;
      [reflexivity|].
    destruct H as [-> | ->]; [reflexivity|]. symmetry. apply orb_true_r.
  - intros Hu Hk r s' Hrun. unfold Legacy.process_turnstile. rewrite Hu, Hk.
    change (negb true || negb true) with false. cbv iota.
    rewrite run_try, run_bind, Hrun.
    destruct r as [result|e|]; [|reflexivity|reflexivity].
    destruct (solve_turnstile_result _ _ _ _ _ _ _ _ _ Hrun) as [[Hst _]|[Hst _]];
      rewrite Hst; [left|right]; (split; [reflexivity|]); reflexivity.
Qed.

Lemma process_turnstile_status_witness :
  Legacy.process_turnstile (Scenario.server false) Scenario.idle
    {[ "url" := "https://example.com" ]} (Scenario.ready [(1, 10)]%nat)
  = (Ret ({[ "status" := PStr "error";
             "error" := PStr "Both 'url' and 'sitekey' are required" ]}, 400),
     Scenario.ready [(1, 10)]%nat)
  /\ Legacy.process_turnstile (Scenario.server true)
       (Scenario.with_proxies Scenario.bad_proxy Scenario.idle)
       {[ "url" := "https://example.com"; "sitekey" := "0x4AAAAAAAB" ]}
       (Scenario.ready [(1, 10)]%nat)
     = (Ret ({[ "status" := PStr "error"; "error" := PStr "Invalid proxy format" ]}, 500),
        {| browser_pool := []; ticks := 0; trace := [PoolGet (1, 10)%nat] |}).
Proof.
  split.
  - apply (process_turnstile_status (Scenario.server false) Scenario.idle
             {[ "url" := "https://example.com" ]} (Scenario.ready [(1, 10)]%nat)).
    right. reflexivity.
  - exact (proj2 (process_turnstile_status (Scenario.server true)
             (Scenario.with_proxies Scenario.bad_proxy Scenario.idle)
             {[ "url" := "https://example.com"; "sitekey" := "0x4AAAAAAAB" ]}
             (Scenario.ready [(1, 10)]%nat)) eq_refl eq_refl
             (Raise (ValueError "Invalid proxy format"))
             {| browser_pool := []; ticks := 0; trace := [PoolGet (1, 10)%nat] |} eq_refl).
Defined.

Example process_turnstile_timeout_422 :
  exists body s',
    Legacy.process_turnstile (Scenario.server false) Scenario.idle
      {[ "url" := "https://example.com"; "sitekey" := "0x4AAAAAAAB" ]}
      (Scenario.ready [(1, 10)]%nat) = (Ret (body, 422), s')
    /\ body !! "error" = Some (PStr "Failed to get Turnstile token after 15 attempts").
Proof. eexists. eexists. split; vm_compute; reflexivity. Qed.

(** ** The solver core: time-out *)








Example solve_success_run :
  exists s',
    Solver.solve (Scenario.solver false) (Scenario.solved_after 3 "0.tok")
      (Some "https://example.com") (Some "0x4AAAAAAAB") None None
      (Scenario.ready [(1, 10); (2, 20)]%nat)
    = (Ret {[ "status" := PStr "success"; "token" := PStr "0.tok";
              "time" := PFloat (Qmake 1062 1000) ]}, s')
    /\ browser_pool s' = [(2, 20); (1, 10)]%nat
    /\ last (trace s') = Some (PoolPut (1, 10)%nat).
Proof. eexists. split; [vm_compute; reflexivity|]. split; reflexivity. Qed.

Example legacy_success_run :
  exists s',
    Legacy._solve_turnstile (Scenario.server false) (Scenario.solved_after 3 "0.tok")
      "https://example.com" "0x4AAAAAAAB" None None (Scenario.ready [(1, 10)]%nat)
    = (Ret {[ "status" := PStr "success"; "token" := PStr "0.tok";
              "time" := PFloat (Qmake 1062 1000) ]}, s')
    /\ browser_pool s' = [(1, 10)]%nat.
Proof. eexists. split; [vm_compute; reflexivity|]. reflexivity. Qed.

Example solve_timeout_run :
  fst (Solver.solve (Scenario.solver false) Scenario.idle
         (Some "https://example.com") (Some "0x4AAAAAAAB") None None
         (Scenario.ready [(1, 10); (2, 20)]%nat))
  = Ret {[ "status" := PStr "error";
           "error" := PStr "Failed to get Turnstile token after 30 attempts";
           "time" := PFloat (Qmake 1062 1000) ]}.
Proof. vm_compute. reflexivity. Qed.

(** * Further properties of the code *)

(** ** Choosing the user agent *)

Lemma choice_in (w : world) (x : string) (xs : list string) (s : state) :
  exists ua, SolverInit.choice w x xs s = (Ret ua, s) /\ In ua (x :: xs).
Proof.
  unfold SolverInit.choice. rewrite run_bind.
  destruct (random_choice w (x :: xs) s) as [r s1] eqn:E.
  unfold random_choice in E. injection E as <- <-. cbv iota beta.
  eexists. split; [reflexivity|].
  cbn [default from_option id].
  assert (Hlen : length (x :: xs) <> 0%nat) by discriminate.
  exact (nth_In (x :: xs) x (Nat.mod_upper_bound (draw w (trace s)) (length (x :: xs)) Hlen)).
Qed.

Lemma agent_lines_truthy (ls : list string) (ua : string) :
  In ua (SolverInit.agent_lines ls) -> ua <> "".
Proof.
  unfold SolverInit.agent_lines. rewrite in_map_iff. intros (line & <- & Hin).
  apply List.filter_In in Hin. destruct Hin as (_ & Hkeep).
  apply andb_prop in Hkeep. destruct Hkeep as (Hkeep & _).
  unfold truthy_str in Hkeep. intros Hempty. rewrite Hempty in Hkeep. discriminate.
Qed.

(** The run of [_get_random_user_agent], whatever the file. *)
Lemma get_random_user_agent_run (w : world) (user_agents_txt : file) (s : state) :
  exists ua,
    SolverInit._get_random_user_agent w user_agents_txt s = (Ret ua, s)
    /\ In ua (match user_agents_txt with
              | Lines ls =>
                  match SolverInit.agent_lines ls with
                  | [] => SolverInit.fallback_user_agents
                  | entries => entries
                  end
              | _ => SolverInit.fallback_user_agents
              end)
    /\ ua <> "".
Proof.
  assert (Hfallback : forall s1, exists ua,
    SolverInit.choice w SolverInit.chrome_windows
      [SolverInit.chrome_linux; SolverInit.firefox_windows] s1 = (Ret ua, s1)
    /\ In ua SolverInit.fallback_user_agents /\ ua <> "").
  { intros s1. destruct (choice_in w SolverInit.chrome_windows
      [SolverInit.chrome_linux; SolverInit.firefox_windows] s1) as (ua & Hrun & Hin).
    exists ua. split; [exact Hrun|]. split; [exact Hin|].
    destruct Hin as [<-|[<-|[<-|[]]]]; discriminate. }
  unfold SolverInit._get_random_user_agent. cbv zeta. rewrite run_try, run_bind.
  destruct user_agents_txt as [|e|ls].
  - rewrite run_ret. cbv iota beta. destruct (Hfallback s) as (ua & -> & Hin & Hne).
    exists ua. repeat split; assumption.
  - unfold SolverInit.read_file. rewrite run_bind. unfold raise at 1. cbv iota beta.
    destruct (Hfallback s) as (ua & -> & Hin & Hne).
    exists ua. repeat split; assumption.
  - unfold SolverInit.read_file. rewrite run_bind, run_ret. cbv iota beta.
    destruct (SolverInit.agent_lines ls) as [|x xs] eqn:Elines.
    + rewrite run_ret. cbv iota beta. destruct (Hfallback s) as (ua & -> & Hin & Hne).
      exists ua. repeat split; assumption.
    + rewrite run_bind. destruct (choice_in w x xs s) as (ua & -> & Hin).
      cbv iota beta. rewrite !run_ret. exists ua. split; [reflexivity|].
      split; [exact Hin|]. apply (agent_lines_truthy ls). rewrite Elines. exact Hin.
Qed.

(** X1.  [_get_random_user_agent] always returns, without touching the
    pool, the clock or the driver.  When the file can be read and holds at
    least one entry (a line that is not blank and does not begin with '#'),
    the agent is one of its entries, stripped; in every other case (file
    missing, unreadable, or without entries) it is one of the three
    fall-back agents.  It is never the empty string. *)
Theorem user_agent_selection (w : world) (user_agents_txt : file) (s : state) :
  exists ua,
    SolverInit._get_random_user_agent w user_agents_txt s = (Ret ua, s)
    /\ In ua (match user_agents_txt with
              | Lines ls =>
                  match SolverInit.agent_lines ls with
                  | [] => SolverInit.fallback_user_agents
                  | entries => entries
                  end
              | _ => SolverInit.fallback_user_agents
              end)
    /\ ua <> "".
Proof. apply get_random_user_agent_run. Qed.

(** X2.  The constructor always yields a solver whose user agent is not
    empty: the one given when it is a non-empty string, a drawn one when
    [None] or the empty string is given.  So the launch arguments always
    begin with the user-agent flag, followed by the six fixed flags, and
    end with [--headless=new] exactly when the solver is headless.  The
    new solver starts with an empty pool: until [initialize] has run, the
    health endpoint answers "down, Solver pool empty". *)
Theorem solver_constructor_user_agent (template : string) (w : world) (user_agents_txt : file)
    (headless : bool) (thread : nat) (browser_type : string) (proxy_support : bool)
    (useragent : option string) (s : state) :
  let built := {| browser_pool := []; ticks := ticks s; trace := trace s |} in
  exists self,
    SolverInit.__init__ template w user_agents_txt headless thread browser_type
      proxy_support useragent s = (Ret self, built)
    /\ Solver.useragent self <> ""
    /\ (forall ua, useragent = Some ua -> ua <> "" -> Solver.useragent self = ua)
    /\ Solver.browser_args self
       = (["--user-agent=" +:+ Solver.useragent self;
           "--no-sandbox"; "--disable-dev-shm-usage"; "--disable-gpu";
           "--disable-blink-features=AutomationControlled"; "--disable-web-security";
           "--disable-features=IsolateOrigins,site-per-process"]
          ++ (if headless then ["--headless=new"] else []))%list
    /\ (Solver.headless self, Solver.thread_count self, Solver.browser_type self,
        Solver.proxy_support self) = (headless, thread, browser_type, proxy_support)
    /\ App.health_check (Some self) w built
       = {[ "status" := PStr "down"; "message" := PStr "Solver pool empty" ]}.
Proof.
  intros built.
  assert (Hargs : forall self, Solver.useragent self <> "" ->
    Solver.browser_args self
    = (["--user-agent=" +:+ Solver.useragent self;
        "--no-sandbox"; "--disable-dev-shm-usage"; "--disable-gpu";
        "--disable-blink-features=AutomationControlled"; "--disable-web-security";
        "--disable-features=IsolateOrigins,site-per-process"]
       ++ (if Solver.headless self then ["--headless=new"] else []))%list).
  { intros self Hne. unfold Solver.browser_args, truthy_str.
    destruct (String.eqb_spec (Solver.useragent self) ""); [contradiction|reflexivity]. }
  unfold SolverInit.__init__. rewrite run_bind.
  destruct (truthy useragent) eqn:Hgiven.
  - destruct useragent as [ua|]; [|discriminate]. rewrite run_ret. cbv iota beta.
    eexists. split; [reflexivity|].
    assert (Hne : ua <> "").
    { intros ->. discriminate. }
    split; [exact Hne|]. split; [intros ua' [= <-] _; reflexivity|].
    split; [apply Hargs; exact Hne|]. split; reflexivity.
  - destruct (get_random_user_agent_run w user_agents_txt s) as (ua & -> & _ & Hne).
    cbv iota beta. eexists. split; [reflexivity|].
    split; [exact Hne|]. split.
    + intros ua' -> Hne'. exfalso. simpl in Hgiven. unfold truthy_str in Hgiven.
      destruct (String.eqb_spec ua' ""); [contradiction|discriminate].
    + split; [apply Hargs; exact Hne|]. split; reflexivity.
Qed.

(** ** Filling the pool *)

(** The launching loop of [initialize] from index [a] on: however it
    ends, the slots it added carry the indices [a+1], [a+2], ... in order;
    all [n] of them when it returns, fewer when an exception escapes. *)
Lemma launch_loop_slots (self : Solver.TurnstileSolver) (w : world) (n : nat) :
  forall (a : nat) (s s' : state) (r : res (option unit)),
  for_each (seq a n) (fun i =>
    browser ← Solver._create_browser self w (i + 1)%nat;
    pool_put ((i + 1)%nat, browser) ;;
    mret (None : option unit)) s = (r, s') ->
  exists browsers : list nat,
    browser_pool s' = (browser_pool s ++ combine (seq (a + 1) (length browsers)) browsers)%list
    /\ match r with
       | Ret _ => length browsers = n
       | Raise _ => (length browsers < n)%nat
       | Block => False
       end.
Proof.
  induction n as [|n IH]; intros a s s' r; simpl.
  - intros [= <- <-]. exists []. simpl. rewrite app_nil_r. split; reflexivity.
  - rewrite run_bind, run_bind.
    destruct (Solver._create_browser self w (a + 1)%nat s) as [rb sb] eqn:Eb.
    destruct (create_browser_ensures _ _ _ _ _ _ Eb) as ((Hpb & _) & Hnb & _).
    destruct rb as [browser|e|]; [| |congruence].
    + rewrite run_bind, run_pool_put. cbv iota beta. rewrite run_ret.
      intros Hrest. destruct (IH _ _ _ _ Hrest) as (browsers & Hpool & Hr).
      exists (browser :: browsers). split.
      * rewrite Hpool. simpl browser_pool. rewrite Hpb, <- app_assoc. simpl.
        replace (S a) with (a + 1)%nat by lia.
        replace (S (a + 1)) with (a + 1 + 1)%nat by lia. reflexivity.
      * destruct r; simpl; [lia | lia | exact Hr].
    + intros [= <- <-]. exists []. simpl. rewrite app_nil_r. split; [congruence | lia].
Qed.

(** The first statement of [initialize] leaves the pool alone. *)
Lemma initialize_engine_ensures (self : Solver.TurnstileSolver) (w : world) :
  ensures
    (if Solver.chromium_family (Solver.browser_type self) then call w PlaywrightStart
     else if String.eqb (Solver.browser_type self) "camoufox" then mret tt
     else raise (ValueError ("Unsupported browser type: " +:+ Solver.browser_type self)))
    (fun _ => True).
Proof.
  destruct (Solver.chromium_family (Solver.browser_type self)); [ensure|].
  destruct (String.eqb (Solver.browser_type self) "camoufox"); ensure.
Qed.

(** X3.  However [initialize] ends, it never waits, and the slots it has
    put in the pool by then are numbered 1, 2, ... in order behind the
    slots already there.  When it returns, it returns [True] and these are
    exactly [thread_count] slots; when an exception escapes, they are
    fewer, and they stay in the pool: nothing is taken back or closed. *)
Theorem initialize_slots (self : Solver.TurnstileSolver) (w : world) (s s' : state)
    (r : res bool) :
  Solver.initialize self w s = (r, s') ->
  exists browsers : list nat,
    browser_pool s' = (browser_pool s ++ combine (seq 1 (length browsers)) browsers)%list
    /\ match r with
       | Ret b => b = true /\ length browsers = Solver.thread_count self
       | Raise _ => (length browsers < Solver.thread_count self)%nat
                    \/ Solver.thread_count self = 0%nat /\ browsers = []
       | Block => False
       end.
Proof.
  unfold Solver.initialize. rewrite run_bind.
  match goal with |- context [?m s] =>
    match type of m with M unit => destruct (m s) as [r1 s1] eqn:E1 end
  end.
  destruct (initialize_engine_ensures self w _ _ _ E1) as ((Hp1 & _) & Hb1 & _).
  destruct r1 as [[]|e|]; [| |congruence].
  - rewrite run_bind. unfold range.
    match goal with |- context [for_each ?xs ?body s1] =>
      destruct (for_each xs body s1) as [r2 s2] eqn:E2
    end.
    destruct (launch_loop_slots self w _ _ _ _ _ E2) as (browsers & Hpool & Hr).
    rewrite Hp1 in Hpool. simpl in Hpool.
    destruct r2 as [o|e|]; [| |contradiction].
    + intros [= <- <-]. exists browsers. split; [exact Hpool|]. split; [reflexivity|exact Hr].
    + intros [= <- <-]. exists browsers. split; [exact Hpool|]. left. exact Hr.
  - intros [= <- <-]. exists []. simpl. rewrite app_nil_r. split; [exact Hp1|].
    destruct (Solver.thread_count self) eqn:En; [right; split; reflexivity | left; simpl; lia].
Qed.

Lemma initialize_slots_witness :
  exists browsers : list nat,
    browser_pool (snd (Solver.initialize (Scenario.solver false) Scenario.idle Scenario.fresh))
    = ([] ++ combine (seq 1 (length browsers)) browsers)%list
    /\ (true = true /\ length browsers = 2%nat).
Proof.
  exact (initialize_slots (Scenario.solver false) Scenario.idle Scenario.fresh
           (snd (Solver.initialize (Scenario.solver false) Scenario.idle Scenario.fresh))
           (Ret true) eq_refl).
Defined.

Example initialize_fails_midway :
  Solver.initialize (Scenario.solver false) Scenario.flaky Scenario.fresh
  = (Raise (DriverError "launch failed"),
     {| browser_pool := [(1, 1)%nat]; ticks := 0;
        trace := [PlaywrightStart;
                  Launch None true (Solver.browser_args (Scenario.solver false));
                  PoolPut (1, 1)%nat;
                  Launch None true (Solver.browser_args (Scenario.solver false));
                  Launch None true ["--no-sandbox"; "--disable-dev-shm-usage"]] |}).
Proof. reflexivity. Qed.

(** X4.  A browser type outside chromium, chrome, msedge and camoufox:
    the solver core's [initialize] raises [ValueError] at once, with no
    driver call and the pool as it was.  The legacy server's
    [_initialize_browser] has no such test: it raises [UnboundLocalError]
    at the first slot when [thread] is positive, and returns with an empty
    hand when [thread] is 0 or negative. *)
Theorem initialize_unsupported_browser (core : Solver.TurnstileSolver)
    (legacy : Legacy.TurnstileAPIServer) (w : world) (s : state) :
  ~ In (Solver.browser_type core) Launcher.browser_types ->
  ~ In (Legacy.browser_type legacy) Launcher.browser_types ->
  Solver.initialize core w s
  = (Raise (ValueError ("Unsupported browser type: " +:+ Solver.browser_type core)), s)
  /\ Legacy._initialize_browser legacy w s
     = if 0 <? Legacy.thread_count legacy
       then (Raise (UnboundLocalError
               "cannot access local variable 'browser' where it is not associated with a value"),
             s)
       else (Ret tt, s).
Proof.
  assert (Hnames : forall bt, ~ In bt Launcher.browser_types ->
    Solver.chromium_family bt = false /\ String.eqb bt "camoufox" = false).
  { intros bt Hn. unfold Solver.chromium_family.
    destruct (String.eqb_spec bt "chromium") as [->|_]; [exfalso; apply Hn; simpl; tauto|].
    destruct (String.eqb_spec bt "chrome") as [->|_]; [exfalso; apply Hn; simpl; tauto|].
    destruct (String.eqb_spec bt "msedge") as [->|_]; [exfalso; apply Hn; simpl; tauto|].
    destruct (String.eqb_spec bt "camoufox") as [->|_]; [exfalso; apply Hn; simpl; tauto|].
    split; reflexivity. }
  intros Hcore Hlegacy.
  destruct (Hnames _ Hcore) as (Hc1 & Hc2). destruct (Hnames _ Hlegacy) as (Hl1 & Hl2).
  split.
  - unfold Solver.initialize. rewrite Hc1, Hc2. reflexivity.
  - unfold Legacy._initialize_browser. rewrite Hl1, Hl2.
    destruct (Z.ltb_spec 0 (Legacy.thread_count legacy)) as [Hpos|Hneg].
    + destruct (Z.to_nat (Legacy.thread_count legacy)) eqn:En; [lia | reflexivity].
    + replace (Z.to_nat (Legacy.thread_count legacy)) with 0%nat by lia. reflexivity.
Qed.

Lemma initialize_unsupported_browser_witness :
  Solver.initialize
    {| Solver.HTML_TEMPLATE := ""; Solver.headless := true; Solver.thread_count := 2;
       Solver.browser_type := "firefox"; Solver.proxy_support := false;
       Solver.useragent := "Mozilla/5.0" |} Scenario.idle Scenario.fresh
  = (Raise (ValueError "Unsupported browser type: firefox"), Scenario.fresh).
Proof.
  refine (proj1 (initialize_unsupported_browser _
    {| Legacy.HTML_TEMPLATE := ""; Legacy.browser_type := "firefox"; Legacy.headless := false;
       Legacy.useragent := None; Legacy.thread_count := 1; Legacy.proxy_support := false |}
    Scenario.idle Scenario.fresh _ _)).
  - simpl. intros [H|[H|[H|[H|[]]]]]; discriminate.
  - simpl. intros [H|[H|[H|[H|[]]]]]; discriminate.
Defined.

(** ** The status snapshot *)

Lemma length_take_str (n : nat) (s : string) :
  (String.length (take_str n s) <= n)%nat.
Proof.
  unfold take_str. revert s. induction n as [|n IH]; intros s.
  - destruct s; simpl; lia.
  - destruct s as [|c s]; simpl; [lia|]. specialize (IH s). lia.
Qed.

Lemma length_append (a b : string) :
  String.length (a +:+ b) = (String.length a + String.length b)%nat.
Proof. induction a as [|c a IH]; simpl; [reflexivity | rewrite IH; reflexivity]. Qed.

(** X5.  [get_status] is consistent: [initialized] is true exactly when
    [pool_size] is positive, [pool_size] is the number of free slots, and
    the reported user agent is never longer than 53 characters: the agent
    itself up to 50 characters, otherwise its first 50 followed by three
    dots. *)
Theorem get_status_consistent (self : Solver.TurnstileSolver) (w : world) (s : state) :
  exists (initialized : bool) (pool_size : Z) (user_agent : string),
    Solver.get_status self w s !! "initialized" = Some (PBool initialized)
    /\ Solver.get_status self w s !! "pool_size" = Some (PInt pool_size)
    /\ Solver.get_status self w s !! "user_agent" = Some (PStr user_agent)
    /\ pool_size = Z.of_nat (length (browser_pool s))
    /\ (initialized = true <-> 0 < pool_size)
    /\ (String.length user_agent <= 53)%nat
    /\ ((String.length (Solver.useragent self) <= 50)%nat /\ user_agent = Solver.useragent self
        \/ (50 < String.length (Solver.useragent self))%nat
           /\ user_agent = take_str 50 (Solver.useragent self) +:+ "...").
Proof.
  eexists. eexists. eexists.
  split; [reflexivity|]. split; [reflexivity|]. split; [reflexivity|].
  split; [reflexivity|]. split; [|split].
  - destruct (browser_pool s) as [|sl rest]; simpl.
    + split; [discriminate | lia].
    + split; [lia | reflexivity].
  - destruct (Nat.ltb_spec 50 (String.length (Solver.useragent self))) as [Hlong|Hshort].
    + rewrite length_append. pose proof (length_take_str 50 (Solver.useragent self)).
      simpl. lia.
    + lia.
  - destruct (Nat.ltb_spec 50 (String.length (Solver.useragent self))) as [Hlong|Hshort].
    + right. split; [exact Hlong | reflexivity].
    + left. split; [exact Hshort | reflexivity].
Qed.

(** ** The solver core: what a call of [solve] can and cannot do *)

(** X6.  [solve] never lets an exception escape.  Either it returns a
    result whose status is "success" or "error", and then the pool holds
    as many slots as before; or it waits, which happens only when both
    required fields are given and the pool is empty. *)
Theorem solve_never_raises (self : Solver.TurnstileSolver) (w : world)
    (url sitekey action cdata : option string) (s : state) :
  (exists d s',
     Solver.solve self w url sitekey action cdata s = (Ret d, s')
     /\ (d !! "status" = Some (PStr "success") \/ d !! "status" = Some (PStr "error"))
     /\ length (browser_pool s') = length (browser_pool s))
  \/ (exists s',
        Solver.solve self w url sitekey action cdata s = (Block, s')
        /\ truthy url = true /\ truthy sitekey = true /\ browser_pool s = []).
Proof.
  destruct (truthy url) eqn:Hu; [destruct (truthy sitekey) eqn:Hk|].
  - pose proof (solve_valid_outcome self w url sitekey action cdata s Hu Hk) as Hout.
    destruct (browser_pool s) as [|sl rest] eqn:Epool.
    + right. destruct Hout as (s' & Hrun). exists s'. repeat split; assumption.
    + left. destruct Hout as (d & s' & Hrun & Hd & Hp). exists d, s'.
      split; [exact Hrun|]. split.
      * destruct Hd as [[H _]|[H _]]; [left | right]; exact H.
      * rewrite Hp, length_app. simpl. lia.
  - left. eexists. exists s. split; [apply solve_rejects; right; exact Hk|].
    split; [right; reflexivity | reflexivity].
  - left. eexists. exists s. split; [apply solve_rejects; left; exact Hu|].
    split; [right; reflexivity | reflexivity].
Qed.

(** One call on a pool that holds a slot: the slots afterwards are the
    slots before, in some order. *)
Lemma solve_permutes_pool (self : Solver.TurnstileSolver) (w : world)
    (url sitekey action cdata : option string) (s : state) :
  browser_pool s <> [] ->
  exists d s',
    Solver.solve self w url sitekey action cdata s = (Ret d, s')
    /\ browser_pool s' ≡ₚ browser_pool s.
Proof.
  intros Hpool.
  destruct (truthy url) eqn:Hu; [destruct (truthy sitekey) eqn:Hk|].
  - pose proof (solve_valid_outcome self w url sitekey action cdata s Hu Hk) as Hout.
    destruct (browser_pool s) as [|sl rest]; [congruence|].
    destruct Hout as (d & s' & Hrun & _ & Hp).
    exists d, s'. split; [exact Hrun|]. rewrite Hp. symmetry. apply Permutation_cons_append.
  - eexists. exists s. split; [apply solve_rejects; right; exact Hk | reflexivity].
  - eexists. exists s. split; [apply solve_rejects; left; exact Hu | reflexivity].
Qed.

(** X7.  Any number of calls of [solve], one after the other, on a pool
    that holds at least one slot: every call returns a result, and the
    pool afterwards holds exactly the slots it held at the start, none
    lost and none twice. *)
Theorem solve_sequence_conserves_pool (self : Solver.TurnstileSolver) (w : world)
    (reqs : list request) (s : state) :
  browser_pool s <> [] ->
  exists ds s',
    solve_each self w reqs s = (Ret ds, s')
    /\ length ds = length reqs
    /\ browser_pool s' ≡ₚ browser_pool s.
Proof.
  revert s. induction reqs as [|[[[url sitekey] action] cdata] reqs IH]; intros s Hpool.
  - exists [], s. split; [reflexivity|]. split; reflexivity.
  - destruct (solve_permutes_pool self w url sitekey action cdata s Hpool)
      as (d & s1 & Hrun & Hperm).
    assert (Hpool1 : browser_pool s1 <> []).
    { intros Hnil. rewrite Hnil in Hperm. symmetry in Hperm.
      apply Permutation_nil_r in Hperm. contradiction. }
    destruct (IH s1 Hpool1) as (ds & s' & Hrest & Hds & Hperm').
    exists (d :: ds), s'. simpl. rewrite run_bind, Hrun. cbv iota beta.
    rewrite run_bind, Hrest. split; [reflexivity|].
    split; [simpl; congruence | etransitivity; eassumption].
Qed.

Lemma solve_sequence_conserves_pool_witness :
  exists ds s',
    solve_each (Scenario.solver false) (Scenario.solved_after 3 "0.tok")
      [(Some "https://example.com", Some "0x4AAAAAAAB", None, None);
       (Some "https://example.com", None, None, None);
       (Some "https://example.org", Some "0x4AAAAAAAB", Some "login", None)]
      (Scenario.ready [(1, 10); (2, 20)]%nat) = (Ret ds, s')
    /\ length ds = 3%nat
    /\ browser_pool s' ≡ₚ [(1, 10); (2, 20)]%nat.
Proof.
  refine (solve_sequence_conserves_pool (Scenario.solver false)
            (Scenario.solved_after 3 "0.tok")
            [(Some "https://example.com", Some "0x4AAAAAAAB", None, None);
             (Some "https://example.com", None, None, None);
             (Some "https://example.org", Some "0x4AAAAAAAB", Some "login", None)]
            (Scenario.ready [(1, 10); (2, 20)]%nat) _).
  simpl. discriminate.
Defined.

(** X8.  When an exception escapes the page-solve step, [solve] reads the
    clock, puts the slot back and returns the error result with the
    exception's message; between the failure and the return the only
    effect is that [put]: the context that was opened for the call is not
    closed on this path. *)
Theorem solve_page_failure_skips_close (self : Solver.TurnstileSolver) (w : world)
    (url sitekey action cdata : option string) (s0 s2 s3 s4 : state)
    (index browser context page : nat) (rest : list slot) (e : exn) :
  truthy url = true -> truthy sitekey = true ->
  browser_pool s0 = (index, browser) :: rest ->
  Solver._setup_context self w browser
    {| browser_pool := rest; ticks := S (ticks s0);
       trace := (trace s0 ++ [PoolGet (index, browser)])%list |} = (Ret context, s2) ->
  new_page w context s2 = (Ret page, s3) ->
  Solver._solve_on_page self w page (default "" url) (default "" sitekey) action cdata
    (clock w (ticks s0)) s3 = (Raise e, s4) ->
  Solver.solve self w url sitekey action cdata s0
  = (Ret {[ "status" := PStr "error"; "error" := PStr (str_exn e);
            "time" := PFloat (round3 (fsub (clock w (ticks s4)) (clock w (ticks s0)))) ]},
     {| browser_pool := (rest ++ [(index, browser)])%list; ticks := S (ticks s4);
        trace := (trace s4 ++ [PoolPut (index, browser)])%list |})
  /\ exists k : list event,
       trace s4 = (trace s0 ++ PoolGet (index, browser) :: k)%list.
Proof.
  intros Hu Hk Hpool Hsetup Hpage Hfail.
  destruct (setup_context_ensures _ _ _ _ _ _ Hsetup) as (H12 & _ & _).
  destruct (ensures_new_page _ _ _ _ _ Hpage) as (H23 & _ & _).
  destruct (solve_on_page_ensures _ _ _ _ _ _ _ _ _ _ _ Hfail) as (H34 & _ & _).
  assert (H14 := steady_trans _ _ _ H12 (steady_trans _ _ _ H23 H34)).
  destruct H14 as (Hp & _ & k & Htrace). simpl in Hp, Htrace.
  split.
  - unfold Solver.solve. rewrite Hu, Hk.
    change (negb true || negb true) with false. cbv iota.
    rewrite run_bind, run_time. cbv iota beta. rewrite run_bind.
    erewrite run_pool_get_cons by exact Hpool. cbv iota beta.
    rewrite run_try, run_bind. simpl ticks. simpl trace. rewrite Hsetup. cbv iota beta.
    rewrite run_bind, Hpage. cbv iota beta. rewrite run_bind, Hfail. cbv iota beta.
    rewrite run_bind, run_time. cbv iota beta zeta.
    rewrite run_bind, run_pool_put. cbv iota beta. rewrite run_ret. simpl.
    rewrite Hp. reflexivity.
  - exists k. rewrite Htrace, <- app_assoc. reflexivity.
Qed.

Lemma solve_page_failure_skips_close_witness :
  exists s',
    Solver.solve (Scenario.solver false) Scenario.idle
      (Some "https://example.com") (Some "0x4AAAAAAAB") None None
      (Scenario.ready [(1, 10); (2, 20)]%nat)
    = (Ret {[ "status" := PStr "error";
              "error" := PStr "Failed to get Turnstile token after 30 attempts";
              "time" := PFloat (Qmake 1062 1000) ]}, s')
    /\ last (trace s') = Some (PoolPut (1, 10)%nat)
    /\ ~ In (ContextClose 1) (trace s').
Proof.
  pose (run := Solver._solve_on_page (Scenario.solver false) Scenario.idle 1
                 "https://example.com" "0x4AAAAAAAB" None None (clock Scenario.idle 0)
                 (log (NewPage 1) (log (NewContext 10 None)
                    {| browser_pool := [(2, 20)%nat]; ticks := 1;
                       trace := [PoolGet (1, 10)%nat] |}))).
  assert (Hfail : run = (Raise timeout_30, snd run)) by (vm_compute; reflexivity).
  destruct (solve_page_failure_skips_close (Scenario.solver false) Scenario.idle
              (Some "https://example.com") (Some "0x4AAAAAAAB") None None
              (Scenario.ready [(1, 10); (2, 20)]%nat) _ _ (snd run) 1 10 1 1 [(2, 20)%nat]
              timeout_30 eq_refl eq_refl eq_refl eq_refl eq_refl Hfail) as (Hrun & _).
  eexists. split; [rewrite Hrun; vm_compute; reflexivity|].
  split; [vm_compute; reflexivity|].
  vm_compute. intuition discriminate.
Defined.

(** ** The token of a success *)

Lemma ensures_ask_value {A : Type} (w : world) (ev : event) (answer : list event -> A) :
  ensures (ask w ev answer) (fun a => exists h, a = answer h).
Proof.
  intros s r s' Hrun. rewrite run_ask in Hrun. injection Hrun as <- <-.
  split; [apply steady_log|]. split; [destruct (raises w (trace s) ev); discriminate|].
  intros a Ha. destruct (raises w (trace s) ev); [discriminate|].
  injection Ha as <-. exists (trace s). reflexivity.
Qed.

Lemma solver_poll_once_token (w : world) (start_time : Q) (attempt : nat) :
  ensures (Solver.poll_once w start_time attempt)
          (fun r => forall d, r = Some d -> carries_token w d).
Proof.
  unfold Solver.poll_once.
  apply ensures_try; [|intros e; ensure; discriminate].
  eapply ensures_bind; [apply ensures_ask_value|].
  intros token (h & Hread).
  destruct (truthy token && truthy_str (strip (default "" token))) eqn:Eok.
  - eapply ensures_bind with (P := fun _ => True); [ensure|]. intros now _.
    apply ensures_ret. intros d [= <-].
    apply andb_prop in Eok. destruct Eok as (Htruthy & Hstrip).
    destruct token as [token|]; [|discriminate].
    exists token, (round3 (fsub now start_time)), h.
    split; [reflexivity|]. split; [symmetry; exact Hread|].
    cbn [default from_option id] in Hstrip. unfold truthy_str in Hstrip.
    intros Hblank. rewrite Hblank in Hstrip. discriminate.
  - ensure; discriminate.
Qed.

Lemma solve_on_page_token (self : Solver.TurnstileSolver) (w : world) (page : nat)
    (url sitekey : string) (action cdata : option string) (start_time : Q) :
  ensures (Solver._solve_on_page self w page url sitekey action cdata start_time)
          (carries_token w).
Proof.
  unfold Solver._solve_on_page. cbv zeta.
  eapply ensures_bind with (P := fun _ => True); [ensure|]. intros _ _.
  eapply ensures_bind with (P := fun _ => True); [ensure|]. intros _ _.
  eapply ensures_bind with (P := fun _ => True); [ensure|]. intros _ _.
  eapply ensures_bind with (P := fun _ => True); [ensure|]. intros _ _.
  eapply ensures_bind with (P := fun _ => True).
  { apply ensures_try; [|intros e; ensure].
    eapply ensures_bind with (P := fun _ => True); [ensure|]. intros n _.
    destruct (0 <? n); ensure. }
  intros _ _.
  eapply ensures_bind; [apply ensures_for_each; intros x; apply solver_poll_once_token|].
  intros [d|] Hd; [|ensure].
  apply ensures_ret. apply Hd. reflexivity.
Qed.

(** X9.  A result of [solve] with status "success" has exactly the keys
    status, token and time; its token is a value the page's response field
    held, handed on as read, and it is not blank: a field holding only
    white space never counts as solved. *)
Theorem solve_success_token (self : Solver.TurnstileSolver) (w : world)
    (url sitekey action cdata : option string) (s s' : state) (d : pydict) :
  Solver.solve self w url sitekey action cdata s = (Ret d, s') ->
  d !! "status" = Some (PStr "success") ->
  carries_token w d.
Proof.
  intros Hrun Hstatus.
  destruct (truthy url) eqn:Hu; [destruct (truthy sitekey) eqn:Hk|];
    [|rewrite solve_rejects in Hrun by (right; exact Hk); injection Hrun as <- <-;
      discriminate
     |rewrite solve_rejects in Hrun by (left; exact Hu); injection Hrun as <- <-;
      discriminate].
  unfold Solver.solve in Hrun. rewrite Hu, Hk in Hrun.
  change (negb true || negb true) with false in Hrun. cbv iota in Hrun.
  rewrite run_bind, run_time in Hrun. cbv iota beta in Hrun. rewrite run_bind in Hrun.
  destruct (pool_get _) as [[[index browser]|e|] s1] eqn:Eget in Hrun;
    [|discriminate|discriminate].
  cbv iota beta in Hrun. rewrite run_try, run_bind in Hrun.
  destruct (Solver._setup_context self w browser s1) as [[context|e|] s2];
    [| |discriminate].
  2: { rewrite run_bind, run_time in Hrun. cbv iota beta zeta in Hrun.
       injection Hrun as <- <-. discriminate. }
  rewrite run_bind in Hrun.
  destruct (new_page w context s2) as [[page|e|] s3]; [| |discriminate].
  2: { rewrite run_bind, run_time in Hrun. cbv iota beta zeta in Hrun.
       injection Hrun as <- <-. discriminate. }
  rewrite run_bind in Hrun.
  match type of Hrun with context [Solver._solve_on_page ?a ?b ?c ?u ?k ?x ?y ?t s3] =>
    destruct (Solver._solve_on_page a b c u k x y t s3) as [r4 s4] eqn:E4
  end.
  destruct (solve_on_page_token _ _ _ _ _ _ _ _ _ _ _ E4) as (_ & _ & Htoken).
  destruct r4 as [result|e|]; [| |discriminate].
  2: { rewrite run_bind, run_time in Hrun. cbv iota beta zeta in Hrun.
       injection Hrun as <- <-. discriminate. }
  rewrite run_bind in Hrun.
  destruct (context_close w context s4) as [[[]|e|] s5]; [| |discriminate].
  2: { rewrite run_bind, run_time in Hrun. cbv iota beta zeta in Hrun.
       injection Hrun as <- <-. discriminate. }
  injection Hrun as <- <-. apply Htoken. reflexivity.
Qed.

Lemma solve_success_token_witness :
  carries_token (Scenario.solved_after 3 "0.tok")
    {[ "status" := PStr "success"; "token" := PStr "0.tok";
       "time" := PFloat (Qmake 1062 1000) ]}.
Proof.
  refine (solve_success_token (Scenario.solver false) (Scenario.solved_after 3 "0.tok")
            (Some "https://example.com") (Some "0x4AAAAAAAB") None None
            (Scenario.ready [(1, 10); (2, 20)]%nat)
            (snd (Solver.solve (Scenario.solver false) (Scenario.solved_after 3 "0.tok")
                    (Some "https://example.com") (Some "0x4AAAAAAAB") None None
                    (Scenario.ready [(1, 10); (2, 20)]%nat))) _ _ _).
  - vm_compute. reflexivity.
  - reflexivity.
Defined.

(** ** The legacy server: where the slot ends up *)

(** X10.  A call of the legacy [_solve_turnstile] on a pool that holds a
    slot never waits.  When it returns a result, success or error, the
    slot it took is back at the end of the queue; when an exception
    escapes, from the set-up before the [try] or from closing the context
    in the handler, the slot is not in the pool. *)
Theorem legacy_slot_fate (self : Legacy.TurnstileAPIServer) (w : world)
    (url sitekey : string) (action cdata : option string) (s s' : state)
    (sl : slot) (rest : list slot) (r : res pydict) :
  browser_pool s = sl :: rest ->
  Legacy._solve_turnstile self w url sitekey action cdata s = (r, s') ->
  match r with
  | Ret d =>
      browser_pool s' = (rest ++ [sl])%list
      /\ (Spec.timed_success d \/ Spec.timed_error d)
  | Raise _ => browser_pool s' = rest
  | Block => False
  end.
Proof.
  intros Hpool. unfold Legacy._solve_turnstile. rewrite run_bind.
  rewrite (run_pool_get_cons s sl rest Hpool). destruct sl as [index browser].
  cbv iota beta. rewrite run_bind.
  match goal with |- context [Legacy.open_context self w browser ?st] =>
    destruct (Legacy.open_context self w browser st) as [r2 s2] eqn:E2
  end.
  destruct (open_context_ensures _ _ _ _ _ _ E2) as ((Hp2 & _) & Hb2 & _).
  simpl in Hp2.
  destruct r2 as [context|e|]; [|intros [= <- <-]; exact Hp2|congruence].
  rewrite run_bind.
  destruct (new_page w context s2) as [r3 s3] eqn:E3.
  destruct (ensures_new_page _ _ _ _ _ E3) as ((Hp3 & _) & Hb3 & _).
  destruct r3 as [page|e|]; [|intros [= <- <-]; congruence|congruence].
  rewrite run_bind, run_time. cbv iota beta. rewrite run_try.
  match goal with
  | |- context [Legacy.attempt_body ?a ?b ?c ?d ?e ?f ?g ?h ?i ?j] =>
      destruct (Legacy.attempt_body a b c d e f g h i j) as [r4 s4] eqn:E4
  end.
  destruct (attempt_body_outcome _ _ _ _ _ _ _ _ _ _ _ _ E4)
    as [(e & -> & (Hp4 & _))|(d & k & -> & Hd & (Hp4 & _) & _)]; simpl in Hp4.
  - unfold Legacy.outer_handler, context_close.
    rewrite run_bind, run_time. cbv iota beta zeta. rewrite run_bind, run_call.
    match goal with
    | |- context [raises w ?h (ContextClose context)] =>
        destruct (raises w h (ContextClose context))
    end.
    + intros [= <- <-]. simpl. congruence.
    + intros [= <- <-]. split.
      * simpl. rewrite Hp4, Hp3, Hp2. reflexivity.
      * right. split; [reflexivity|]. eexists. reflexivity.
  - intros [= <- <-]. split; [|left; exact Hd].
    rewrite Hp4, Hp3, Hp2. reflexivity.
Qed.

Lemma legacy_slot_fate_witness :
  browser_pool
    (snd (Legacy._solve_turnstile (Scenario.server false) (Scenario.solved_after 3 "0.tok")
            "https://example.com" "0x4AAAAAAAB" None None
            (Scenario.ready [(1, 10); (2, 20)]%nat)))
  = [(2, 20); (1, 10)]%nat.
Proof.
  refine (proj1 (legacy_slot_fate (Scenario.server false) (Scenario.solved_after 3 "0.tok")
            "https://example.com" "0x4AAAAAAAB" None None
            (Scenario.ready [(1, 10); (2, 20)]%nat) _ (1, 10)%nat [(2, 20)%nat]
            (Ret {[ "status" := PStr "success"; "token" := PStr "0.tok";
                    "time" := PFloat (Qmake 1062 1000) ]}) eq_refl _)).
  vm_compute. reflexivity.
Defined.

(** ** The launcher: parsing and the start-up guard *)


















Example parse_args_abbreviated :
  Legacy.parse_args ["--thr"; "3"; "--po=8080"; "--head"; ""]
  = Some {| Legacy.ns_headless := false; Legacy.ns_useragent := None;
            Legacy.ns_browser_type := "chromium"; Legacy.ns_thread := 3;
            Legacy.ns_proxy := false; Legacy.ns_host := "127.0.0.1";
            Legacy.ns_port := "8080" |}
  /\ Legacy.parse_args ["--h"; "x"] = None
  /\ Legacy.parse_args ["--p"; "1"] = None
  /\ Legacy.parse_args ["--help"] = None
  /\ Legacy.parse_args ["--thread"; "-3"] <> None
  /\ Legacy.parse_args ["--useragent"; "-x"] = None
  /\ Legacy.parse_args ["--useragent=-x"] <> None
  /\ Legacy.parse_args ["--thread"; "3"; "extra"] = None
  /\ Legacy.parse_args ["--thread"] = None.
Proof. vm_compute. repeat split; discriminate. Qed.





Lemma browser_types_cases (bt : string) :
  In bt Launcher.browser_types ->
  existsb (String.eqb bt) Launcher.browser_types = true
  /\ (Launcher.contains "camoufox" bt = true <-> bt = "camoufox").
Proof.
  intros [<-|[<-|[<-|[<-|[]]]]]; (split; [reflexivity|]);
    split; intros H; try reflexivity; discriminate.
Qed.

Lemma browser_types_unknown (bt : string) :
  ~ In bt Launcher.browser_types -> existsb (String.eqb bt) Launcher.browser_types = false.
Proof.
  intros Hn. destruct (existsb (String.eqb bt) Launcher.browser_types) eqn:E; [|reflexivity].
  exfalso. apply Hn. apply existsb_exists in E. destruct E as (x & Hin & Heq).
  apply String.eqb_eq in Heq. subst x. exact Hin.
Qed.

(** The three ways the main block ends. *)
Lemma launcher_main_run (template : string) (args : Legacy.Namespace) (s : state) :
  Launcher.main template args s
  = if negb (bool_decide (In (Legacy.ns_browser_type args) Launcher.browser_types)) then
      (Ret (Launcher.LogError ("Unknown browser type: " +:+ Legacy.ns_browser_type args)), s)
    else if Legacy.ns_headless args
            && negb (bool_decide (is_Some (Legacy.ns_useragent args)))
            && negb (String.eqb (Legacy.ns_browser_type args) "camoufox") then
      (Ret (Launcher.LogError
              "You must specify a User-Agent for Turnstile Solver or use camoufox"), s)
    else
      match Legacy.int_of_str (Legacy.ns_port args) with
      | Some port =>
          (Ret (Launcher.AppRun
                  (Launcher.server_fields template (Legacy.ns_headless args)
                     (Legacy.ns_useragent args) (Legacy.ns_browser_type args)
                     (Legacy.ns_thread args) (Legacy.ns_proxy args))
                  (Legacy.ns_host args) port),
           {| browser_pool := []; ticks := ticks s; trace := trace s |})
      | None =>
          (Raise (ValueError ("invalid literal for int() with base 10: '"
                              +:+ Legacy.ns_port args +:+ "'")),
           {| browser_pool := []; ticks := ticks s; trace := trace s |})
      end.
Proof.
  unfold Launcher.main.
  destruct (decide (In (Legacy.ns_browser_type args) Launcher.browser_types)) as [Hin|Hout].
  - rewrite (bool_decide_eq_true_2 _ Hin).
    destruct (browser_types_cases _ Hin) as (-> & Hcamou). cbn [negb].
    assert (Hc : Launcher.contains "camoufox" (Legacy.ns_browser_type args)
                 = String.eqb (Legacy.ns_browser_type args) "camoufox").
    { destruct (String.eqb_spec (Legacy.ns_browser_type args) "camoufox") as [E|E].
      - apply Hcamou, E.
      - destruct (Launcher.contains "camoufox" (Legacy.ns_browser_type args)) eqn:Ec;
          [exfalso; apply E, Hcamou; reflexivity | reflexivity]. }
    rewrite Hc.
    destruct (Legacy.ns_headless args
              && negb (bool_decide (is_Some (Legacy.ns_useragent args)))
              && negb (String.eqb (Legacy.ns_browser_type args) "camoufox"));
      [reflexivity|].
    destruct (Legacy.int_of_str (Legacy.ns_port args)); reflexivity.
  - rewrite (bool_decide_eq_false_2 _ Hout), (browser_types_unknown _ Hout). reflexivity.
Qed.

(** X13.  The main block runs the application exactly when the browser
    type is one of the four names, the port string is an integer literal,
    and it is not the case that the flag is headless, no [--useragent] was
    given at all, and the type is not camoufox.  The server then gets the
    parsed values unchanged and starts with an empty pool.  In particular it never starts a headless
    chromium, chrome or msedge for which [useragent] is [None]. *)
Theorem launcher_runs_iff (template : string) (args : Legacy.Namespace) (s s' : state)
    (app : Legacy.TurnstileAPIServer) (host : string) (port : Z) :
  Launcher.main template args s = (Ret (Launcher.AppRun app host port), s')
  <-> s' = {| browser_pool := []; ticks := ticks s; trace := trace s |}
      /\ In (Legacy.ns_browser_type args) Launcher.browser_types
      /\ ~ (Legacy.ns_headless args = true /\ Legacy.ns_useragent args = None
            /\ Legacy.ns_browser_type args <> "camoufox")
      /\ Legacy.int_of_str (Legacy.ns_port args) = Some port
      /\ host = Legacy.ns_host args
      /\ app = Launcher.server_fields template (Legacy.ns_headless args)
                 (Legacy.ns_useragent args) (Legacy.ns_browser_type args)
                 (Legacy.ns_thread args) (Legacy.ns_proxy args).
Proof.
  rewrite launcher_main_run.
  destruct (decide (In (Legacy.ns_browser_type args) Launcher.browser_types)) as [Hin|Hout].
  2: { rewrite (bool_decide_eq_false_2 _ Hout). cbn [negb].
       split; [discriminate | intros (_ & H & _); contradiction]. }
  rewrite (bool_decide_eq_true_2 _ Hin). cbn [negb].
  destruct (Legacy.ns_headless args) eqn:Hh;
    destruct (Legacy.ns_useragent args) as [ua|] eqn:Hua;
    destruct (String.eqb_spec (Legacy.ns_browser_type args) "camoufox") as [Hc|Hc];
    cbn [andb negb bool_decide decide_rel is_Some_dec option_eq_None_dec];
    try (split; [discriminate | intros (_ & _ & Hguard & _); exfalso; apply Hguard; tauto]);
    (destruct (Legacy.int_of_str (Legacy.ns_port args)) as [p|];
     [ split;
       [ intros [= <- <- <- <-]; repeat split; try assumption; try reflexivity;
         intros (H1 & H2 & H3); congruence
       | intros (-> & _ & _ & [= <-] & -> & ->); reflexivity ]
     | split; [discriminate | intros (_ & _ & _ & H & _); discriminate] ]).
Qed.



(** X15.  The guard asks whether a user agent was given, the constructor
    whether it is non-empty: with [--useragent] given the empty string, a
    headless chromium, chrome or msedge passes the guard, and the server
    that is run launches its browsers with no argument at all, so without
    a user-agent flag. *)
Theorem empty_user_agent_passes_guard (template : string) (args : Legacy.Namespace)
    (port : Z) (s : state) :
  Legacy.ns_useragent args = Some "" ->
  In (Legacy.ns_browser_type args) Launcher.browser_types ->
  Legacy.int_of_str (Legacy.ns_port args) = Some port ->
  exists app,
    Launcher.main template args s
    = (Ret (Launcher.AppRun app (Legacy.ns_host args) port),
       {| browser_pool := []; ticks := ticks s; trace := trace s |})
    /\ Legacy.headless app = Legacy.ns_headless args
    /\ Legacy.browser_args app = [].
Proof.
  intros Hua Hbt Hport. rewrite launcher_main_run, Hua, Hport.
  rewrite (bool_decide_eq_true_2 _ Hbt). cbn [negb].
  replace (bool_decide (is_Some (Some ""))) with true by reflexivity.
  rewrite andb_false_r. cbn [negb andb].
  eexists. split; [reflexivity|]. split; reflexivity.
Qed.

Lemma empty_user_agent_passes_guard_witness :
  exists ns app,
    Legacy.parse_args ["--headless"; "yes"; "--useragent"; ""] = Some ns
    /\ Launcher.main "" ns Scenario.fresh
       = (Ret (Launcher.AppRun app "127.0.0.1" 5000), Scenario.fresh)
    /\ Legacy.headless app = true
    /\ Legacy.browser_args app = [].
Proof.
  exists {| Legacy.ns_headless := true; Legacy.ns_useragent := Some "";
            Legacy.ns_browser_type := "chromium"; Legacy.ns_thread := 1;
            Legacy.ns_proxy := false; Legacy.ns_host := "127.0.0.1";
            Legacy.ns_port := "5000" |}.
  destruct (empty_user_agent_passes_guard ""
              {| Legacy.ns_headless := true; Legacy.ns_useragent := Some "";
                 Legacy.ns_browser_type := "chromium"; Legacy.ns_thread := 1;
                 Legacy.ns_proxy := false; Legacy.ns_host := "127.0.0.1";
                 Legacy.ns_port := "5000" |} 5000 Scenario.fresh eq_refl)
    as (app & Hrun & Hh & Hargs); [simpl; tauto | reflexivity |].
  exists app. split; [reflexivity|]. split; [exact Hrun|]. split; assumption.
Defined.

(** ** The primary host: endpoints, configuration and dispatch *)

(** X16.  [GET /api/solve] and [POST /api/solve] behave alike.  Without a
    solver they raise the 503 exception and touch nothing.  With a solver
    they never raise the 500 exception: either they hand back the result
    of [solve] as a JSON body (answered with 200 also when its status is
    "error", as for a request with an empty url), or they wait on the
    empty pool. *)
Theorem api_solve_answers (solver : option Solver.TurnstileSolver) (w : world)
    (request : Host.TurnstileRequest) (s : state) :
  Host.solve_post solver w request s
  = Host.solve_get solver w (Host.url request) (Host.sitekey request)
      (Host.action request) (Host.cdata request) s
  /\ match solver with
     | None =>
         Host.solve_post solver w request s
         = (Ret (Host.HTTPException 503 "Solver not initialized"), s)
     | Some self =>
         (exists d s',
            Host.solve_post solver w request s = (Ret (Host.Json d), s')
            /\ Solver.solve self w (Some (Host.url request)) (Some (Host.sitekey request))
                 (Host.action request) (Host.cdata request) s = (Ret d, s')
            /\ (d !! "status" = Some (PStr "success") \/ d !! "status" = Some (PStr "error")))
         \/ (exists s', Host.solve_post solver w request s = (Block, s')
                        /\ browser_pool s = [])
     end
  /\ (Host.url request = "" \/ Host.sitekey request = "" ->
      forall self, solver = Some self ->
      Host.solve_post solver w request s
      = (Ret (Host.Json {[ "status" := PStr "error";
                           "error" := PStr "Both 'url' and 'sitekey' are required" ]}), s)).
Proof.
  split; [reflexivity|]. split.
  - destruct solver as [self|]; [|reflexivity].
    unfold Host.solve_post. rewrite run_try, run_bind.
    destruct (truthy (Some (Host.url request))) eqn:Hu;
      [destruct (truthy (Some (Host.sitekey request))) eqn:Hk|].
    + pose proof (solve_valid_outcome self w _ _ (Host.action request) (Host.cdata request)
                    s Hu Hk) as Hout.
      destruct (browser_pool s) as [|sl rest].
      * right. destruct Hout as (s' & ->). exists s'. split; reflexivity.
      * left. destruct Hout as (d & s' & Hrun & Hd & _). rewrite Hrun.
        exists d, s'. split; [reflexivity|]. split; [reflexivity|].
        destruct Hd as [[H _]|[H _]]; [left | right]; exact H.
    + left. rewrite solve_rejects by (right; exact Hk).
      eexists. exists s. split; [reflexivity|]. split; [reflexivity|]. right. reflexivity.
    + left. rewrite solve_rejects by (left; exact Hu).
      eexists. exists s. split; [reflexivity|]. split; [reflexivity|]. right. reflexivity.
  - intros Hempty self ->. unfold Host.solve_post. rewrite run_try, run_bind.
    rewrite solve_rejects; [reflexivity|].
    destruct Hempty as [-> | ->]; [left | right]; reflexivity.
Qed.

Lemma config_complete (f : App.config_file) (s : state) :
  exists config api : pydict,
    App.load_config f s = (Ret config, s)
    /\ config !! "api" = Some (PDict api)
    /\ Forall (fun key => is_Some (config !! key))
         ["headless"; "thread"; "browser_type"; "proxy_support"; "api"]
    /\ Forall (fun key => is_Some (api !! key)) ["enabled"; "host"; "port"]
    /\ ((forall config', f <> App.Loaded config') ->
        config = App.default_config /\ api = App.default_api).
Proof.
  assert (Hkeys : forall top : pydict,
    Forall (fun key => is_Some ((top ∪ App.default_config) !! key))
      ["headless"; "thread"; "browser_type"; "proxy_support"; "api"]).
  { intros top. repeat constructor;
      (apply lookup_union_is_Some; right; eexists; reflexivity). }
  assert (Hdefault : App.load_config f s = (Ret App.default_config, s) ->
    exists config api : pydict,
      App.load_config f s = (Ret config, s)
      /\ config !! "api" = Some (PDict api)
      /\ Forall (fun key => is_Some (config !! key))
           ["headless"; "thread"; "browser_type"; "proxy_support"; "api"]
      /\ Forall (fun key => is_Some (api !! key)) ["enabled"; "host"; "port"]
      /\ ((forall config', f <> App.Loaded config') ->
          config = App.default_config /\ api = App.default_api)).
  { intros Hrun. exists App.default_config, App.default_api.
    split; [exact Hrun|]. split; [reflexivity|].
    split; [repeat constructor; eexists; reflexivity|].
    split; [repeat constructor; eexists; reflexivity|]. intros _. split; reflexivity. }
  destruct f as [|e|e|config0]; try (apply Hdefault; try destruct e; reflexivity).
  assert (Hloaded : forall P : Prop,
      (forall config', App.Loaded config0 <> App.Loaded config') -> P).
  { intros P H. exfalso. apply (H config0). reflexivity. }
  destruct config0 as [| | | | | |top]; try (apply Hdefault; reflexivity).
  rewrite load_config_merged in *.
  destruct (top !! "api") as [[| | | | | |sub]|] eqn:Eapi;
    try (apply Hdefault; reflexivity).
  - exists (<["api" := PDict (sub ∪ App.default_api)]> (top ∪ App.default_config)),
           (sub ∪ App.default_api).
    split; [reflexivity|]. split; [apply lookup_insert_eq|]. split; [|split].
    + eapply Forall_impl; [apply (Hkeys top)|]. intros key Hkey.
      rewrite lookup_insert_is_Some. destruct (decide ("api" = key)); [left|right]; tauto.
    + repeat constructor; (apply lookup_union_is_Some; right; eexists; reflexivity).
    + apply Hloaded.
  - exists (top ∪ App.default_config), App.default_api.
    split; [reflexivity|]. split; [rewrite lookup_union_r by exact Eapi; reflexivity|].
    split; [apply Hkeys|]. split; [repeat constructor; eexists; reflexivity|].
    apply Hloaded.
Qed.

(** X17.  Whatever the configuration file is (absent, unreadable,
    malformed, or any JSON value), the loaded configuration has all five
    top-level keys, and its [api] is an object with the keys enabled, host
    and port: the look-ups of [lifespan], [run_cli] and [main] never hit a
    missing key. *)
Theorem load_config_always_complete (f : App.config_file) (s : state) :
  exists config api : pydict,
    App.load_config f s = (Ret config, s)
    /\ config !! "api" = Some (PDict api)
    /\ Forall (fun key => is_Some (config !! key))
         ["headless"; "thread"; "browser_type"; "proxy_support"; "api"]
    /\ Forall (fun key => is_Some (api !! key)) ["enabled"; "host"; "port"].
Proof.
  destruct (config_complete f s) as (config & api & H1 & H2 & H3 & H4 & _).
  exists config, api. repeat split; assumption.
Qed.

(** X18.  Loading the configuration and dispatching never fails: [main]
    always chooses a mode.  It is the command-line mode whenever the file
    is absent, unreadable or malformed; the API server is started only on
    a truthy [api.enabled], with the host and port of the loaded
    configuration. *)
Theorem main_dispatch (f : App.config_file) (s : state) :
  exists m,
    (App.load_config f ≫= Host.main) s = (Ret m, s)
    /\ ((forall config', f <> App.Loaded config') -> m = Host.CliMode)
    /\ (forall host port, m = Host.ApiServer host port ->
        exists (config api : pydict) (enabled : pyval),
          App.load_config f s = (Ret config, s)
          /\ config !! "api" = Some (PDict api)
          /\ api !! "enabled" = Some enabled /\ Host.truthy_val enabled = true
          /\ api !! "host" = Some host /\ api !! "port" = Some port).
Proof.
  destruct (config_complete f s) as (config & api & Hrun & Hapi & _ & Hkeys & Hfail).
  apply Forall_cons in Hkeys. destruct Hkeys as ((enabled & He) & Hkeys).
  apply Forall_cons in Hkeys. destruct Hkeys as ((host & Hh) & Hkeys).
  apply Forall_cons in Hkeys. destruct Hkeys as ((port & Hp) & _).
  rewrite run_bind, Hrun. cbv iota beta.
  unfold Host.main. rewrite run_bind. unfold Host.getitem at 1. rewrite Hapi, run_ret.
  cbv iota beta. rewrite run_bind. unfold Host.getitem at 1. rewrite He, run_ret.
  cbv iota beta.
  destruct (Host.truthy_val enabled) eqn:Htruthy.
  - rewrite run_bind. unfold Host.getitem at 1. rewrite Hh, run_ret. cbv iota beta.
    rewrite run_bind. unfold Host.getitem at 1. rewrite Hp, run_ret. cbv iota beta.
    rewrite run_ret. eexists. split; [reflexivity|]. split.
    + intros Hnot. destruct (Hfail Hnot) as (_ & ->).
      injection He as <-. discriminate.
    + intros host' port' [= <- <-]. exists config, api, enabled.
      repeat split; assumption.
  - rewrite run_ret. eexists. split; [reflexivity|]. split; [reflexivity | discriminate].
Qed.

Example api_enabled_by_file :
  (App.load_config (App.Loaded (PDict {[ "api" := PDict {[ "enabled" := PBool true;
                                                         "port" := PInt 9000 ]} ]}))
   ≫= Host.main) Scenario.fresh
  = (Ret (Host.ApiServer (PStr "0.0.0.0") (PInt 9000)), Scenario.fresh).
Proof. reflexivity. Qed.

(** ** Proxy entries: nothing is lost in parsing *)

Lemma split_nonempty (sep : ascii) (s : string) : split sep s <> [].
Proof.
  destruct s as [|c r]; simpl; [discriminate|].
  destruct (Ascii.eqb c sep); [discriminate|].
  destruct (split sep r); discriminate.
Qed.

Lemma join_split (sep : ascii) (s : string) : join sep (split sep s) = s.
Proof.
  induction s as [|c r IH]; [reflexivity|]. simpl split.
  destruct (Ascii.eqb_spec c sep) as [->|Hc].
  - pose proof (split_nonempty sep r) as Hne.
    destruct (split sep r) as [|h t] eqn:E; [contradiction|].
    change (join sep (EmptyString :: h :: t)) with (String sep (join sep (h :: t))).
    rewrite IH. reflexivity.
  - pose proof (split_nonempty sep r) as Hne.
    destruct (split sep r) as [|h t] eqn:E; [contradiction|].
    destruct t as [|h' t'].
    + simpl in IH. simpl. rewrite IH. reflexivity.
    + change (join sep (String c h :: h' :: t'))
        with (String c (h +:+ String sep (join sep (h' :: t')))).
      change (join sep (h :: h' :: t')) with (h +:+ String sep (join sep (h' :: t'))) in IH.
      rewrite IH. reflexivity.
Qed.

Lemma split_fields_clean (sep : ascii) (s : string) :
  Forall (fun field => has_char sep field = false) (split sep s).
Proof.
  induction s as [|c r IH]; simpl.
  - repeat constructor.
  - destruct (Ascii.eqb_spec c sep) as [->|Hc].
    + constructor; [reflexivity | exact IH].
    + destruct (split sep r) as [|h t]; [repeat constructor; simpl|].
      * destruct (Ascii.eqb_spec c sep); [contradiction | reflexivity].
      * inversion IH as [|? ? Hh Ht]; subst. constructor; [|exact Ht].
        simpl. rewrite Hh. destruct (Ascii.eqb_spec c sep); [contradiction | reflexivity].
Qed.

(** X19.  For a drawn proxy line of exactly five fields, both components
    hand the driver a server, a user name and a password from which the
    line can be put together again: the line is
    [scheme:host:port:username:password] for the fields used, and none of
    them, the password included, contains a colon. *)
Theorem authenticated_proxy_round_trip (core : Solver.TurnstileSolver)
    (legacy : Legacy.TurnstileAPIServer) (w : world) (browser : nat) (s : state)
    (lines : list string) (proxy : string) :
  Solver.proxy_support core = true ->
  Legacy.proxy_support legacy = true ->
  proxies_txt w = Lines lines ->
  random_choice w (stripped_lines lines) s = (Ret (Some proxy), s) ->
  length (split ":" proxy) = 5%nat ->
  exists scheme host port username password : string,
    Solver._setup_context core w browser s
    = new_context w browser
        (Some {[ "server" := PStr (scheme +:+ "://" +:+ host +:+ ":" +:+ port);
                 "username" := PStr username; "password" := PStr password ]}) s
    /\ Legacy.open_context legacy w browser s
       = new_context w browser
           (Some {[ "server" := PStr (scheme +:+ "://" +:+ host +:+ ":" +:+ port);
                    "username" := PStr username; "password" := PStr password ]}) s
    /\ proxy = scheme +:+ ":" +:+ host +:+ ":" +:+ port +:+ ":" +:+ username
               +:+ ":" +:+ password
    /\ Forall (fun field => has_char ":" field = false)
         [scheme; host; port; username; password].
Proof.
  intros Hcore Hlegacy Hfile Hdraw Hfive.
  rewrite (setup_context_drawn core w browser s lines proxy Hcore Hfile Hdraw).
  rewrite (open_context_drawn legacy w browser s lines proxy Hlegacy Hfile Hdraw).
  pose proof (join_split ":" proxy) as Hjoin.
  pose proof (split_fields_clean ":" proxy) as Hclean.
  destruct (split ":" proxy) as [|a [|b [|c [|d [|e [|? ?]]]]]]; try discriminate.
  exists a, b, c, d, e. simpl length. simpl nth. cbv iota.
  change (5 =? 3)%nat with false. change (5 =? 5)%nat with true. cbv iota.
  split; [reflexivity|]. split; [reflexivity|]. split; [|exact Hclean].
  rewrite <- Hjoin. reflexivity.
Qed.

Lemma authenticated_proxy_round_trip_witness :
  exists scheme host port username password : string,
    Solver._setup_context (Scenario.solver true)
      (Scenario.with_proxies Scenario.auth_proxy Scenario.idle) 10
      (Scenario.ready [(2, 20)]%nat)
    = new_context (Scenario.with_proxies Scenario.auth_proxy Scenario.idle) 10
        (Some {[ "server" := PStr (scheme +:+ "://" +:+ host +:+ ":" +:+ port);
                 "username" := PStr username; "password" := PStr password ]})
        (Scenario.ready [(2, 20)]%nat)
    /\ "http:1.2.3.4:8080:user:pass"
       = scheme +:+ ":" +:+ host +:+ ":" +:+ port +:+ ":" +:+ username +:+ ":" +:+ password.
Proof.
  destruct (authenticated_proxy_round_trip (Scenario.solver true) (Scenario.server true)
              (Scenario.with_proxies Scenario.auth_proxy Scenario.idle) 10%nat
              (Scenario.ready [(2, 20)]%nat) _ "http:1.2.3.4:8080:user:pass"
              eq_refl eq_refl eq_refl eq_refl eq_refl)
    as (scheme & host & port & username & password & Hcore & _ & Hline & _).
  exists scheme, host, port, username, password. split; assumption.
Defined.

(** ** The synthetic page is the page visited *)

Lemma endswith_slash (u : string) : endswith (u +:+ "/") "/" = true.
Proof.
  induction u as [|a r IH]; [reflexivity|].
  destruct r as [|b r']; [reflexivity|]. exact IH.
Qed.

Lemma url_with_slash_ends (url : string) :
  endswith (if negb (endswith url "/") then url +:+ "/" else url) "/" = true.
Proof.
  destruct (endswith url "/") eqn:E; simpl; [exact E | apply endswith_slash].
Qed.

Lemma trace_log (ev : event) (s : state) : trace (log ev s) = (trace s ++ [ev])%list.
Proof. reflexivity. Qed.

(** X20.  In both components the first driver call of the page-solve step
    installs the route for the target URL with a trailing slash (added
    when missing, never doubled), and the navigation that follows goes to
    exactly that URL: the page visited is always the intercepted one.
    When installing the route fails, its exception ends the step and no
    navigation is attempted: the failed call is the only effect.  When the
    navigation fails, its exception ends the step likewise. *)
Theorem route_then_goto (core : Solver.TurnstileSolver) (legacy : Legacy.TurnstileAPIServer)
    (w : world) (page context : nat) (sl : slot) (url sitekey : string)
    (action cdata : option string) (start_time : Q) (s : state) :
  let u := if endswith url "/" then url else url +:+ "/" in
  let visited (r_s' : res pydict * state) :=
    exists body : string,
      match raises w (trace s) (PageRoute u body) with
      | Some e => r_s' = (Raise e, log (PageRoute u body) s)
      | None =>
          match raises w (trace s ++ [PageRoute u body])%list (PageGoto u) with
          | Some e => r_s' = (Raise e, log (PageGoto u) (log (PageRoute u body) s))
          | None =>
              exists k : list event,
                trace (snd r_s') = (trace s ++ PageRoute u body :: PageGoto u :: k)%list
          end
      end in
  endswith u "/" = true
  /\ visited (Solver._solve_on_page core w page url sitekey action cdata start_time s)
  /\ visited (Legacy.attempt_body legacy w context sl url sitekey action cdata start_time s).
Proof.
  intros u visited.
  assert (Hu : (if negb (endswith url "/") then url +:+ "/" else url) = u).
  { unfold u. destruct (endswith url "/"); reflexivity. }
  split; [rewrite <- Hu; apply url_with_slash_ends|].
  split.
  - unfold visited, Solver._solve_on_page. cbv zeta. rewrite Hu.
    match goal with |- context [call w (PageRoute u ?b)] => exists b end.
    rewrite run_bind, run_call.
    destruct (raises w (trace s) (PageRoute u _)) as [e|]; [reflexivity|].
    cbv iota beta. rewrite run_bind, run_call, trace_log.
    match goal with |- context [raises w ?h (PageGoto u)] =>
      destruct (raises w h (PageGoto u)) as [e|]
    end; [reflexivity|].
    cbv iota beta.
    match goal with |- context [trace (snd (?rest ?st))] =>
      assert (Hrest : ensures rest (fun _ => True));
      [|destruct (rest st) as [r s'] eqn:Erun;
        destruct (Hrest _ _ _ Erun) as ((_ & _ & k & Hk) & _)]
    end.
    { eapply ensures_bind with (P := fun _ => True); [ensure|]. intros _ _.
      eapply ensures_bind with (P := fun _ => True); [ensure|]. intros _ _.
      eapply ensures_bind with (P := fun _ => True).
      { apply ensures_try; [|intros e; ensure].
        eapply ensures_bind with (P := fun _ => True); [ensure|]. intros n _.
        destruct (0 <? n); ensure. }
      intros _ _.
      eapply ensures_bind with (P := fun _ => True);
        [eapply ensures_weaken;
         [apply ensures_for_each; intros x; apply solver_poll_once_ensures|intros; exact I]|].
      intros [d|] _; ensure. }
    exists k. simpl. rewrite Hk. simpl. rewrite <- !app_assoc. reflexivity.
  - unfold visited.
    destruct (Legacy.attempt_body legacy w context sl url sitekey action cdata start_time s)
      as [r s'] eqn:Erun.
    unfold Legacy.attempt_body in Erun. cbv zeta in Erun. rewrite Hu in Erun.
    match type of Erun with context [call w (PageRoute u ?b)] => exists b end.
    rewrite run_bind, run_call in Erun.
    destruct (raises w (trace s) (PageRoute u _)) as [e|].
    { symmetry. exact Erun. }
    cbv iota beta in Erun. rewrite run_bind, run_call, trace_log in Erun.
    match type of Erun with context [raises w ?h (PageGoto u)] =>
      destruct (raises w h (PageGoto u)) as [e|]
    end.
    { symmetry. exact Erun. }
    cbv iota beta in Erun. rewrite run_bind in Erun.
    match type of Erun with context [call w ?ev ?st] =>
      destruct (call w ev st) as [r3 s3] eqn:E3
    end.
    destruct (ensures_call _ _ _ _ _ E3) as ((_ & _ & k3 & Hk3) & Hb3 & _).
    assert (Hgrow : exists k4, trace s' = (trace s3 ++ k4)%list).
    { destruct r3 as [[]|e|]; [|injection Erun as <- <-; exists []; symmetry; apply app_nil_r
                                |congruence].
      rewrite run_bind in Erun.
      destruct (for_each (range 15) (Legacy.poll_once w context sl start_time) s3)
        as [r4 s4] eqn:E4.
      destruct (legacy_poll_loop_outcome _ _ _ _ _ _ _ _ E4)
        as [[-> (_ & _ & Hk)]|[[-> (_ & _ & Hk)]|(d & k & -> & _ & (_ & _ & Hk) & _)]];
        injection Erun as <- <-; exact Hk. }
    destruct Hgrow as (k4 & Hk4).
    exists (k3 ++ k4)%list.
    simpl. rewrite Hk4, Hk3. simpl. rewrite <- !app_assoc. reflexivity.
Qed.

(** ** Launching one browser *)

(** X21.  [_create_browser] makes at most two launch attempts.  For
    chromium, chrome and msedge a failed launch is followed by one
    fall-back launch of the bundled Chromium, always headless and with
    only the two sandbox flags, whatever channel and headless flag are
    configured; the browser of the fall-back is the one returned, and when
    it fails too, it is its exception that escapes, not the first one.
    For camoufox there is a single attempt and its failure escapes. *)
Theorem create_browser_attempts (self : Solver.TurnstileSolver) (w : world) (index : nat)
    (s : state) :
  let first :=
    Launch (if String.eqb (Solver.browser_type self) "chromium" then None
            else Some (Solver.browser_type self))
           (Solver.headless self) (Solver.browser_args self) in
  let fallback := Launch None true ["--no-sandbox"; "--disable-dev-shm-usage"] in
  (Solver.chromium_family (Solver.browser_type self) = true ->
   Solver._create_browser self w index s
   = match raises w (trace s) first with
     | None => (Ret (launched w (trace s)), log first s)
     | Some _ =>
         match raises w (trace s ++ [first])%list fallback with
         | None => (Ret (launched w (trace s ++ [first])%list), log fallback (log first s))
         | Some e => (Raise e, log fallback (log first s))
         end
     end)
  /\ (Solver.browser_type self = "camoufox" ->
      Solver._create_browser self w index s
      = match raises w (trace s) CamoufoxStart with
        | None => (Ret (launched w (trace s)), log CamoufoxStart s)
        | Some e => (Raise e, log CamoufoxStart s)
        end).
Proof.
  intros first fallback. split.
  - intros Hfamily. unfold Solver._create_browser. rewrite run_try, Hfamily, run_ask.
    fold first. destruct (raises w (trace s) first) as [e|]; [|reflexivity].
    rewrite run_ask. fold fallback. simpl trace.
    destruct (raises w (trace s ++ [first])%list fallback); reflexivity.
  - intros Hcamoufox. unfold Solver._create_browser.
    rewrite run_try, Hcamoufox. simpl. rewrite run_ask.
    destruct (raises w (trace s) CamoufoxStart); reflexivity.
Qed.

Lemma create_browser_attempts_witness :
  Solver._create_browser Scenario.visible_chrome Scenario.no_channel 1 Scenario.fresh
  = (Ret 1%nat,
     {| browser_pool := []; ticks := 0;
        trace := [Launch (Some "chrome") false (Solver.browser_args Scenario.visible_chrome);
                  Launch None true ["--no-sandbox"; "--disable-dev-shm-usage"]] |}).
Proof.
  refine (eq_trans (proj1 (create_browser_attempts Scenario.visible_chrome
                             Scenario.no_channel 1%nat Scenario.fresh) eq_refl) _).
  reflexivity.
Defined.
